(** * Circuit cutting (pennylane/qcut.py): a shallow embedding

    The development follows the pipeline of [cut_circuit]:
    tape -> graph -> cuts-expanded graph -> fragments and communication
    graph -> fragment tapes -> configuration tapes -> tensors -> scalar.

    Python objects that the pipeline shares by reference (operators and
    measurement processes, which are graph nodes, dictionary keys and
    the [pair] labels of the communication graph) live in a heap and are
    named by their address; everything that is only read by value
    (observables inside a measurement, recorded configuration tapes) is
    a plain value. *)

From Stdlib Require Import QArith Qcanon.
From stdpp Require Import numbers base option list gmap strings.

Open Scope Z_scope.

(** ** Exceptions and the two monads *)

Inductive exn :=
  | ValueError (msg : string)
  | UnboundLocalError (var : string)
  | AssertionError
  | IndexError
  | KeyError
  | TypeError
  | NetworkXError.

Inductive result (A : Type) :=
  | Ok (a : A)
  | Raise (e : exn).
Arguments Ok {A} a.
Arguments Raise {A} e.

Definition rbind {A B} (x : result A) (k : A -> result B) : result B :=
  match x with
  | Ok a => k a
  | Raise e => Raise e
  end.

Notation "'let?' x ':=' e 'in' k" := (rbind e (fun x => k))
  (at level 10, x pattern, e at level 200, k at level 200).

(** left-to-right loops whose body may raise *)
Fixpoint foldR {A B} (f : A -> B -> result A) (l : list B) (a : A) : result A :=
  match l with
  | [] => Ok a
  | b :: l' => let? a' := f a b in foldR f l' a'
  end.

Fixpoint mapR {A B} (f : A -> result B) (l : list A) : result (list B) :=
  match l with
  | [] => Ok []
  | a :: l' => let? b := f a in let? bs := mapR f l' in Ok (b :: bs)
  end.

Definition is_ok {A} (x : result A) : bool :=
  match x with Ok _ => true | Raise _ => false end.

(** ** Operator model *)

(** wire labels are integers; object addresses are indices into the heap *)
Abbreviation wire := Z (only parsing).

(** Gate and observable classes.  [PhaseS] is PennyLane's [S]. *)
Inductive gate :=
  | Identity | PauliX | PauliY | PauliZ | Hadamard | PhaseS | CNOT
  | Named (name : string).

#[global] Instance gate_eq_dec : EqDecision gate.
Proof. solve_decision. Defined.

(** A measure term is a callable applied to the node's wires that returns
    an observable; a prepare term is a callable that queues gates on the
    wire.  The module's own settings are classes and short gate
    sequences, and that is what a term is here. *)
Definition measure_term := gate.
Definition prepare_term := list gate.

Definition _prep_zero_state : prepare_term := [Identity].
Definition _prep_one_state : prepare_term := [PauliX].
Definition _prep_plus_state : prepare_term := [Hadamard].
Definition _prep_iplus_state : prepare_term := [Hadamard; PhaseS].

Definition PREPARE_SETTINGS : list prepare_term :=
  [_prep_zero_state; _prep_one_state; _prep_plus_state; _prep_iplus_state].
Definition MEASURE_SETTINGS : list measure_term :=
  [Identity; PauliX; PauliY; PauliZ].

(** Classes of the objects found in [tape.operations].  A [WireCut] may
    carry a custom expansion, given by the terms of the measure and
    prepare node it puts on each wire. *)
Inductive opclass :=
  | Gate (g : gate)
  | WireCut (_custom_expansion : option (list measure_term * list prepare_term))
  | MeasureNode (terms : list measure_term)
  | PrepareNode (terms : list prepare_term).

Definition SimpleMeasureNode : opclass := MeasureNode MEASURE_SETTINGS.
Definition SimplePrepareNode : opclass := PrepareNode PREPARE_SETTINGS.

Record observable := Obs { obs_cls : gate; obs_wires : list wire }.

(** [m.obs]: a single observable or a [Tensor] of them *)
Inductive obs_expr :=
  | Single (o : observable)
  | Tensor (obs : list observable).

Inductive return_type := Expectation | Variance | Sample | Probability | State.

#[global] Instance return_type_eq_dec : EqDecision return_type.
Proof. solve_decision. Defined.

Inductive object :=
  | Operator (cls : opclass) (_wires : list wire)
  | MeasurementProcess (rt : return_type) (obs : option obs_expr)
                       (_wires : list wire).

(** [Wires.all_wires]: the wires of all the lists, each once, in order of
    first appearance *)
Fixpoint unique (seen l : list wire) : list wire :=
  match l with
  | [] => []
  | w :: l' => if bool_decide (w ∈ seen) then unique seen l'
               else w :: unique (w :: seen) l'
  end.
Definition all_wires (ls : list (list wire)) : list wire := unique [] (concat ls).

Definition expr_wires (e : obs_expr) : list wire :=
  match e with
  | Single o => obs_wires o
  | Tensor os => all_wires (map obs_wires os)
  end.

(** the [wires] property: an operator returns [_wires]; a measurement
    returns the wires of its observable when it has one *)
Definition wires_of (o : object) : list wire :=
  match o with
  | Operator _ ws => ws
  | MeasurementProcess _ (Some e) _ => expr_wires e
  | MeasurementProcess _ None ws => ws
  end.

(** ** The heap of shared objects *)

Abbreviation oid := nat (only parsing).
Abbreviation heap := (list object) (only parsing).

Definition M (A : Type) := heap -> result (A * heap).

Definition ret {A} (a : A) : M A := fun h => Ok (a, h).
Definition bind {A B} (x : M A) (k : A -> M B) : M B :=
  fun h => match x h with
           | Ok (a, h') => k a h'
           | Raise e => Raise e
           end.
Definition raise {A} (e : exn) : M A := fun _ => Raise e.
Definition get_heap : M heap := fun h => Ok (h, h).
Definition alloc (o : object) : M oid := fun h => Ok (length h, h ++ [o]).
Definition lift {A} (x : result A) : M A :=
  fun h => match x with Ok a => Ok (a, h) | Raise e => Raise e end.

Notation "'let*' x ':=' e 'in' k" := (bind e (fun x => k))
  (at level 10, x pattern, e at level 200, k at level 200).

Fixpoint foldH {A B} (f : A -> B -> M A) (l : list B) (a : A) : M A :=
  match l with
  | [] => ret a
  | b :: l' => let* a' := f a b in foldH f l' a'
  end.

Fixpoint mapH {A B} (f : A -> M B) (l : list A) : M (list B) :=
  match l with
  | [] => ret []
  | a :: l' => let* b := f a in let* bs := mapH f l' in ret (b :: bs)
  end.

Definition wires (h : heap) (n : oid) : list wire :=
  match h !! n with Some o => wires_of o | None => [] end.

Definition class_of (h : heap) (n : oid) : option opclass :=
  match h !! n with Some (Operator c _) => Some c | _ => None end.

(** [isinstance(op, WireCut)] and friends *)
Definition is_WireCut (h : heap) (n : oid) : bool :=
  match class_of h n with Some (WireCut _) => true | _ => false end.
Definition is_MeasureNode (h : heap) (n : oid) : bool :=
  match class_of h n with Some (MeasureNode _) => true | _ => false end.
Definition is_PrepareNode (h : heap) (n : oid) : bool :=
  match class_of h n with Some (PrepareNode _) => true | _ => false end.

(** ** Tapes *)

Record QuantumTape := Tape { operations : list oid; measurements : list oid }.

Definition tape_wires (h : heap) (t : QuantumTape) : list wire :=
  all_wires (map (wires h) (operations t ++ measurements t)).

(** A tape as the user records it: every recorded operator and
    measurement is an object of its own. *)
Definition record_tape (ops : list (opclass * list wire))
    (ms : list (return_type * option obs_expr * list wire)) : M QuantumTape :=
  let* os := mapH (fun '(c, ws) => alloc (Operator c ws)) ops in
  let* mm := mapH (fun '(rt, e, ws) => alloc (MeasurementProcess rt e ws)) ms in
  ret (Tape os mm).

(** ** Directed multigraphs (networkx.MultiDiGraph)

    Nodes are kept in insertion order with their [order] attribute, edges
    in insertion order with their [wire] attribute.  networkx iterates
    nodes in insertion order and the adjacency of a node by neighbour in
    order of the first edge to it, then by key. *)

Record MultiDiGraph := Graph {
  nodes : list (oid * Q);
  edges : list (oid * oid * wire)
}.

Definition empty_graph : MultiDiGraph := Graph [] [].

Definition node_list (g : MultiDiGraph) : list oid := map fst (nodes g).

Definition has_node (g : MultiDiGraph) (n : oid) : bool :=
  bool_decide (n ∈ node_list g).

(** [graph.add_node(n, order=o)]: a new node goes last; a node already
    there keeps its place and gets the new attribute *)
Definition add_node (n : oid) (o : Q) (g : MultiDiGraph) : MultiDiGraph :=
  if has_node g n
  then Graph (map (fun p => if bool_decide (fst p = n) then (n, o) else p) (nodes g))
             (edges g)
  else Graph (nodes g ++ [(n, o)]) (edges g).

(** [graph.add_edge(u, v, wire=w)] between nodes of the graph *)
Definition add_edge (u v : oid) (w : wire) (g : MultiDiGraph) : MultiDiGraph :=
  Graph (nodes g) (edges g ++ [(u, v, w)]).

(** [graph.remove_node(n)] takes the edges at [n] with it *)
Definition remove_node (n : oid) (g : MultiDiGraph) : MultiDiGraph :=
  Graph (filter (fun p => fst p ≠ n) (nodes g))
        (filter (fun e => e.1.1 ≠ n ∧ e.1.2 ≠ n) (edges g)).

(** group an association list by key, keys in order of first appearance *)
Fixpoint group_by_key {A} (l : list (oid * A)) : list (oid * list A) :=
  match l with
  | [] => []
  | (k, a) :: l' =>
      let rest := group_by_key l' in
      (k, a :: concat (map snd (filter (fun p => fst p = k) rest)))
        :: filter (fun p => fst p ≠ k) rest
  end.

(** [graph.pred[n]] and [graph.succ[n]] as [items()] yields them, with
    the [wire] of each parallel edge *)
Definition pred (g : MultiDiGraph) (n : oid) : list (oid * list wire) :=
  group_by_key (map (fun e => (e.1.1, e.2)) (filter (fun e => e.1.2 = n) (edges g))).
Definition succ (g : MultiDiGraph) (n : oid) : list (oid * list wire) :=
  group_by_key (map (fun e => (e.1.2, e.2)) (filter (fun e => e.1.1 = n) (edges g))).

(** [list(graph.edges)]: by source in node order, then by target, then
    by key *)
Definition edge_list (g : MultiDiGraph) : list (oid * oid * wire) :=
  concat (map (fun u =>
    concat (map (fun '(v, ws) => map (fun w => (u, v, w)) ws) (succ g u)))
    (node_list g)).

(** ** tape_to_graph *)

Definition enumerate {A} (l : list A) : list (nat * A) := zip (seq 0 (length l)) l.

Definition Qnat (k : nat) : Q := inject_Z (Z.of_nat k).

(** the edges from the latest node on each wire of a measurement;
    [wire_latest_node[wire]] is [None] on a wire no operation touched,
    and networkx refuses [None] as a node *)
Definition add_parent_edges (wire_latest_node : gmap wire oid) (m : oid)
    (ws : list wire) (graph : MultiDiGraph) : result MultiDiGraph :=
  foldR (fun graph wire =>
           match wire_latest_node !! wire with
           | Some parent_op => Ok (add_edge parent_op m wire graph)
           | None => Raise (ValueError "None cannot be a node")
           end) ws graph.

(** the body of [for wire in op.wires]: an edge from the latest node on
    the wire, if there is one; [op] becomes the latest node *)
Definition link_operation (op : oid) (st : MultiDiGraph * gmap wire oid) (wire : Z)
    : MultiDiGraph * gmap Z oid :=
  let '(graph, wire_latest_node) := st in
  let graph := match wire_latest_node !! wire with
               | Some parent_op => add_edge parent_op op wire graph
               | None => graph
               end in
  (graph, <[wire := op]> wire_latest_node).

(** the body of [for order, op in enumerate(tape.operations)]; the last
    component is the loop variable [order], unbound before the first
    iteration *)
Definition add_operation (h : heap) (st : MultiDiGraph * gmap wire oid * option nat)
    (x : nat * oid) : MultiDiGraph * gmap wire oid * option nat :=
  let '(graph, wire_latest_node, _) := st in
  let '(order, op) := x in
  let graph := add_node op (Qnat order) graph in
  let '(graph, wire_latest_node) :=
    fold_left (link_operation op) (wires h op) (graph, wire_latest_node) in
  (graph, wire_latest_node, Some order).

(** the body of [for m in tape.measurements]: a tensor-product
    observable gives one new measurement per factor *)
Definition add_measurement (wire_latest_node : gmap wire oid)
    (st : MultiDiGraph * nat) (m : oid) : M (MultiDiGraph * nat) :=
  let '(graph, order) := st in
  let* h := get_heap in
  match h !! m with
  | Some (MeasurementProcess rt (Some (Tensor obs)) _) =>
      foldH (fun '(graph, order) o =>
        let* m_ := alloc (MeasurementProcess rt (Some (Single o)) []) in
        let graph := add_node m_ (Qnat order) graph in
        let order := (order + 1)%nat in
        let* graph := lift (add_parent_edges wire_latest_node m_ (obs_wires o) graph) in
        ret (graph, order)) obs (graph, order)
  | _ =>
      let graph := add_node m (Qnat order) graph in
      let order := (order + 1)%nat in
      let* graph := lift (add_parent_edges wire_latest_node m (wires h m) graph) in
      ret (graph, order)
  end.

Definition tape_to_graph (tape : QuantumTape) : M MultiDiGraph :=
  let* h := get_heap in
  let graph := empty_graph in
  (* every wire of the tape starts at None: a missing key is None here *)
  let wire_latest_node : gmap wire oid := ∅ in
  let '(graph, wire_latest_node, order) :=
    fold_left (add_operation h) (enumerate (operations tape))
              (graph, wire_latest_node, None) in
  (* [order] is bound by the loop, and only when it runs *)
  match order with
  | None => raise (UnboundLocalError "order")
  | Some order =>
    let order := (order + 1)%nat in
    let* r := foldH (add_measurement wire_latest_node) (measurements tape)
                    (graph, order) in
    ret (fst r)
  end.

(** ** Wire-cut expansion *)

(** [WireCut.expand_cut]: a tape with a measure and a prepare node for
    each wire of the cut *)
Definition expand_cut (node : oid) : M QuantumTape :=
  let* h := get_heap in
  let '(meas_cls, prep_cls) :=
    match class_of h node with
    | Some (WireCut (Some (mt, pt))) => (MeasureNode mt, PrepareNode pt)
    | _ => (SimpleMeasureNode, SimplePrepareNode)
    end in
  let* ops := foldH (fun ops wire =>
      let* m := alloc (Operator meas_cls [wire]) in
      let* p := alloc (Operator prep_cls [wire]) in
      ret (ops ++ [m; p])) (wires h node) [] in
  ret (Tape ops []).

(** [tape.graph._grid]: for each wire of the tape, by its index, the
    operators on that wire *)
Definition _grid (h : heap) (t : QuantumTape) : list (list oid) :=
  map (fun w => filter (fun op => w ∈ wires h op) (operations t)) (tape_wires h t).

(** [wires.index(w)] *)
Fixpoint index (w : wire) (ws : list wire) : option nat :=
  match ws with
  | [] => None
  | w' :: ws' => if bool_decide (w' = w) then Some 0%nat else S <$> index w ws'
  end.

(** the dictionaries [predecessor_on_wire] and [successor_on_wire] *)
Definition on_wire (adj : list (oid * list wire)) : gmap wire oid :=
  fold_left (fun d '(op, data) =>
    fold_left (fun d wire => <[wire := op]> d) data d) adj ∅.

(** [graph.nodes[n]["order"]] *)
Definition order_of (g : MultiDiGraph) (n : oid) : option Q :=
  (fun r => snd (snd r)) <$> list_find (fun p => fst p = n) (nodes g).

Definition remove_wire_cut_node (node : oid) (graph : MultiDiGraph) : M MultiDiGraph :=
  let predecessors := pred graph node in
  let successors := succ graph node in
  let* node_wires := (let* h := get_heap in ret (wires h node)) in
  let* expanded_node := expand_cut node in
  let* h := get_heap in
  let ops_on_wire := _grid h expanded_node in
  let predecessor_on_wire := on_wire predecessors in
  let successor_on_wire := on_wire successors in
  match order_of graph node with
  | None => raise KeyError
  | Some order =>
    let graph := remove_node node graph in
    let* r := foldH (fun '(graph, added_nodes) wire =>
      let predecessor := predecessor_on_wire !! wire in
      let successor := successor_on_wire !! wire in
      match index wire (tape_wires h expanded_node) ≫= (fun i => ops_on_wire !! i) with
      | Some [meas; prep] =>
          let '(graph, added_nodes) :=
            if bool_decide (meas ∈ added_nodes) then (graph, added_nodes)
            else (add_node meas order graph, meas :: added_nodes) in
          let '(graph, added_nodes) :=
            if bool_decide (prep ∈ added_nodes) then (graph, added_nodes)
            else (add_node prep (order + (1 # 2))%Q graph, prep :: added_nodes) in
          let graph := add_edge meas prep wire graph in
          let graph := match predecessor with
                       | Some p => add_edge p meas wire graph
                       | None => graph
                       end in
          let graph := match successor with
                       | Some s => add_edge prep s wire graph
                       | None => graph
                       end in
          ret (graph, added_nodes)
      | Some _ => raise (ValueError "unpack")
      | None => raise IndexError
      end) node_wires (graph, ([] : list oid)) in
    ret (fst r)
  end.

Definition remove_wire_cut_nodes (graph : MultiDiGraph) : M MultiDiGraph :=
  foldH (fun graph op =>
    let* h := get_heap in
    if is_WireCut h op then remove_wire_cut_node op graph else ret graph)
    (node_list graph) graph.

(** ** Fragmenter *)

(** [graph.remove_edge(u, v)] without a key removes the edge from [u] to
    [v] that was added last, and fails when there is none *)
Fixpoint remove_last_edge (u v : oid) (es : list (oid * oid * wire))
    : option (list (oid * oid * wire)) :=
  match es with
  | [] => None
  | e :: es' =>
      match remove_last_edge u v es' with
      | Some r => Some (e :: r)
      | None => if bool_decide (e.1.1 = u ∧ e.1.2 = v) then Some es' else None
      end
  end.

Definition remove_edge (u v : oid) (g : MultiDiGraph) : result MultiDiGraph :=
  match remove_last_edge u v (edges g) with
  | Some es => Ok (Graph (nodes g) es)
  | None => Raise NetworkXError
  end.

(** networkx's [_plain_bfs] over successors and predecessors, one level
    per round; [seen] grows by at least one node in every round but the
    last *)
Definition neighbours (g : MultiDiGraph) (v : oid) : list oid :=
  map fst (succ g v) ++ map fst (pred g v).

Definition bfs_level (g : MultiDiGraph) (seen thislevel : list oid)
    : list oid * list oid :=
  fold_left (fun '(seen, nextlevel) v =>
    if bool_decide (v ∈ seen) then (seen, nextlevel)
    else (seen ++ [v], nextlevel ++ neighbours g v)) thislevel (seen, []).

Fixpoint _plain_bfs (fuel : nat) (g : MultiDiGraph) (seen nextlevel : list oid)
    : list oid :=
  match fuel, nextlevel with
  | O, _ | _, [] => seen
  | Datatypes.S fuel', _ =>
      let '(seen, nextlevel) := bfs_level g seen nextlevel in
      _plain_bfs fuel' g seen nextlevel
  end.

Definition weakly_connected_components (g : MultiDiGraph) : list (list oid) :=
  snd (fold_left (fun '(seen, comps) v =>
    if bool_decide (v ∈ seen) then (seen, comps)
    else let c := _plain_bfs (length (nodes g) + 2) g [] [v] in
         (seen ++ c, comps ++ [c])) (node_list g) ([], [])).

(** [graph.subgraph(n)]: the nodes of [n] and the edges between them *)
Definition subgraph (g : MultiDiGraph) (n : list oid) : MultiDiGraph :=
  Graph (filter (fun p => fst p ∈ n) (nodes g))
        (filter (fun e => e.1.1 ∈ n ∧ e.1.2 ∈ n) (edges g)).

Record CommunicationGraph := CommGraph {
  comm_nodes : list nat;
  comm_edges : list (nat * nat * (oid * oid))
}.

(** the body of the first loop: an edge that leaves a measure node must
    enter a prepare node; it is recorded and one edge between the two
    nodes is removed *)
Definition remove_cut_edge (h : heap) (st : MultiDiGraph * list (oid * oid))
    (e : oid * oid * wire) : result (MultiDiGraph * list (oid * oid)) :=
  let '(graph, cut_edges) := st in
  let '(node1, node2, _) := e in
  if is_MeasureNode h node1 then
    if is_PrepareNode h node2 then
      let? graph := remove_edge node1 node2 graph in
      Ok (graph, cut_edges ++ [(node1, node2)])
    else Raise AssertionError
  else Ok (graph, cut_edges).

(** the body of the second loop.  [start_fragment] and [end_fragment]
    are locals of the function: they are unbound until a fragment is
    found and keep their value after *)
Definition add_communication_edge (subgraphs : list MultiDiGraph)
    (st : CommunicationGraph * option nat * option nat) (cut : oid * oid)
    : result (CommunicationGraph * option nat * option nat) :=
  let '(communication_graph, start_fragment, end_fragment) := st in
  let '(node1, node2) := cut in
  let '(start_fragment, end_fragment) :=
    fold_left (fun '(start_fragment, end_fragment) '(i, subgraph) =>
      let start_fragment :=
        if has_node subgraph node1 then Some i else start_fragment in
      let end_fragment :=
        if has_node subgraph node2 then Some i else end_fragment in
      (start_fragment, end_fragment))
      (enumerate subgraphs) (start_fragment, end_fragment) in
  match start_fragment, end_fragment with
  | Some s, Some e =>
      Ok (CommGraph (comm_nodes communication_graph)
            (comm_edges communication_graph ++ [(s, e, (node1, node2))]),
          start_fragment, end_fragment)
  | None, _ => Raise (UnboundLocalError "start_fragment")
  | _, None => Raise (UnboundLocalError "end_fragment")
  end.

Definition fragment_graph (h : heap) (graph : MultiDiGraph)
    : result (list MultiDiGraph * CommunicationGraph) :=
  let edges := edge_list graph in
  let? r := foldR (remove_cut_edge h) edges (graph, []) in
  let '(graph, cut_edges) := r in
  let subgraph_nodes := weakly_connected_components graph in
  let subgraphs := map (subgraph graph) subgraph_nodes in
  let communication_graph := CommGraph (seq 0 (length subgraphs)) [] in
  let? r := foldR (add_communication_edge subgraphs) cut_edges
                  (communication_graph, None, None) in
  Ok (subgraphs, r.1.1).

(** two nodes joined by a path of edges, taken in either direction *)
Inductive connected (g : MultiDiGraph) : oid -> oid -> Prop :=
  | connected_refl u : connected g u u
  | connected_step u v x w :
      connected g u v ->
      (v, x, w) ∈ edges g \/ (x, v, w) ∈ edges g ->
      connected g u x.

(** the graph without its cut edges, the edges that leave a measure node *)
Definition without_cut_edges (h : heap) (g : MultiDiGraph) : MultiDiGraph :=
  Graph (nodes g) (filter (fun e => is_MeasureNode h e.1.1 = false) (edges g)).

(** the two ends of every edge are nodes of the graph, as they are in
    networkx *)
Definition edges_closed (g : MultiDiGraph) : Prop :=
  forall e, e ∈ edges g -> e.1.1 ∈ node_list g /\ e.1.2 ∈ node_list g.

(** the number of edges from [u] to [v] *)
Definition parallel_edges (u v : oid) (es : list (oid * oid * wire)) : nat :=
  length (filter (fun e => e.1.1 = u /\ e.1.2 = v) es).

(** ** Graph-to-tape lowering *)

(** [_find_new_wire]: the counter stops within [len(wires) + 1] steps *)
Fixpoint find_new_wire_from (fuel : nat) (ctr : Z) (ws : list wire) : Z :=
  match fuel with
  | O => ctr
  | Datatypes.S fuel' =>
      if bool_decide (ctr ∈ ws) then find_new_wire_from fuel' (ctr + 1) ws else ctr
  end.
Definition _find_new_wire (ws : list wire) : Z :=
  find_new_wire_from (Datatypes.S (length ws)) 0 ws.

Definition Qlt_bool (x y : Q) : bool := negb (Qle_bool y x).

(** [sorted(..., key=lambda x: x[0])]: stable, so equal keys keep their
    order *)
Fixpoint insert_by_order (x : Q * oid) (l : list (Q * oid)) : list (Q * oid) :=
  match l with
  | [] => [x]
  | y :: l' => if Qlt_bool (fst x) (fst y) then x :: y :: l'
               else y :: insert_by_order x l'
  end.
Definition sorted_by_order (l : list (Q * oid)) : list (Q * oid) :=
  fold_left (fun acc x => insert_by_order x acc) l [].

(** [op._wires = Wires(new_wires)] *)
Definition set__wires (ws : list wire) (o : object) : object :=
  match o with
  | Operator c _ => Operator c ws
  | MeasurementProcess rt e _ => MeasurementProcess rt e ws
  end.
Definition assign__wires (op : oid) (ws : list wire) : M unit :=
  fun h => match h !! op with
           | Some o => Ok (tt, <[op := set__wires ws o]> h)
           | None => Ok (tt, h)
           end.

Definition is_measurement (h : heap) (n : oid) : bool :=
  match h !! n with Some (MeasurementProcess _ _ _) => true | _ => false end.

(** the body of the loop of [graph_to_tape]: rewire [op] in place, queue
    it, and after a measure node send the measured wire to a new one *)
Definition lower_node (st : QuantumTape * list wire * gmap wire wire) (x : Q * oid)
    : M (QuantumTape * list wire * gmap wire wire) :=
  let '(tape, wires_, wire_map) := st in
  let op := snd x in
  let* h := get_heap in
  let* new_wires := lift (mapR (fun w => match wire_map !! w with
                                         | Some w' => Ok w'
                                         | None => Raise KeyError
                                         end) (wires h op)) in
  let* _ := assign__wires op new_wires in
  let* h := get_heap in
  (* apply(op) queues the object in the recording tape *)
  let tape := if is_measurement h op
              then Tape (operations tape) (measurements tape ++ [op])
              else Tape (operations tape ++ [op]) (measurements tape) in
  if is_MeasureNode h op then
    match wires h op with
    | measured_wire :: _ =>
        let new_wire := _find_new_wire wires_ in
        let wires_ := all_wires [wires_; [new_wire]] in
        ret (tape, wires_, <[measured_wire := new_wire]> wire_map)
    | [] => raise IndexError
    end
  else ret (tape, wires_, wire_map).

Definition graph_to_tape (graph : MultiDiGraph) : M QuantumTape :=
  let* h := get_heap in
  let wires0 := all_wires (map (wires h) (node_list graph)) in
  let ordered_ops := sorted_by_order (map (fun '(op, order) => (order, op)) (nodes graph)) in
  let wire_map : gmap wire wire := list_to_map (map (fun w => (w, w)) wires0) in
  let* r := foldH lower_node ordered_ops (Tape [] [], wires0, wire_map) in
  ret (r.1.1).

(** what the pipeline can observe of an object: the class and wires of
    an operator; the return type, observable and wires of a measurement,
    whose [_wires] attribute is hidden behind its observable *)
Definition visible (o : object) : object :=
  match o with
  | MeasurementProcess rt (Some e) _ => MeasurementProcess rt (Some e) []
  | _ => o
  end.

(** a list of [(order, node)] pairs in which no pair comes before one of
    smaller order *)
Inductive nondecreasing : list (Q * oid) -> Prop :=
  | nondecreasing_nil : nondecreasing []
  | nondecreasing_cons x l :
      Forall (fun y => Qlt_bool (fst y) (fst x) = false) l ->
      nondecreasing l -> nondecreasing (x :: l).

(** ** Configuration expander *)

(** a recorded configuration tape, by value *)
Record ConfigTape := CTape {
  cfg_operations : list (opclass * list wire);
  cfg_measurements : list (return_type * obs_expr)
}.

(** [itertools.product] of a list of lists: the last list varies fastest *)
Fixpoint product {A} (ls : list (list A)) : list (list A) :=
  match ls with
  | [] => [[]]
  | l :: ls' => x ← l; (fun r => x :: r) <$> product ls'
  end.

(** [itertools.product(xs, ys)] *)
Definition product2 {A B} (xs : list A) (ys : list B) : list (A * B) :=
  x ← xs; (fun y => (x, y)) <$> ys.

Definition prepare_terms (h : heap) (n : oid) : list prepare_term :=
  match class_of h n with Some (PrepareNode ts) => ts | _ => [] end.
Definition measure_terms (h : heap) (n : oid) : list measure_term :=
  match class_of h n with Some (MeasureNode ts) => ts | _ => [] end.

(** [dict[node]] on a dictionary built from [zip(nodes, settings)]: the
    last entry of a key is the one the dictionary holds *)
Fixpoint mapping_get {A} (d : list (oid * A)) (n : oid) : result A :=
  match d with
  | [] => Raise KeyError
  | (k, a) :: d' =>
      match mapping_get d' n with
      | Ok a' => Ok a'
      | Raise _ => if bool_decide (k = n) then Ok a else Raise KeyError
      end
  end.

(** [t.wires.tolist()[0]] paired with the observable *)
Definition first_wire (t : observable) : result (wire * observable) :=
  match obs_wires t with
  | w :: _ => Ok (w, t)
  | [] => Raise IndexError
  end.

Fixpoint insert_by_wire (x : wire * observable) (l : list (wire * observable))
    : list (wire * observable) :=
  match l with
  | [] => [x]
  | y :: l' => if (fst x <? fst y)%Z then x :: y :: l' else y :: insert_by_wire x l'
  end.

(** [sorted] on [(wire, observable)] tuples.  Tuples compare by wire
    first; two entries on the same wire fall through to comparing the
    observables, which are unordered objects, and any comparison sort has
    to compare two such entries. *)
Definition sorted_by_wire (l : list (wire * observable))
    : result (list (wire * observable)) :=
  if bool_decide (NoDup (map fst l))
  then Ok (fold_left (fun acc x => insert_by_wire x acc) l [])
  else Raise TypeError.

Definition is_pauli_tensor_factor (t : observable) : bool :=
  bool_decide (obs_cls t ∈ [Identity; PauliX; PauliY; PauliY]).
Definition is_pauli (t : observable) : bool :=
  bool_decide (obs_cls t ∈ [Identity; PauliX; PauliY; PauliZ]).

(** the observable measured for user measurement [m] next to the cut
    observables [op_tensor] *)
Definition full_tensor (h : heap) (op_tensor : list observable) (m : oid)
    : result obs_expr :=
  match h !! m with
  | Some (MeasurementProcess rt m_obs _) =>
      if bool_decide (rt = Expectation) then
        match m_obs with
        | Some (Tensor terms) =>
            if forallb is_pauli_tensor_factor terms then
              let? op_tensor_wires := mapR first_wire op_tensor in
              let? m_obs_wires := mapR first_wire terms in
              let? all_wires := sorted_by_wire (op_tensor_wires ++ m_obs_wires) in
              Ok (Tensor (map snd all_wires))
            else Raise (ValueError "Only tensor products of Paulis for now")
        | Some (Single m_obs) =>
            if is_pauli m_obs then
              let? op_tensor_wires := mapR first_wire op_tensor in
              let? m_obs_wires := mapR first_wire [m_obs] in
              let? all_wires := sorted_by_wire (op_tensor_wires ++ m_obs_wires) in
              Ok (Tensor (map snd all_wires))
            else Raise (ValueError "Only tensor products of Paulis for now")
        | None => Raise (ValueError "Only tensor products of Paulis for now")
        end
      else Raise (ValueError "Only expectation values supported for now")
  | _ => Raise TypeError
  end.

(** [for op in tape.operations]: a prepare node queues the gates of its
    setting, a measure node is kept for the observable, anything else is
    applied as it is *)
Definition record_operation (h : heap) (prepare_mapping : list (oid * prepare_term))
    (st : list (opclass * list wire) * list oid) (op : oid)
    : result (list (opclass * list wire) * list oid) :=
  let '(ops, meas) := st in
  if is_PrepareNode h op then
    let w := wires h op in
    let? s := mapping_get prepare_mapping op in
    Ok (ops ++ map (fun g => (Gate g, w)) s, meas)
  else if is_MeasureNode h op then Ok (ops, meas ++ [op])
  else match h !! op with
       | Some (Operator c ws) => Ok (ops ++ [(c, ws)], meas)
       | _ => Raise TypeError
       end.

(** [measure_mapping[op](op.wires)] *)
Definition cut_observable (h : heap) (measure_mapping : list (oid * measure_term))
    (op : oid) : result observable :=
  let? s := mapping_get measure_mapping op in
  Ok (Obs s (wires h op)).

(** the body of the loop over configurations: the tape recorded for one
    choice of prepare and measure settings *)
Definition configuration_tape (h : heap) (tape : QuantumTape)
    (prepare_nodes measure_nodes : list oid)
    (prepare_settings : list prepare_term) (measure_settings : list measure_term)
    : result ConfigTape :=
  let prepare_mapping := zip prepare_nodes prepare_settings in
  let measure_mapping := zip measure_nodes measure_settings in
  let? r := foldR (record_operation h prepare_mapping) (operations tape) ([], []) in
  let '(ops, meas) := r in
  let? op_tensor := mapR (cut_observable h measure_mapping) meas in
  if bool_decide (0 < length (measurements tape))%nat then
    let? ms := mapR (fun m =>
        let? t := full_tensor h op_tensor m in Ok (Expectation, t))
        (measurements tape) in
    Ok (CTape ops ms)
  else if bool_decide (0 < length op_tensor)%nat then
    Ok (CTape ops [(Expectation, Tensor op_tensor)])
  else
    match tape_wires h tape with
    | w0 :: _ => Ok (CTape ops [(Expectation, Single (Obs Identity [w0]))])
    | [] => Raise IndexError
    end.

Definition expand_fragment_tapes (h : heap) (tape : QuantumTape)
    : result (list ConfigTape * list oid * list oid) :=
  let prepare_nodes := filter (fun o => is_PrepareNode h o) (operations tape) in
  let measure_nodes := filter (fun o => is_MeasureNode h o) (operations tape) in
  let prepare_nodes_terms := map (prepare_terms h) prepare_nodes in
  let measure_nodes_terms := map (measure_terms h) measure_nodes in
  let prepare_combinations := product prepare_nodes_terms in
  let measure_combinations := product measure_nodes_terms in
  let? tapes := mapR (fun '(prepare_settings, measure_settings) =>
      configuration_tape h tape prepare_nodes measure_nodes
                         prepare_settings measure_settings)
      (product2 prepare_combinations measure_combinations) in
  Ok (tapes, prepare_nodes, measure_nodes).

(** *** Fragment tapes that the expander accepts *)

Definition is_operator (h : heap) (n : oid) : bool :=
  match h !! n with Some (Operator _ _) => true | _ => false end.

(** the factors of a user measurement that passes the checks of the
    expander: an expectation value of [I], [X], [Y] or [Z], or of a
    tensor product of [I], [X] and [Y] *)
Definition admitted_factors (h : heap) (m : oid) : option (list observable) :=
  match h !! m with
  | Some (MeasurementProcess Expectation (Some (Tensor terms)) _) =>
      if forallb is_pauli_tensor_factor terms then Some terms else None
  | Some (MeasurementProcess Expectation (Some (Single o)) _) =>
      if is_pauli o then Some [o] else None
  | _ => None
  end.

(** and whose observable can be merged with the cut observables: every
    factor has a wire and no two first wires are the same *)
Definition measurement_ok (h : heap) (cut_wires : list (list wire)) (m : oid) : bool :=
  match admitted_factors h m with
  | Some terms =>
      let ws := cut_wires ++ map obs_wires terms in
      forallb (fun w => bool_decide (w ≠ [])) ws && bool_decide (NoDup (map (hd 0) ws))
  | None => false
  end.

Definition fragment_tape_ok (h : heap) (tape : QuantumTape) : bool :=
  let measure_nodes := filter (fun o => is_MeasureNode h o) (operations tape) in
  forallb (is_operator h) (operations tape)
  && forallb (measurement_ok h (map (wires h) measure_nodes)) (measurements tape)
  && bool_decide (measurements tape ≠ [] ∨ measure_nodes ≠ [] ∨ tape_wires h tape ≠ []).

(** ** Tensors

    Simulator results are arrays of scalars.  The post-processing only
    adds and multiplies them, multiplies them by the integer entries of
    the change-of-basis matrix and by [np.power(2, -n / 2)]; it is
    stated over any scalar type with these operations. *)

Class Scalar (R : Type) := {
  s_zero : R;
  s_one : R;
  s_add : R -> R -> R;
  s_mul : R -> R -> R;
  s_of_Z : Z -> R;
  (** [np.power(2, -n / 2)] *)
  s_pow2_neg_half : nat -> R
}.

Record ndarray (R : Type) := NDArray { shape : list nat; data : list R }.
Arguments NDArray {R} shape data.
Arguments shape {R} _.
Arguments data {R} _.

Definition size_of (sh : list nat) : nat := foldr Nat.mul 1%nat sh.

(** row-major offset of a multi-index *)
Definition flat_index (sh idx : list nat) : nat :=
  fold_left (fun acc '(d, i) => (acc * d + i)%nat) (zip sh idx) 0%nat.

Definition CHANGE_OF_BASIS_MAT : list (list Z) :=
  [[1; 1; 0; 0]; [-1; -1; 2; 0]; [-1; -1; 0; 2]; [1; -1; 0; 0]].

Section tensors.
Context {R : Type} `{Scalar R}.

Definition s_sum (l : list R) : R := foldr s_add s_zero l.
Definition s_prod (l : list R) : R := foldr s_mul s_one l.

Definition entry (t : ndarray R) (idx : list nat) : R :=
  nth (flat_index (shape t) idx) (data t) s_zero.

(** [math.stack] of one-dimensional arrays *)
Definition stack (rs : list (list R)) : result (ndarray R) :=
  match rs with
  | [] => Raise (ValueError "need at least one array to stack")
  | r :: _ =>
      if forallb (fun r' => bool_decide (length r' = length r)) rs
      then Ok (NDArray [length rs; length r] (concat rs))
      else Raise (ValueError "all input arrays must have the same shape")
  end.

Definition reshape (target_shape : list nat) (t : ndarray R) : result (ndarray R) :=
  if bool_decide (size_of target_shape = length (data t))
  then Ok (NDArray target_shape (data t))
  else Raise (ValueError "cannot reshape array").

Definition scale (c : R) (t : ndarray R) : ndarray R :=
  NDArray (shape t) (map (fun x => s_mul x c) (data t)).

(** [math.tensordot(mat, t, axes=[1, i])] for a matrix [mat]: the
    axis of the result that comes from [mat] is its first axis, the
    remaining axes of [t] follow in their order *)
Definition tensordot_mat (mat : list (list Z)) (t : ndarray R) (i : nat)
    : result (ndarray R) :=
  match shape t !! i with
  | None => Raise IndexError
  | Some d =>
      if forallb (fun row => bool_decide (length row = d)) mat then
        let pre := size_of (take i (shape t)) in
        let post := size_of (drop (Datatypes.S i) (shape t)) in
        Ok (NDArray (length mat :: take i (shape t) ++ drop (Datatypes.S i) (shape t))
              (row ← mat; p ← seq 0 pre; q ← seq 0 post;
               [s_sum (imap (fun a c =>
                  s_mul (s_of_Z c) (nth ((p * d + a) * post + q) (data t) s_zero))
                  row)]))
      else Raise (ValueError "shape-mismatch for sum")
  end.

(** *** Tensor assembler *)

Definition _get_tensors (results : list (list R)) (shapes : list nat)
    (prepare_nodes measure_nodes : list (list oid)) : result (list (ndarray R)) :=
  let? r := foldR (fun '(ctr, tensors) '(s, (p, m)) =>
      let n_prep := length p in
      let n_meas := length m in
      let target_shape := replicate (n_prep + n_meas) 4%nat in
      let? stacked := stack (take s (drop ctr results)) in
      let? fragment_results := reshape target_shape stacked in
      let fragment_results :=
        scale (s_pow2_neg_half (n_meas + n_prep)) fragment_results in
      let ctr := (ctr + s)%nat in
      let? fragment_results := foldR (fun fragment_results i =>
          tensordot_mat CHANGE_OF_BASIS_MAT fragment_results i)
          (seq 0 n_prep) fragment_results in
      Ok (ctr, tensors ++ [fragment_results]))
      (zip shapes (zip prepare_nodes measure_nodes)) (0%nat, []) in
  Ok (snd r).

(** *** Contractor *)

(** [oe.get_symbol]: the code point of the symbol *)
Definition get_symbol (i : nat) : nat :=
  if bool_decide (i < 26)%nat then (97 + i)%nat
  else if bool_decide (i < 52)%nat then (65 + (i - 26))%nat
  else (i + 140)%nat.

Definition comm_pred (g : CommunicationGraph) (n : nat) : list (nat * list (oid * oid)) :=
  group_by_key (map (fun e => (e.1.1, e.2)) (filter (fun e => e.1.2 = n) (comm_edges g))).
Definition comm_succ (g : CommunicationGraph) (n : nat) : list (nat * list (oid * oid)) :=
  group_by_key (map (fun e => (e.1.2, e.2)) (filter (fun e => e.1.1 = n) (comm_edges g))).

Fixpoint insert_nat (x : nat) (l : list nat) : list nat :=
  match l with
  | [] => [x]
  | y :: l' => if (x <? y)%nat then x :: y :: l' else y :: insert_nat x l'
  end.

(** the dimension of every symbol of the equation, in order of first
    appearance; an operand whose rank is not the length of its term,
    or two axes of different length under one symbol, is an error *)
Definition symbol_dims (eqn : list (list nat)) (tensors : list (ndarray R))
    : result (list (nat * nat)) :=
  if bool_decide (length eqn = length tensors) then
    foldR (fun dims '(term, t) =>
      if bool_decide (length term = length (shape t)) then
        foldR (fun dims '(sym, d) =>
          match list_find (fun p => fst p = sym) dims with
          | Some (_, (_, d')) =>
              if bool_decide (d = d') then Ok dims
              else Raise (ValueError "dimension mismatch")
          | None => Ok (dims ++ [(sym, d)])
          end) (zip term (shape t)) dims
      else Raise (ValueError "operand does not match the subscripts"))
      (zip eqn tensors) []
  else Raise (ValueError "number of operands does not match the equation").

Definition lookup_symbol (asg : list (nat * nat)) (sym : nat) : nat :=
  match list_find (fun p => fst p = sym) asg with
  | Some (_, (_, i)) => i
  | None => 0%nat
  end.

(** [oe.contract(eqn, *tensors)] for an equation without [->]: the
    symbols that occur once are the axes of the output, in sorted
    order; every other symbol is summed over *)
Definition oe_contract (eqn : list (list nat)) (tensors : list (ndarray R))
    : result (ndarray R) :=
  let? dims := symbol_dims eqn tensors in
  let occurrences sym := length (filter (fun s => s = sym) (concat eqn)) in
  let out_syms := fold_left (fun acc x => insert_nat x acc)
      (filter (fun sym => occurrences sym = 1%nat) (map fst dims)) [] in
  let sum_syms := filter (fun sym => occurrences sym ≠ 1%nat) (map fst dims) in
  let dim sym := lookup_symbol dims sym in
  let assignments (syms : list nat) : list (list (nat * nat)) :=
    product (map (fun sym => map (fun i => (sym, i)) (seq 0 (dim sym))) syms) in
  Ok (NDArray (map dim out_syms)
        (out ← assignments out_syms;
         [s_sum (map (fun inner =>
            s_prod (map (fun '(term, t) =>
              entry t (map (lookup_symbol (out ++ inner)) term))
              (zip eqn tensors)))
            (assignments sum_syms))])).

(** the index strings that [_contract_tensors] builds, one per node
    of the communication graph, before they are joined with commas *)
Definition tensor_indxs_of (communication_graph : CommunicationGraph)
    (prepare_nodes measure_nodes : list (list oid)) : result (list (list nat)) :=
  let ctr := 0%nat in
  let tensor_indxs : list (list nat) :=
    replicate (length (comm_nodes communication_graph)) [] in
  let meas_map : gmap oid nat := ∅ in
  let '(ctr, tensor_indxs, meas_map) :=
    fold_left (fun st '(i, (node, prep)) =>
      let predecessors := comm_pred communication_graph node in
      fold_left (fun st '(pred_node, pred_edges) =>
        fold_left (fun st '(meas_op, prep_op) =>
          fold_left (fun '(ctr, tensor_indxs, meas_map) p =>
            if bool_decide (p = prep_op) then
              let symb := get_symbol ctr in
              (Datatypes.S ctr,
               alter (fun s => s ++ [symb]) i tensor_indxs,
               <[meas_op := symb]> meas_map)
            else (ctr, tensor_indxs, meas_map)) prep st)
          pred_edges st)
        predecessors st)
      (enumerate (zip (comm_nodes communication_graph) prepare_nodes))
      (ctr, tensor_indxs, meas_map) in
  foldR (fun tensor_indxs '(i, (node, meas)) =>
    let successors := comm_succ communication_graph node in
    foldR (fun tensor_indxs '(succ_node, succ_edges) =>
      foldR (fun tensor_indxs '(meas_op, prep_op) =>
        foldR (fun tensor_indxs m =>
          if bool_decide (m = meas_op) then
            match meas_map !! meas_op with
            | Some symb => Ok (alter (fun s => s ++ [symb]) i tensor_indxs)
            | None => Raise KeyError
            end
          else Ok tensor_indxs) meas tensor_indxs)
        succ_edges tensor_indxs)
      successors tensor_indxs)
    (enumerate (zip (comm_nodes communication_graph) measure_nodes))
    tensor_indxs.

Definition _contract_tensors (tensors : list (ndarray R))
    (communication_graph : CommunicationGraph)
    (prepare_nodes measure_nodes : list (list oid)) : result (ndarray R) :=
  let? eqn := tensor_indxs_of communication_graph prepare_nodes measure_nodes in
  oe_contract eqn tensors.

Definition contract (results : list (list R)) (shapes : list nat)
    (communication_graph : CommunicationGraph)
    (prepare_nodes measure_nodes : list (list oid)) : result (ndarray R) :=
  match results with
  | [] => Raise IndexError
  | r0 :: _ =>
      if bool_decide (1 < length r0)%nat
      then Raise (ValueError "Only supporting returning a single expectation for now")
      else
        let? tensors := _get_tensors results shapes prepare_nodes measure_nodes in
        _contract_tensors tensors communication_graph prepare_nodes measure_nodes
  end.

(** ** The transform

    [find_and_place_cuts] has no body in this module, so a [method]
    changes nothing. *)
Definition find_and_place_cuts (graph : MultiDiGraph) (method : string)
    : M MultiDiGraph := ret graph.

Definition cut_circuit (tape : QuantumTape) (method : option string)
    : M (list ConfigTape * (list (list R) -> result (ndarray R))) :=
  let* g := tape_to_graph tape in
  let* g := remove_wire_cut_nodes g in
  let* g := match method with
            | Some method => find_and_place_cuts g method
            | None => ret g
            end in
  let* h := get_heap in
  let* r := lift (fragment_graph h g) in
  let '(fragments, communication_graph) := r in
  let* fragment_tapes := mapH graph_to_tape fragments in
  let* h := get_heap in
  let* expanded := lift (mapR (expand_fragment_tapes h) fragment_tapes) in
  let configurations := map (fun e => e.1.1) expanded in
  let prepare_nodes := map (fun e => e.1.2) expanded in
  let measure_nodes := map (fun e => e.2) expanded in
  let shapes := map length configurations in
  let tapes := concat configurations in
  ret (tapes, fun results =>
         contract results shapes communication_graph prepare_nodes measure_nodes).

End tensors.

(** ** An exact scalar field for running the post-processing

    [a + b√2] with rational [a] and [b] holds every value that
    [np.power(2, -n / 2)] takes. *)

Definition QSqrt2 : Type := Qc * Qc.

Definition qs_add (x y : QSqrt2) : QSqrt2 := (x.1 + y.1, x.2 + y.2)%Qc.
Definition qs_mul (x y : QSqrt2) : QSqrt2 :=
  (x.1 * y.1 + Q2Qc 2 * (x.2 * y.2), x.1 * y.2 + x.2 * y.1)%Qc.
Definition qs_pow2_neg_half (n : nat) : QSqrt2 :=
  if Nat.even n then ((/ (Q2Qc 2 ^ (n / 2)))%Qc, Q2Qc 0)
  else (Q2Qc 0, (/ (Q2Qc 2 ^ ((n + 1) / 2)))%Qc).

#[global] Instance QSqrt2_scalar : Scalar QSqrt2 := {
  s_zero := (Q2Qc 0, Q2Qc 0);
  s_one := (Q2Qc 1, Q2Qc 0);
  s_add := qs_add;
  s_mul := qs_mul;
  s_of_Z z := (Q2Qc (inject_Z z), Q2Qc 0);
  s_pow2_neg_half := qs_pow2_neg_half
}.

(** the two rational coordinates, in lowest terms *)
Definition qs_repr (x : QSqrt2) : Q * Q := (this x.1, this x.2).
Definition qs_of_Z (z : Z) : QSqrt2 := (Q2Qc (inject_Z z), Q2Qc 0).

(** what the post-processing of a single scalar uses of the arithmetic:
    multiplying by one, adding zero, and [np.power(2, -0 / 2) = 1] *)
Class ScalarLaws (R : Type) `{Scalar R} := {
  s_mul_one : forall x : R, s_mul x s_one = x;
  s_add_zero : forall x : R, s_add x s_zero = x;
  s_pow2_neg_half_0 : s_pow2_neg_half 0 = s_one
}.

#[global] Instance QSqrt2_laws : ScalarLaws QSqrt2.
Proof.
  split.
  - intros [a b]. unfold s_mul, s_one; simpl. unfold qs_mul; simpl.
    f_equal; ring.
  - intros [a b]. unfold s_add, s_zero; simpl. unfold qs_add; simpl.
    f_equal; ring.
  - unfold s_pow2_neg_half, s_one; simpl. unfold qs_pow2_neg_half; simpl.
    f_equal; try (apply Qc_is_canon; reflexivity).
Qed.

(** ** The assembler as section 4.6 of the specification words it

    "Apply the change-of-basis matrix along each of the first [n_p]
    axes": the transformed axis stays where it is, so that axis [k]
    keeps indexing the [k]-th prepare node. *)

Section assembler_spec.
Context {R : Type} `{Scalar R}.

Definition change_basis_along (mat : list (list Z)) (t : ndarray R) (i : nat)
    : result (ndarray R) :=
  match shape t !! i with
  | None => Raise IndexError
  | Some d =>
      let pre := size_of (take i (shape t)) in
      let post := size_of (drop (Datatypes.S i) (shape t)) in
      Ok (NDArray (take i (shape t) ++ length mat :: drop (Datatypes.S i) (shape t))
            (p ← seq 0 pre; row ← mat; q ← seq 0 post;
             [s_sum (imap (fun a c =>
                s_mul (s_of_Z c) (nth ((p * d + a) * post + q) (data t) s_zero))
                row)]))
  end.

Definition fragment_tensor_spec (fragment_results : list (list R))
    (n_prep n_meas : nat) : result (ndarray R) :=
  let? stacked := stack fragment_results in
  let? t := reshape (replicate (n_prep + n_meas) 4%nat) stacked in
  let t := scale (s_pow2_neg_half (n_meas + n_prep)) t in
  foldR (fun t i => change_basis_along CHANGE_OF_BASIS_MAT t i) (seq 0 n_prep) t.
End assembler_spec.

(** ** Concrete circuits and inputs used below *)

Definition run {A} (m : M A) : result (A * heap) := m [].

Definition expval_of (o : observable) : return_type * option obs_expr * list wire :=
  (Expectation, Some (Single o), []).

(** [H(0); X(1); expval(Z(0))]: no cut, two independent wires *)
Definition two_wire_tape : M QuantumTape :=
  record_tape [(Gate Hadamard, [0]); (Gate PauliX, [1])] [expval_of (Obs PauliZ [0])].

(** [CNOT(0,1); WireCut(0); CNOT(0,1); expval(Z(1))]: the cut does not
    disconnect the circuit *)
Definition cnot_cut_cnot_tape : M QuantumTape :=
  record_tape [(Gate CNOT, [0; 1]); (WireCut None, [0]); (Gate CNOT, [0; 1])]
              [expval_of (Obs PauliZ [1])].

(** the graph of a tape after cut expansion *)
Definition cut_graph (tape : M QuantumTape) : M MultiDiGraph :=
  let* tape := tape in
  let* g := tape_to_graph tape in
  remove_wire_cut_nodes g.

(** a fragment tape [H(0)] measuring [Z(0) @ X(1)] *)
Definition zx_heap : heap :=
  [Operator (Gate Hadamard) [0];
   MeasurementProcess Expectation (Some (Tensor [Obs PauliZ [0]; Obs PauliX [1]])) []].
Definition zx_tape : QuantumTape := Tape [0%nat] [1%nat].

(** the same measuring [Y(0) @ X(1)], and measuring [Z(0)] alone *)
Definition yx_heap : heap :=
  [Operator (Gate Hadamard) [0];
   MeasurementProcess Expectation (Some (Tensor [Obs PauliY [0]; Obs PauliX [1]])) []].
Definition z_heap : heap :=
  [Operator (Gate Hadamard) [0];
   MeasurementProcess Expectation (Some (Single (Obs PauliZ [0]))) []].

(** a fragment tape [H(0); CNOT(0,1)] with two user measurements *)
Definition two_meas_heap : heap :=
  [Operator (Gate Hadamard) [0]; Operator (Gate CNOT) [0; 1];
   MeasurementProcess Expectation (Some (Single (Obs PauliZ [0]))) [];
   MeasurementProcess Expectation (Some (Single (Obs PauliZ [1]))) []].
Definition two_meas_tape : QuantumTape := Tape [0%nat; 1%nat] [2%nat; 3%nat].

(** a fragment tape [PrepareNode(0); CNOT(0,1); MeasureNode(0)] with the
    user measurement [expval(Z(1))] *)
Definition cut_fragment_heap : heap :=
  [Operator SimplePrepareNode [0]; Operator (Gate CNOT) [0; 1];
   Operator SimpleMeasureNode [0];
   MeasurementProcess Expectation (Some (Single (Obs PauliZ [1]))) []].

(** results for two fragments, the second one with two configurations
    (a prepare node with two terms) that each return two values *)
Definition long_results : list (list QSqrt2) :=
  map (fun z => [qs_of_Z z]) [1; 0; 0; 1] ++ [[qs_of_Z 1; qs_of_Z 0]; [qs_of_Z 0; qs_of_Z 1]].
Definition one_cut_graph : CommunicationGraph :=
  CommGraph [0%nat; 1%nat] [(0%nat, 1%nat, (0%nat, 1%nat))].

(** [cnot_cut_cnot_tape] after cut expansion and fragmentation *)
Definition cnot_cut_fragments
    : result (list MultiDiGraph * CommunicationGraph * heap) :=
  run (let* g := cut_graph cnot_cut_cnot_tape in
       let* h := get_heap in
       lift (fragment_graph h g)).

(** the graph of [H(0); expval(Z(0))] over [z_heap] *)
Definition z_graph : MultiDiGraph :=
  Graph [(0%nat, Qnat 0); (1%nat, Qnat 1)] [(0%nat, 1%nat, 0)].

(** the graph of [cnot_cut_cnot_tape] after cut expansion, and the heap
    it lives in *)
Definition cnot_cut_graph : MultiDiGraph :=
  Eval vm_compute in
    match run (cut_graph cnot_cut_cnot_tape) with
    | Ok (g, _) => g
    | Raise _ => empty_graph
    end.
Definition cnot_cut_heap : list object :=
  Eval vm_compute in
    match run (cut_graph cnot_cut_cnot_tape) with
    | Ok (_, h) => h
    | Raise _ => []
    end.

(** its only fragment and its communication graph *)
Definition cnot_cut_fragment : MultiDiGraph :=
  Eval vm_compute in
    match fragment_graph cnot_cut_heap cnot_cut_graph with
    | Ok (f :: _, _) => f
    | _ => empty_graph
    end.
Definition cnot_cut_communication : CommunicationGraph :=
  Eval vm_compute in
    match fragment_graph cnot_cut_heap cnot_cut_graph with
    | Ok (_, c) => c
    | _ => CommGraph [] []
    end.

(** three cuts into fragment 2: objects 7, 9 and 11 are the measure
    nodes, 8, 10 and 12 their prepare nodes; the first and the third cut
    come from fragment 0, the second from fragment 1 *)
Definition three_cut_communication : CommunicationGraph :=
  CommGraph [0%nat; 1%nat; 2%nat]
    [(0%nat, 2%nat, (7%nat, 8%nat)); (1%nat, 2%nat, (9%nat, 10%nat));
     (0%nat, 2%nat, (11%nat, 12%nat))].

(** the circuit that gives this communication graph *)
Definition three_cut_tape : M QuantumTape :=
  record_tape [(Gate (Named "A"), [0; 2]); (Gate (Named "B"), [1]);
               (WireCut None, [0]); (WireCut None, [1]); (WireCut None, [2]);
               (Gate (Named "T"), [0; 1; 2])]
              [expval_of (Obs PauliZ [0])].

(** [H(0); CNOT(0,1); expval(Z(0))] as recorded on an empty heap *)
Definition bell_heap : list object :=
  [Operator (Gate Hadamard) [0]; Operator (Gate CNOT) [0; 1];
   MeasurementProcess Expectation (Some (Single (Obs PauliZ [0]))) []].
Definition bell_tape : QuantumTape := Tape [0%nat; 1%nat] [2%nat].
Definition bell_graph : MultiDiGraph :=
  Eval vm_compute in
    match tape_to_graph bell_tape bell_heap with
    | Ok (g, _) => g
    | Raise _ => empty_graph
    end.

Definition qz (z : Z) : Q * Q := (inject_Z z, inject_Z 0).
Definition scalar_results (l : list Z) : list (list QSqrt2) :=
  map (fun z => [qs_of_Z z]) l.
Definition one_hot (n k : nat) : list Z :=
  map (fun i => if bool_decide (i = k) then 1 else 0) (seq 0 n).


(** ** Predicates used to state what the stages keep *)

(** the objects that [expand_cut] makes: a measure or a prepare node on
    one wire *)
Definition cut_node_object (o : object) : Prop :=
  match o with
  | Operator (MeasureNode _) [_] | Operator (PrepareNode _) [_] => True
  | _ => False
  end.

(** ** More concrete inputs *)

(** [cnot_cut_cnot_tape] as recorded on an empty heap, and its graph
    before the cut is expanded *)
Definition cnot_cut_cnot_heap : list object :=
  [Operator (Gate CNOT) [0; 1]; Operator (WireCut None) [0]; Operator (Gate CNOT) [0; 1];
   MeasurementProcess Expectation (Some (Single (Obs PauliZ [1]))) []].
Definition cnot_cut_cnot_graph : MultiDiGraph :=
  Eval vm_compute in
    match tape_to_graph (Tape [0%nat; 1%nat; 2%nat] [3%nat]) cnot_cut_cnot_heap with
    | Ok (g, _) => g
    | Raise _ => empty_graph
    end.

(** the graph of [three_cut_tape] after cut expansion, and the heap it
    lives in *)
Definition three_cut_graph : MultiDiGraph :=
  Eval vm_compute in
    match run (cut_graph three_cut_tape) with
    | Ok (g, _) => g
    | Raise _ => empty_graph
    end.
Definition three_cut_heap : list object :=
  Eval vm_compute in
    match run (cut_graph three_cut_tape) with
    | Ok (_, h) => h
    | Raise _ => []
    end.

(** a measure node on wire 0 followed by a gate on the same wire, with
    no prepare node between them *)
Definition measure_gate_heap : list object :=
  [Operator SimpleMeasureNode [0]; Operator (Gate PauliX) [0]].
Definition measure_gate_graph : MultiDiGraph :=
  Graph [(0%nat, Qnat 0); (1%nat, Qnat 1)] [(0%nat, 1%nat, 0)].

(** ** What [tape_to_graph] makes of the measurements *)

(** the measurements that the loop over [tape.measurements] makes for
    [m]: one for each factor of a tensor-product observable *)
Definition factor_measurements (h : heap) (m : oid) : list object :=
  match h !! m with
  | Some (MeasurementProcess rt (Some (Tensor obs)) _) =>
      map (fun o => MeasurementProcess rt (Some (Single o)) []) obs
  | _ => []
  end.

Definition is_tensor_measurement (h : heap) (m : oid) : bool :=
  match h !! m with
  | Some (MeasurementProcess _ (Some (Tensor _)) _) => true
  | _ => false
  end.

(** the nodes that stand for the measurements [ms]: a measurement is its
    own node unless its observable is a tensor product, which gives the
    new measurements, allocated from address [next] on *)
Fixpoint measurement_nodes (h : heap) (next : nat) (ms : list oid) : list oid :=
  match ms with
  | [] => []
  | m :: ms' =>
      if is_tensor_measurement h m
      then seq next (length (factor_measurements h m))
           ++ measurement_nodes h (next + length (factor_measurements h m)) ms'
      else m :: measurement_nodes h next ms'
  end.

(** nodes with the orders [k], [k + 1], ... *)
Definition numbered (k : nat) (l : list oid) : list (oid * Q) :=
  zip l (map Qnat (seq k (length l))).

(** [H(0); X(1); expval(Z(0) @ X(1))] *)
Definition tensor_heap : list object :=
  [Operator (Gate Hadamard) [0]; Operator (Gate PauliX) [1];
   MeasurementProcess Expectation (Some (Tensor [Obs PauliZ [0]; Obs PauliX [1]])) []].
Definition tensor_tape : QuantumTape := Tape [0%nat; 1%nat] [2%nat].

(** a prepare node without terms, before a measurement that is no
    expectation value *)
Definition no_terms_heap : list object :=
  [Operator (PrepareNode []) [0]; MeasurementProcess Sample None [0]].
Definition no_terms_tape : QuantumTape := Tape [0%nat] [1%nat].

(** [H(0)] measuring [var(Z(0))] *)
Definition variance_heap : list object :=
  [Operator (Gate Hadamard) [0];
   MeasurementProcess Variance (Some (Single (Obs PauliZ [0]))) []].

(** ** The order of the merged observable *)

(** a list of [(wire, observable)] pairs whose wires increase *)
Inductive increasing_wires : list (wire * observable) -> Prop :=
  | increasing_wires_nil : increasing_wires []
  | increasing_wires_cons x l :
      Forall (fun y => fst x < fst y) l ->
      increasing_wires l -> increasing_wires (x :: l).

(** ** The edges of the graph of a tape *)

(** [u] is the latest of the operations [ops] that acts on wire [w] *)
Definition latest_on (h : heap) (ops : list oid) (w : wire) (u : oid) : Prop :=
  exists i, ops !! i = Some u /\ w ∈ wires h u
    /\ forall k x, (i < k)%nat -> ops !! k = Some x -> w ∉ wires h x.

(** ** What [remove_wire_cut_node] puts in place of a cut *)

(** the measure and the prepare node that [expand_cut] makes for each
    wire of the cut, with their addresses, which start at [base] *)
Fixpoint cut_nodes (base : nat) (ws : list wire) : list (wire * oid * oid) :=
  match ws with
  | [] => []
  | w :: ws' => (w, base, Datatypes.S base) :: cut_nodes (Datatypes.S (Datatypes.S base)) ws'
  end.

(** the classes of the two nodes: those of the custom expansion when the
    cut has one *)
Definition cut_classes (h : heap) (node : oid) : opclass * opclass :=
  match class_of h node with
  | Some (WireCut (Some (mt, pt))) => (MeasureNode mt, PrepareNode pt)
  | _ => (SimpleMeasureNode, SimplePrepareNode)
  end.

(** ** Graphs that the cut expansion and the fragmenter accept

    The nodes are distinct objects of the heap, every edge joins two
    different nodes, an edge that leaves a measure node enters a prepare
    node, and a cut acts on distinct wires. *)
Record cut_ready (h : heap) (g : MultiDiGraph) : Prop := {
  ready_nodup : NoDup (node_list g);
  ready_objects : forall n, n ∈ node_list g -> (n < length h)%nat;
  ready_closed : edges_closed g;
  ready_no_loop : forall e, e ∈ edges g -> e.1.1 ≠ e.1.2;
  ready_cut_edges :
    forall e, e ∈ edges g -> is_MeasureNode h e.1.1 = true -> is_PrepareNode h e.1.2 = true;
  ready_cut_wires :
    forall n, n ∈ node_list g -> is_WireCut h n = true -> NoDup (wires h n)
}.

(** [three_cut_tape] as recorded on an empty heap *)
Definition three_cut_recorded : QuantumTape :=
  Eval vm_compute in
    match run three_cut_tape with
    | Ok (t, _) => t
    | Raise _ => Tape [] []
    end.
Definition three_cut_tape_heap : list object :=
  Eval vm_compute in
    match run three_cut_tape with
    | Ok (_, h) => h
    | Raise _ => []
    end.

(** ** Cuts and the symbols of the contraction

    [_contract_tensors] gives a symbol to the measure node of a cut when
    it meets the prepare node of the cut in the prepare nodes of the
    fragment that the cut enters, and asks for the symbol of a measure
    node when it meets it in the measure nodes of the fragment that the
    cut leaves. *)
Definition gets_symbol (communication_graph : CommunicationGraph)
    (prepare_nodes : list (list oid)) (m : oid) : Prop :=
  exists i s e prep p,
    (i, (e, prep)) ∈ enumerate (zip (comm_nodes communication_graph) prepare_nodes)
    /\ (s, e, (m, p)) ∈ comm_edges communication_graph
    /\ p ∈ prep.

Definition needs_symbol (communication_graph : CommunicationGraph)
    (measure_nodes : list (list oid)) (m : oid) : Prop :=
  exists i s e meas p,
    (i, (s, meas)) ∈ enumerate (zip (comm_nodes communication_graph) measure_nodes)
    /\ (s, e, (m, p)) ∈ comm_edges communication_graph
    /\ m ∈ meas.
(** ** Tape-to-graph lifting *)

(** C10: with no operation on the tape the loop never binds [order], and
    [order += 1] fails, whatever the measurements are. *)
Theorem tape_to_graph_without_operations (ms : list oid) (h : heap) :
  tape_to_graph (Tape [] ms) h = Raise (UnboundLocalError "order").
Proof. reflexivity. Qed.

(** ** Configuration expander: concrete runs *)

(** C3: a tensor-product observable with a [PauliZ] factor is refused,
    although [PauliZ] alone and a product of [PauliY] and [PauliX] are
    accepted: the tensor branch tests [PauliY] twice. *)
Theorem expand_fragment_tapes_refuses_PauliZ_factor :
  expand_fragment_tapes zx_heap zx_tape
    = Raise (ValueError "Only tensor products of Paulis for now")
  /\ is_ok (expand_fragment_tapes yx_heap zx_tape) = true
  /\ is_ok (expand_fragment_tapes z_heap zx_tape) = true.
Proof. repeat split; vm_compute; reflexivity. Qed.

(** C4, as stated, fails: a fragment tape with two user measurements is
    expanded without error. *)
Lemma expand_fragment_tapes_two_measurements :
  (2 <= length (measurements two_meas_tape))%nat
  /\ expand_fragment_tapes two_meas_heap two_meas_tape
     = Ok ([CTape [(Gate Hadamard, [0]); (Gate CNOT, [0; 1])]
                  [(Expectation, Tensor [Obs PauliZ [0]]);
                   (Expectation, Tensor [Obs PauliZ [1]])]], [], []).
Proof. split; [simpl; lia | vm_compute; reflexivity]. Qed.

(** ** Loops that may raise *)

Lemma forallb_Forall_true {A} (f : A -> bool) (l : list A) :
  forallb f l = true -> Forall (fun x => f x = true) l.
Proof.
  induction l as [|x l IH]; simpl; [constructor|].
  intros [Hx Hl]%andb_true_iff. constructor; auto.
Qed.

Lemma mapR_Forall2 {A B} (f : A -> result B) (l : list A) :
  Forall (fun x => is_ok (f x) = true) l ->
  exists ys, mapR f l = Ok ys /\ Forall2 (fun x y => f x = Ok y) l ys.
Proof.
  induction 1 as [|x l Hx _ IH]; simpl.
  - exists []. split; [reflexivity | constructor].
  - destruct IH as (ys & -> & Hys).
    destruct (f x) as [y|e] eqn:Hfx; [|discriminate].
    exists (y :: ys). split; [reflexivity|]. by constructor.
Qed.

Lemma mapR_Ok_Forall2 {A B} (f : A -> result B) (l : list A) (ys : list B) :
  mapR f l = Ok ys -> Forall2 (fun x y => f x = Ok y) l ys.
Proof.
  revert ys. induction l as [|x l IH]; simpl; intros ys Hys.
  - injection Hys as <-. constructor.
  - destruct (f x) as [y|e] eqn:Hfx; simpl in Hys; [|discriminate].
    destruct (mapR f l) as [ys'|e]; simpl in Hys; [|discriminate].
    injection Hys as <-. constructor; auto.
Qed.

Lemma mapR_ext_in {A B} (f g : A -> result B) (l : list A) :
  Forall (fun x => f x = g x) l -> mapR f l = mapR g l.
Proof.
  induction 1 as [|x l Hx _ IH]; simpl; [reflexivity|]. by rewrite Hx, IH.
Qed.

(** ** itertools.product *)

Lemma product_length {A} (ls : list (list A)) :
  length (product ls) = size_of (map length ls).
Proof.
  induction ls as [|l ls IH]; simpl; [reflexivity|].
  rewrite <- IH. clear IH.
  induction l as [|x l IHl]; simpl; [reflexivity|].
  rewrite length_app, length_fmap. unfold mbind in IHl. by rewrite IHl.
Qed.

Lemma product_elem {A} (ls : list (list A)) (r : list A) :
  r ∈ product ls -> Forall2 (fun l x => x ∈ l) ls r.
Proof.
  revert r. induction ls as [|l ls IH]; simpl; intros r Hr.
  - apply list_elem_of_singleton in Hr as ->. constructor.
  - apply list_elem_of_bind in Hr as (x & Hr & Hx).
    apply list_elem_of_fmap in Hr as (r' & -> & Hr').
    constructor; auto.
Qed.




Lemma product2_elem {A B} (xs : list A) (ys : list B) x y :
  (x, y) ∈ product2 xs ys -> x ∈ xs /\ y ∈ ys.
Proof.
  unfold product2. intros H.
  apply list_elem_of_bind in H as (x' & H & Hx).
  apply list_elem_of_fmap in H as (y' & [= -> ->] & Hy). done.
Qed.

(** ** Configuration expander: every accepted fragment tape is expanded *)

Lemma mapping_get_zip {A} (ns : list oid) (ss : list A) (n : oid) :
  n ∈ ns -> (length ns <= length ss)%nat -> is_ok (mapping_get (zip ns ss) n) = true.
Proof.
  revert ss. induction ns as [|k ns IH]; intros ss Hn Hlen; [by inversion Hn|].
  destruct ss as [|s ss]; simpl in *; [lia|].
  destruct (decide (n ∈ ns)) as [Hin|Hnin].
  - specialize (IH ss Hin ltac:(lia)).
    destruct (mapping_get (zip ns ss) n); [done|discriminate].
  - apply elem_of_cons in Hn as [->|?]; [|done].
    destruct (mapping_get (zip ns ss) k); [done|].
    by rewrite bool_decide_eq_true_2.
Qed.

Lemma record_operations_loop (h : heap) (pm : list (oid * prepare_term))
    (ops : list oid) (acc : list (opclass * list wire)) (meas : list oid) :
  Forall (fun op => is_operator h op = true) ops ->
  Forall (fun op => is_PrepareNode h op = true -> is_ok (mapping_get pm op) = true) ops ->
  exists recorded,
    foldR (record_operation h pm) ops (acc, meas)
    = Ok (acc ++ recorded, meas ++ filter (fun o => is_MeasureNode h o) ops).
Proof.
  intros Hop. revert acc meas.
  induction Hop as [|op ops Hx _ IH]; intros acc meas Hpm; simpl.
  - exists []. by rewrite !app_nil_r.
  - inversion Hpm as [|? ? Hp Hpm']; subst. clear Hpm. rename Hpm' into Hpm.
    unfold is_operator in Hx.
    destruct (is_PrepareNode h op) eqn:HP.
    + specialize (Hp eq_refl).
      destruct (mapping_get pm op) as [s|] eqn:Hs; [|discriminate]. simpl.
      destruct (IH (acc ++ map (fun g => (Gate g, wires h op)) s) meas Hpm) as [r ->].
      exists (map (fun g => (Gate g, wires h op)) s ++ r).
      rewrite <- app_assoc. f_equal. f_equal.
      rewrite filter_cons_False; [done|].
      unfold is_PrepareNode, is_MeasureNode in *.
      destruct (class_of h op) as [[]|]; simpl; auto; discriminate.
    + destruct (is_MeasureNode h op) eqn:HM.
      * simpl. destruct (IH acc (meas ++ [op]) Hpm) as [r ->].
        exists r. rewrite <- app_assoc. f_equal. f_equal. f_equal.
        rewrite filter_cons_True by (rewrite HM; exact I). done.
      * destruct (h !! op) as [[c ws|]|] eqn:Hh; try discriminate.
        simpl. destruct (IH (acc ++ [(c, ws)]) meas Hpm) as [r ->].
        exists ((c, ws) :: r). rewrite <- app_assoc. f_equal. f_equal.
        rewrite filter_cons_False by (rewrite HM; exact id). done.
Qed.

Lemma cut_observables_ok (h : heap) (mm : list (oid * measure_term)) (meas : list oid) :
  Forall (fun op => is_ok (mapping_get mm op) = true) meas ->
  exists op_tensor,
    mapR (cut_observable h mm) meas = Ok op_tensor
    /\ map obs_wires op_tensor = map (wires h) meas.
Proof.
  induction 1 as [|op meas Hx _ IH]; simpl.
  - by exists [].
  - destruct IH as (ot & -> & Hot). unfold cut_observable at 1.
    destruct (mapping_get mm op) as [s|]; [|discriminate]. simpl.
    eexists. split; [reflexivity|]. simpl. by rewrite Hot.
Qed.

Lemma first_wires_ok (ts : list observable) :
  forallb (fun w => bool_decide (w ≠ [])) (map obs_wires ts) = true ->
  mapR first_wire ts = Ok (map (fun t => (hd 0 (obs_wires t), t)) ts).
Proof.
  induction ts as [|t ts IH]; simpl; [done|].
  intros [Ht Hts]%andb_true_iff. rewrite (IH Hts). unfold first_wire.
  destruct (obs_wires t); [by apply bool_decide_eq_true in Ht|done].
Qed.

Lemma full_tensor_ok (h : heap) (op_tensor : list observable) (m : oid) :
  measurement_ok h (map obs_wires op_tensor) m = true ->
  is_ok (full_tensor h op_tensor m) = true.
Proof.
  unfold measurement_ok, admitted_factors, full_tensor.
  destruct (h !! m) as [[|rt [[o|terms]|] ws]|]; try discriminate;
    destruct rt; try discriminate; simpl.
  - destruct (is_pauli o); [|discriminate].
    intros [Hne Hnd]%andb_true_iff.
    rewrite forallb_app in Hne. apply andb_true_iff in Hne as [Hne1 Hne2].
    rewrite (first_wires_ok op_tensor Hne1). simpl.
    pose proof (first_wires_ok [o] Hne2) as Ho. simpl in Ho.
    destruct (first_wire o) as [wo|]; [|discriminate]. injection Ho as ->. simpl.
    unfold sorted_by_wire. rewrite map_app, !map_map in *. simpl in *.
    apply bool_decide_eq_true in Hnd. by rewrite bool_decide_eq_true_2.
  - destruct (forallb is_pauli_tensor_factor terms); [|discriminate].
    intros [Hne Hnd]%andb_true_iff.
    rewrite forallb_app in Hne. apply andb_true_iff in Hne as [Hne1 Hne2].
    rewrite (first_wires_ok op_tensor Hne1). simpl.
    rewrite (first_wires_ok terms Hne2). simpl.
    unfold sorted_by_wire. rewrite map_app, !map_map in *. simpl in *.
    apply bool_decide_eq_true in Hnd. by rewrite bool_decide_eq_true_2.
Qed.

Lemma configuration_tape_ok (h : heap) (tape : QuantumTape)
    (ps : list prepare_term) (ms : list measure_term) :
  fragment_tape_ok h tape = true ->
  length ps = length (filter (fun o => is_PrepareNode h o) (operations tape)) ->
  length ms = length (filter (fun o => is_MeasureNode h o) (operations tape)) ->
  exists t,
    configuration_tape h tape
      (filter (fun o => is_PrepareNode h o) (operations tape))
      (filter (fun o => is_MeasureNode h o) (operations tape)) ps ms = Ok t
    /\ (measurements tape ≠ [] ->
        length (cfg_measurements t) = length (measurements tape)).
Proof.
  unfold fragment_tape_ok. intros [[Hops Hms]%andb_true_iff Hw]%andb_true_iff Hps Hmm.
  apply bool_decide_eq_true in Hw.
  set (P := filter (fun o => is_PrepareNode h o) (operations tape)) in *.
  set (Mn := filter (fun o => is_MeasureNode h o) (operations tape)) in *.
  unfold configuration_tape.
  destruct (record_operations_loop h (zip P ps) (operations tape) [] []) as [rec Hrec].
  { by apply forallb_Forall_true. }
  { apply Forall_forall. intros op Hop HP. apply mapping_get_zip; [|lia].
    apply list_elem_of_filter. split; [rewrite HP; exact I|done]. }
  rewrite Hrec. simpl. fold Mn.
  destruct (cut_observables_ok h (zip Mn ms) Mn) as (ot & Hot & Hotw).
  { apply Forall_forall. intros op Hop. by apply mapping_get_zip; [|lia]. }
  rewrite Hot. simpl.
  case_bool_decide as Hlen.
  - destruct (mapR_Forall2 (fun m => let? t := full_tensor h ot m in Ok (Expectation, t))
                (measurements tape)) as (cms & -> & Hcms).
    { apply forallb_Forall_true in Hms. eapply Forall_impl; [exact Hms|].
      intros m Hm. simpl in Hm. rewrite <- Hotw in Hm. apply full_tensor_ok in Hm.
      by destruct (full_tensor h ot m). }
    simpl. eexists. split; [reflexivity|]. intros _. simpl.
    symmetry. by eapply Forall2_length.
  - assert (measurements tape = []) as Hnil by (destruct (measurements tape); simpl in *; [done|lia]).
    case_bool_decide as Hot0.
    + eexists. split; [reflexivity|]. by rewrite Hnil.
    + assert (Mn = []) as HMn.
      { apply (f_equal length) in Hotw. rewrite !length_map in Hotw.
        destruct Mn; simpl in *; [done|lia]. }
      destruct Hw as [?|[?|Hw]]; try done.
      destruct (tape_wires h tape); [done|].
      eexists. split; [reflexivity|]. by rewrite Hnil.
Qed.

(** ** Row-major order *)






(** ** Configuration expander: count and order (C5) and several user
    measurements (C4) *)

Lemma expand_fragment_tapes_configurations (h : heap) (tape : QuantumTape) :
  fragment_tape_ok h tape = true ->
  exists tapes,
    expand_fragment_tapes h tape
    = Ok (tapes, filter (fun o => is_PrepareNode h o) (operations tape),
                 filter (fun o => is_MeasureNode h o) (operations tape))
    /\ Forall2 (fun '(ps, ms) t =>
          configuration_tape h tape
            (filter (fun o => is_PrepareNode h o) (operations tape))
            (filter (fun o => is_MeasureNode h o) (operations tape)) ps ms = Ok t
          /\ (measurements tape ≠ [] ->
              length (cfg_measurements t) = length (measurements tape)))
        (product2
           (product (map (prepare_terms h)
              (filter (fun o => is_PrepareNode h o) (operations tape))))
           (product (map (measure_terms h)
              (filter (fun o => is_MeasureNode h o) (operations tape)))))
        tapes.
Proof.
  intros Hok. unfold expand_fragment_tapes.
  set (P := filter (fun o => is_PrepareNode h o) (operations tape)).
  set (Mn := filter (fun o => is_MeasureNode h o) (operations tape)).
  set (cfgs := product2 _ _).
  assert (Forall (fun c => exists t, configuration_tape h tape P Mn c.1 c.2 = Ok t
            /\ (measurements tape ≠ [] ->
                length (cfg_measurements t) = length (measurements tape))) cfgs) as Hall.
  { apply Forall_forall. intros [ps ms] Hc.
    apply product2_elem in Hc as [Hps%product_elem Hms%product_elem].
    apply Forall2_length in Hps, Hms. rewrite length_map in Hps, Hms.
    by apply configuration_tape_ok. }
  clearbody cfgs. induction Hall as [|[ps ms] cfgs (t & Ht & Hlen) _ (tapes & IH & IH2)].
  - exists []. split; [done|constructor].
  - simpl in *. rewrite Ht. simpl.
    destruct (mapR _ cfgs) as [ts|]; [|discriminate]. simpl in *.
    injection IH as ->. exists (t :: tapes). split; [done|]. by constructor.
Qed.



(** C4, amended: two or more user measurements are no error for the
    expander.  When each of them is an admitted expectation value the
    tape is expanded, and every configuration tape records one
    expectation per user measurement. *)
Theorem expand_fragment_tapes_several_measurements (h : heap) (tape : QuantumTape) :
  fragment_tape_ok h tape = true ->
  (2 <= length (measurements tape))%nat ->
  exists tapes,
    expand_fragment_tapes h tape
    = Ok (tapes, filter (fun o => is_PrepareNode h o) (operations tape),
                 filter (fun o => is_MeasureNode h o) (operations tape))
    /\ Forall (fun t => length (cfg_measurements t) = length (measurements tape)) tapes.
Proof.
  intros Hok Hlen.
  destruct (expand_fragment_tapes_configurations h tape Hok) as (tapes & Hex & Hall).
  exists tapes. split; [done|].
  assert (measurements tape ≠ []) as Hne by (destruct (measurements tape); simpl in *; [lia|done]).
  clear Hex. induction Hall as [|[ps ms] t cfgs ts [_ Ht] _ IH]; constructor; auto.
Qed.

Lemma expand_fragment_tapes_several_measurements_witness :
  fragment_tape_ok two_meas_heap two_meas_tape = true
  /\ (2 <= length (measurements two_meas_tape))%nat
  /\ exists tapes,
       expand_fragment_tapes two_meas_heap two_meas_tape = Ok (tapes, [], [])
       /\ Forall (fun t => length (cfg_measurements t) = 2%nat) tapes.
Proof.
  split; [reflexivity|]. split; [simpl; lia|].
  exact (expand_fragment_tapes_several_measurements two_meas_heap two_meas_tape
           eq_refl (le_n 2)).
Defined.

(** ** Tensor assembler: the lengths of the results (C8) *)

Lemma rbind_Ok {A B} (x : result A) (k : A -> result B) (b : B) :
  rbind x k = Ok b -> exists a, x = Ok a /\ k a = Ok b.
Proof. destruct x as [a|e]; simpl; [eauto|discriminate]. Qed.

Section result_lengths.
  Context {R : Type} `{Scalar R}.

Lemma length_concat_uniform (l : list (list R)) (n : nat) :
  Forall (fun r => length r = n) l -> length (concat l) = (length l * n)%nat.
Proof.
  induction 1 as [|r l Hr _ IH]; simpl; [done|]. rewrite length_app, IH, Hr. lia.
Qed.

Lemma stack_Ok (rs : list (list R)) (t : ndarray R) :
  stack rs = Ok t ->
  exists r, head rs = Some r
    /\ Forall (fun r' => length r' = length r) rs
    /\ length (data t) = (length rs * length r)%nat.
Proof.
  unfold stack. destruct rs as [|r rs]; [discriminate|].
  destruct (forallb _ (r :: rs)) eqn:Hall; [|discriminate].
  intros [= <-]. exists r. split; [reflexivity|].
  apply forallb_Forall_true in Hall.
  assert (Forall (fun r' => length r' = length r) (r :: rs)) as Hlen.
  { eapply Forall_impl; [exact Hall|]. intros r' Hr'. simpl in Hr'.
    by apply bool_decide_eq_true in Hr'. }
  split; [done|]. by apply (length_concat_uniform (r :: rs)).
Qed.

Lemma size_of_replicate_4 (n : nat) : size_of (replicate n 4%nat) = (4 ^ n)%nat.
Proof. induction n as [|n IH]; simpl; [done|]. rewrite IH. lia. Qed.

(** one fragment: its slice of the results can only be stacked and put
    in shape when every result in it has length one *)
Lemma fragment_slice_lengths (slice : list (list R)) (n : nat) (stacked t : ndarray R) :
  length slice = (4 ^ n)%nat ->
  stack slice = Ok stacked ->
  reshape (replicate n 4%nat) stacked = Ok t ->
  Forall (fun r => length r = 1%nat) slice.
Proof.
  intros Hslice (r & _ & Hall & Hdata)%stack_Ok Hre.
  unfold reshape in Hre. case_bool_decide as Hsize; [|discriminate].
  rewrite size_of_replicate_4, Hdata, Hslice in Hsize.
  assert (0 < 4 ^ n)%nat by (apply Nat.neq_0_lt_0, Nat.pow_nonzero; lia).
  assert (length r = 1%nat) as Hr by nia.
  eapply Forall_impl; [exact Hall|]. intros r' Hr'. simpl in Hr'. lia.
Qed.

Lemma get_tensors_loop_lengths (results : list (list R)) (shapes : list nat)
    (prepare_nodes measure_nodes : list (list oid)) (ctr : nat) acc out :
  Forall2 (fun s pm => s = (4 ^ (length pm.1 + length pm.2))%nat)
          shapes (zip prepare_nodes measure_nodes) ->
  (ctr + sum_list shapes <= length results)%nat ->
  foldR (fun '(ctr, tensors) '(s, (p, m)) =>
      let n_prep := length p in
      let n_meas := length m in
      let target_shape := replicate (n_prep + n_meas) 4%nat in
      let? stacked := stack (take s (drop ctr results)) in
      let? fragment_results := reshape target_shape stacked in
      let fragment_results :=
        scale (s_pow2_neg_half (n_meas + n_prep)) fragment_results in
      let ctr := (ctr + s)%nat in
      let? fragment_results := foldR (fun fragment_results i =>
          tensordot_mat CHANGE_OF_BASIS_MAT fragment_results i)
          (seq 0 n_prep) fragment_results in
      Ok (ctr, tensors ++ [fragment_results]))
    (zip shapes (zip prepare_nodes measure_nodes)) (ctr, acc) = Ok out ->
  Forall (fun r => length r = 1%nat) (take (sum_list shapes) (drop ctr results)).
Proof.
  intros Hshapes. revert ctr acc.
  remember (zip prepare_nodes measure_nodes) as pms eqn:Hpms. clear Hpms.
  induction Hshapes as [|s [p m] shapes pms Hs _ IH]; intros ctr acc Hlen Hfold.
  - simpl. constructor.
  - simpl in Hfold, Hs, Hlen.
    apply rbind_Ok in Hfold as ([ctr' acc'] & Hbody & Hrest).
    apply rbind_Ok in Hbody as (stacked & Hstack & Hbody).
    apply rbind_Ok in Hbody as (t & Hreshape & Hbody).
    apply rbind_Ok in Hbody as (t' & _ & [= <- <-]).
    apply IH in Hrest; [|lia].
    simpl sum_list.
    replace (take (s + sum_list shapes) (drop ctr results))
      with (take s (drop ctr results) ++ take (sum_list shapes) (drop (ctr + s) results)).
    + apply Forall_app. split; [|done].
      eapply fragment_slice_lengths; [|exact Hstack|exact Hreshape].
      rewrite length_take, length_drop. lia.
    + rewrite <- drop_drop, <- take_take_drop. done.
Qed.

Lemma get_tensors_result_lengths (results : list (list R)) (shapes : list nat)
    (prepare_nodes measure_nodes : list (list oid)) (tensors : list (ndarray R)) :
  Forall2 (fun s pm => s = (4 ^ (length pm.1 + length pm.2))%nat)
          shapes (zip prepare_nodes measure_nodes) ->
  length results = sum_list shapes ->
  _get_tensors results shapes prepare_nodes measure_nodes = Ok tensors ->
  Forall (fun r => length r = 1%nat) results.
Proof.
  intros Hshapes Hlen Hget. unfold _get_tensors in Hget.
  apply rbind_Ok in Hget as (out & Hfold & _).
  apply get_tensors_loop_lengths in Hfold; [|done|simpl; lia].
  rewrite drop_0, <- Hlen, firstn_all in Hfold. done.
Qed.

End result_lengths.

(** C8, as stated, fails: only the first result is tested, and a later
    fragment whose configurations return two values each can still be
    stacked and put in shape when it has fewer configurations than
    [4^n]. *)
Lemma contract_accepts_long_results :
  Exists (fun r => length r ≠ 1%nat) long_results
  /\ is_ok (contract long_results [4%nat; 2%nat] one_cut_graph
              [[]; [1%nat]] [[0%nat]; []]) = true.
Proof.
  split; [|vm_compute; reflexivity].
  unfold long_results. simpl. do 4 apply Exists_cons_tl.
  apply Exists_cons_hd. simpl. lia.
Qed.

(** C8, amended: [contract] itself raises only when the first result is
    longer than one.  When the results are exactly the [sum(shapes)]
    results of fragments with [shapes[i] = 4^(n_prep + n_meas)]
    configurations each, a result of any other length than one is still
    a hard error, raised by the guard or by stacking and reshaping, and
    the tensors are assembled for contraction only if every result has
    length one. *)
Theorem contract_result_lengths {R : Type} `{Scalar R}
    (results : list (list R)) (shapes : list nat)
    (communication_graph : CommunicationGraph)
    (prepare_nodes measure_nodes : list (list oid)) :
  Forall2 (fun s pm => s = (4 ^ (length pm.1 + length pm.2))%nat)
          shapes (zip prepare_nodes measure_nodes) ->
  length results = sum_list shapes ->
  (forall r0, head results = Some r0 -> (1 < length r0)%nat ->
     contract results shapes communication_graph prepare_nodes measure_nodes
     = Raise (ValueError "Only supporting returning a single expectation for now"))
  /\ (Exists (fun r => length r ≠ 1%nat) results ->
      exists e, contract results shapes communication_graph prepare_nodes measure_nodes
                = Raise e)
  /\ (forall tensors,
        _get_tensors results shapes prepare_nodes measure_nodes = Ok tensors ->
        Forall (fun r => length r = 1%nat) results).
Proof.
  intros Hshapes Hlen. split; [|split].
  - intros r0 Hhd Hr0. unfold contract. destruct results as [|r results']; [done|].
    injection Hhd as ->. by rewrite bool_decide_eq_true_2.
  - intros Hbad. unfold contract. destruct results as [|r0 results'] eqn:Hres.
    { by eexists. }
    case_bool_decide; [by eexists|]. rewrite <- Hres in *.
    destruct (_get_tensors results shapes prepare_nodes measure_nodes) as [ts|e] eqn:Hget.
    + apply get_tensors_result_lengths in Hget; [|done..].
      apply Exists_exists in Hbad as (r & Hr & Hne).
      rewrite Forall_forall in Hget. by specialize (Hget r Hr).
    + by eexists.
  - intros tensors. by apply get_tensors_result_lengths.
Qed.

Lemma contract_result_lengths_witness :
  let results : list (list QSqrt2) := [[qs_of_Z 1]; [qs_of_Z 2; qs_of_Z 3]] in
  Exists (fun r => length r ≠ 1%nat) results
  /\ exists e, contract results [1%nat; 1%nat] (CommGraph [0%nat; 1%nat] [])
                 [[]; []] [[]; []] = Raise e.
Proof.
  intros results. assert (Exists (fun r => length r ≠ 1%nat) results) as Hbad.
  { apply Exists_cons_tl, Exists_cons_hd. simpl. lia. }
  split; [exact Hbad|].
  refine (proj1 (proj2 (contract_result_lengths results [1%nat; 1%nat]
            (CommGraph [0%nat; 1%nat] []) [[]; []] [[]; []] _ _)) Hbad).
  - repeat constructor.
  - reflexivity.
Defined.

(** ** Fragments that keep a cut together *)

(** C7, as stated, fails: in [CNOT(0,1); WireCut(0); CNOT(0,1)] the two
    gates stay connected through wire 1, and the one fragment holds the
    measure node (object 4) and the prepare node (object 5) of the cut. *)
Lemma fragment_with_both_cut_nodes :
  match cnot_cut_fragments with
  | Ok ([fragment], communication_graph, h) =>
      comm_edges communication_graph = [(0%nat, 0%nat, (4%nat, 5%nat))]
      /\ is_MeasureNode h 4%nat = true /\ is_PrepareNode h 5%nat = true
      /\ has_node fragment 4%nat = true /\ has_node fragment 5%nat = true
  | _ => False
  end.
Proof. vm_compute. repeat split. Qed.

(** C9, as stated, fails: lowering that fragment rewrites the wires of
    the prepare node, which the communication graph shares, and of the
    second gate. *)
Lemma graph_to_tape_rewires_nodes :
  match cnot_cut_fragments with
  | Ok ([fragment], communication_graph, h) =>
      comm_edges communication_graph = [(0%nat, 0%nat, (4%nat, 5%nat))]
      /\ match graph_to_tape fragment h with
         | Ok (_, h') =>
             wires h 5%nat = [0] /\ wires h' 5%nat = [2]
             /\ wires h 2%nat = [0; 1] /\ wires h' 2%nat = [2; 1]
         | Raise _ => False
         end
  | _ => False
  end.
Proof. vm_compute. repeat split. Qed.

(** ** A new wire is new

    [_find_new_wire] counts at most [len(wires) + 1] labels before it
    finds one that is not in [wires]. *)

Lemma find_new_wire_from_used (fuel : nat) (ctr : Z) (ws : list wire) :
  find_new_wire_from fuel ctr ws ∈ ws ->
  forall i, (i < fuel)%nat -> ctr + Z.of_nat i ∈ ws.
Proof.
  revert ctr. induction fuel as [|fuel IH]; intros ctr Hr i Hi; [lia|].
  simpl in Hr. case_bool_decide as Hctr; [|done].
  destruct i as [|i]; [by rewrite Z.add_0_r|].
  replace (ctr + Z.of_nat (S i)) with (ctr + 1 + Z.of_nat i) by lia.
  apply IH; [done|lia].
Qed.

Lemma find_new_wire_fresh (ws : list wire) : _find_new_wire ws ∉ ws.
Proof.
  intros Hin. unfold _find_new_wire in Hin.
  pose proof (find_new_wire_from_used _ _ _ Hin) as Hused.
  assert (length (Z.of_nat <$> seq 0 (S (length ws))) <= length ws)%nat as Hlen.
  { apply submseteq_length, NoDup_submseteq.
    - apply (NoDup_fmap_2 _), NoDup_seq.
    - intros w (i & -> & Hi%elem_of_seq)%list_elem_of_fmap.
      rewrite <- (Z.add_0_l (Z.of_nat i)). apply Hused. lia. }
  rewrite length_fmap, length_seq in Hlen. lia.
Qed.

(** ** Graph-to-tape lowering *)

Lemma foldH_total {A B} (I : A -> heap -> Prop) (f : A -> B -> M A) (l : list B) :
  (forall a b h, b ∈ l -> I a h -> exists a' h', f a b h = Ok (a', h') /\ I a' h') ->
  forall a h, I a h -> exists a' h', foldH f l a h = Ok (a', h') /\ I a' h'.
Proof.
  induction l as [|b l IH]; intros Hstep a h HI; simpl.
  - by exists a, h.
  - destruct (Hstep a b h) as (a1 & h1 & Hf & HI1); [left|done|].
    unfold bind. rewrite Hf. apply IH; [|done].
    intros a2 b2 h2 Hb2. apply Hstep. by right.
Qed.

Lemma unique_elem (seen l : list wire) (w : wire) :
  w ∈ unique seen l <-> w ∈ l /\ w ∉ seen.
Proof.
  revert seen. induction l as [|x l IH]; intros seen; simpl.
  - split; [by intros ?%elem_of_nil | by intros [?%elem_of_nil _]].
  - case_bool_decide as Hx.
    + rewrite IH, elem_of_cons. split; [tauto|]. intros [[->|?] ?]; tauto.
    + rewrite !elem_of_cons, IH, elem_of_cons.
      destruct (decide (w = x)) as [->|]; tauto.
Qed.

Lemma elem_of_concat {A} (ls : list (list A)) (x : A) :
  x ∈ concat ls <-> exists l, l ∈ ls /\ x ∈ l.
Proof.
  rewrite list_elem_of_In, in_concat. split; intros (l & Hl & Hx); exists l.
  - by rewrite !list_elem_of_In.
  - by rewrite <- !list_elem_of_In.
Qed.

Lemma all_wires_elem (ls : list (list wire)) (w : wire) :
  w ∈ all_wires ls <-> exists l, l ∈ ls /\ w ∈ l.
Proof.
  unfold all_wires. rewrite unique_elem, elem_of_concat.
  split; [intros [(l & ? & ?) _]; eauto | intros (l & ? & ?); split; [eauto|]].
  by intros ?%elem_of_nil.
Qed.

Lemma identity_map_lookup (ws : list wire) (w : wire) :
  w ∈ ws -> (list_to_map (map (fun w => (w, w)) ws) : gmap wire wire) !! w = Some w.
Proof.
  induction ws as [|x ws IH]; [by intros ?%elem_of_nil|].
  simpl. destruct (decide (x = w)) as [->|Hne].
  - intros _. by rewrite lookup_insert_eq.
  - intros [?|?]%elem_of_cons; [congruence|]. rewrite lookup_insert_ne by done. auto.
Qed.

Lemma mapR_identity_map (wire_map : gmap wire wire) (l : list wire) :
  Forall (fun w => wire_map !! w = Some w) l ->
  mapR (fun w => match wire_map !! w with
                 | Some w' => Ok w'
                 | None => Raise KeyError
                 end) l = Ok l.
Proof. induction 1 as [|w l Hw _ IH]; simpl; [done|]. by rewrite Hw, IH. Qed.

Lemma insert_by_order_elem (x y : Q * oid) (l : list (Q * oid)) :
  y ∈ insert_by_order x l <-> y = x \/ y ∈ l.
Proof.
  induction l as [|z l IH]; simpl.
  - rewrite list_elem_of_singleton, elem_of_nil. tauto.
  - destruct (Qlt_bool x.1 z.1); rewrite !elem_of_cons; [tauto|].
    rewrite IH. tauto.
Qed.

Lemma sorted_by_order_elem (y : Q * oid) (l : list (Q * oid)) :
  y ∈ sorted_by_order l <-> y ∈ l.
Proof.
  unfold sorted_by_order.
  assert (forall acc, y ∈ fold_left (fun acc x => insert_by_order x acc) l acc
                      <-> y ∈ l \/ y ∈ acc) as Hgen.
  { induction l as [|x l IH]; intros acc; simpl.
    - rewrite elem_of_nil. tauto.
    - rewrite IH, insert_by_order_elem, elem_of_cons. tauto. }
  rewrite Hgen, elem_of_nil. tauto.
Qed.

Lemma visible_set__wires (o : object) : visible (set__wires (wires_of o) o) = visible o.
Proof. by destruct o as [c ws|rt [e|] ws]. Qed.

Lemma visible_wires_of (o o' : object) : visible o = visible o' -> wires_of o = wires_of o'.
Proof.
  destruct o as [c ws|rt [e|] ws], o' as [c' ws'|rt' [e'|] ws']; simpl; congruence.
Qed.

Lemma visible_lookup (h h' : heap) (n : oid) :
  map visible h' = map visible h -> visible <$> h' !! n = visible <$> h !! n.
Proof.
  intros Heq.
  pose proof (list_lookup_fmap visible h' n) as H1.
  pose proof (list_lookup_fmap visible h n) as H2.
  rewrite <- H1, <- H2. change (map visible h' !! n = map visible h !! n).
  by rewrite Heq.
Qed.

Lemma visible_wires (h h' : heap) (n : oid) :
  map visible h' = map visible h -> wires h' n = wires h n.
Proof.
  intros Heq%(visible_lookup _ _ n). unfold wires.
  destruct (h' !! n) as [o'|], (h !! n) as [o|]; simpl in Heq; try done.
  injection Heq as Heq. by apply visible_wires_of.
Qed.

Lemma visible_class_of (h h' : heap) (n : oid) :
  map visible h' = map visible h -> class_of h' n = class_of h n.
Proof.
  intros Heq%(visible_lookup _ _ n). unfold class_of.
  destruct (h' !! n) as [[c' ws'|rt' [e'|] ws']|], (h !! n) as [[c ws|rt [e|] ws]|];
    simpl in Heq; congruence.
Qed.

Lemma visible_operator (h h' : heap) (n : oid) c ws :
  map visible h' = map visible h ->
  h !! n = Some (Operator c ws) -> h' !! n = Some (Operator c ws).
Proof.
  intros Heq%(visible_lookup _ _ n) Hn. rewrite Hn in Heq.
  destruct (h' !! n) as [[c' ws'|rt' [e'|] ws']|]; simpl in Heq; congruence.
Qed.

Lemma visible_is_measurement (h h' : list object) (n : oid) :
  map visible h' = map visible h -> is_measurement h' n = is_measurement h n.
Proof.
  intros Heq%(visible_lookup _ _ n). unfold is_measurement.
  destruct (h' !! n) as [[c' ws'|rt' [e'|] ws']|], (h !! n) as [[c ws|rt [e|] ws]|];
    simpl in Heq; congruence.
Qed.

(** one step of the lowering on a node that is not a measure node and
    whose wires the map sends to themselves: the heap is rewritten with
    what it held *)
Lemma lower_node_plain (h0 hk : list object) (tape : QuantumTape) (ws : list wire)
    (wire_map : gmap wire wire) (q : Q) (op : oid) :
  map visible hk = map visible h0 ->
  is_MeasureNode h0 op = false ->
  Forall (fun w => wire_map !! w = Some w) (wires h0 op) ->
  exists hk',
    lower_node (tape, ws, wire_map) (q, op) hk
    = Ok ((if is_measurement h0 op
           then Tape (operations tape) (measurements tape ++ [op])
           else Tape (operations tape ++ [op]) (measurements tape),
           ws, wire_map), hk')
    /\ map visible hk' = map visible h0.
Proof.
  intros Hvis HM Hid. unfold lower_node, bind, get_heap, lift. simpl.
  rewrite (visible_wires _ _ op Hvis), (mapR_identity_map _ _ Hid).
  unfold assign__wires.
  assert (exists hk', (match hk !! op with
                       | Some o => Ok (tt, <[op := set__wires (wires h0 op) o]> hk)
                       | None => Ok (tt, hk)
                       end) = Ok (tt, hk') /\ map visible hk' = map visible h0)
    as (hk' & -> & Hvis').
  { destruct (hk !! op) as [o|] eqn:Ho; [|by exists hk].
    eexists. split; [reflexivity|]. rewrite <- Hvis.
    rewrite <- (visible_wires _ _ op Hvis). unfold wires. rewrite Ho.
    change (visible <$> <[op:=set__wires (wires_of o) o]> hk = visible <$> hk).
    rewrite list_fmap_insert, visible_set__wires.
    apply list_insert_id. by rewrite list_lookup_fmap, Ho. }
  assert (is_MeasureNode hk' op = false) as ->.
  { unfold is_MeasureNode in *. by rewrite (visible_class_of _ _ op Hvis'). }
  rewrite (visible_is_measurement _ _ op Hvis').
  exists hk'. split; [reflexivity|done].
Qed.

(** C9, amended: [graph_to_tape] assigns the wires of every node of its
    graph in place.  On a fragment without measure node the wire map
    stays the identity: the lowering returns, every operator object is
    what it was, and every object has the class and the wires it had. *)
Theorem graph_to_tape_without_measure_nodes (g : MultiDiGraph) (h : heap) :
  Forall (fun n => is_MeasureNode h n = false) (node_list g) ->
  exists tape h',
    graph_to_tape g h = Ok (tape, h')
    /\ (forall n c ws, h !! n = Some (Operator c ws) -> h' !! n = Some (Operator c ws))
    /\ (forall n, wires h' n = wires h n)
    /\ (forall n, class_of h' n = class_of h n).
Proof.
  intros HM. unfold graph_to_tape, bind, get_heap.
  set (wires0 := all_wires (map (wires h) (node_list g))).
  set (wm := list_to_map (map (fun w => (w, w)) wires0) : gmap wire wire).
  set (ordered_ops := sorted_by_order _).
  destruct (foldH_total
    (fun st hk => st.1.2 = wires0 /\ st.2 = wm /\ map visible hk = map visible h)
    lower_node ordered_ops) with (a := (Tape [] [], wires0, wm)) (h := h)
    as ([[tape ws] wm'] & h' & -> & _ & _ & Hvis); [|done|].
  - intros [[tape ws] wm'] [q op] hk Hin (Hws & Hwm & Hvis). simpl in Hws, Hwm. subst.
    apply sorted_by_order_elem, list_elem_of_fmap in Hin as ([op' q'] & [= Hq Hop'] & Hin).
    subst op' q'.
    assert (op ∈ node_list g) as Hop.
    { unfold node_list. apply list_elem_of_fmap. by exists (op, q). }
    rewrite Forall_forall in HM.
    destruct (lower_node_plain h hk tape wires0 wm q op Hvis) as (hk' & -> & Hvis').
    + by apply HM.
    + apply Forall_forall. intros w Hw.
      apply identity_map_lookup, all_wires_elem. exists (wires h op).
      split; [|done]. apply list_elem_of_fmap. by exists op.
    + by eexists _, hk'.
  - simpl. exists tape, h'. split; [done|]. split; [|split].
    + intros n c ws'. by apply visible_operator.
    + intros n. by apply visible_wires.
    + intros n. by apply visible_class_of.
Qed.

Lemma graph_to_tape_without_measure_nodes_witness :
  Forall (fun n => is_MeasureNode z_heap n = false) (node_list z_graph)
  /\ exists tape h',
       graph_to_tape z_graph z_heap = Ok (tape, h')
       /\ forall n, wires h' n = wires z_heap n.
Proof.
  assert (Forall (fun n => is_MeasureNode z_heap n = false) (node_list z_graph)) as HM.
  { repeat constructor. }
  split; [exact HM|].
  destruct (graph_to_tape_without_measure_nodes z_graph z_heap HM)
    as (tape & h' & Hrun & _ & Hwires & _).
  exists tape, h'. split; [exact Hrun | exact Hwires].
Defined.

(** ** Fragmenter: weakly connected components *)

Lemma connected_trans (g : MultiDiGraph) (u v x : oid) :
  connected g u v -> connected g v x -> connected g u x.
Proof.
  intros Huv Hvx. induction Hvx as [|v y x w _ IH He]; [done|].
  eapply connected_step; [exact (IH Huv)|exact He].
Qed.

Lemma connected_edge (g : MultiDiGraph) (u v : oid) (w : wire) :
  (u, v, w) ∈ edges g \/ (v, u, w) ∈ edges g -> connected g u v.
Proof. intros He. eapply connected_step; [apply connected_refl|exact He]. Qed.

Lemma connected_sym (g : MultiDiGraph) (u v : oid) :
  connected g u v -> connected g v u.
Proof.
  induction 1 as [|u v x w _ IH He]; [apply connected_refl|].
  eapply connected_trans; [|exact IH]. apply (connected_edge g x v w). tauto.
Qed.

Lemma group_by_key_keys {A} (l : list (oid * A)) (k : oid) :
  k ∈ map fst (group_by_key l) -> k ∈ map fst l.
Proof.
  revert k. induction l as [|[k0 a] l IH]; intros k; simpl; [done|].
  rewrite !elem_of_cons. intros [->|Hk]; [by left|]. right. apply IH.
  apply list_elem_of_fmap in Hk as (p & -> & Hp).
  apply list_elem_of_filter in Hp as [_ Hp].
  apply list_elem_of_fmap. by exists p.
Qed.

Lemma neighbours_edge (g : MultiDiGraph) (v x : oid) :
  x ∈ neighbours g v -> exists w, (v, x, w) ∈ edges g \/ (x, v, w) ∈ edges g.
Proof.
  unfold neighbours, succ, pred. rewrite elem_of_app.
  intros [Hx|Hx]; apply group_by_key_keys in Hx;
    rewrite map_map in Hx; apply list_elem_of_fmap in Hx as ([[a b] w] & Hx & He);
    apply list_elem_of_filter in He as [Hv He]; simpl in *; subst; exists w; tauto.
Qed.

Lemma bfs_level_connected (g : MultiDiGraph) (src : oid) (thislevel seen next : list oid) :
  Forall (connected g src) thislevel ->
  Forall (connected g src) seen -> Forall (connected g src) next ->
  let r := fold_left (fun '(seen, nextlevel) v =>
      if bool_decide (v ∈ seen) then (seen, nextlevel)
      else (seen ++ [v], nextlevel ++ neighbours g v)) thislevel (seen, next) in
  Forall (connected g src) r.1 /\ Forall (connected g src) r.2.
Proof.
  intros Hlevel. revert seen next.
  induction Hlevel as [|v thislevel Hv _ IH]; intros seen next Hseen Hnext; simpl; [done|].
  case_bool_decide; [by apply IH|].
  apply IH.
  - apply Forall_app. split; [done|]. by constructor.
  - apply Forall_app. split; [done|].
    apply Forall_forall. intros x Hx.
    apply neighbours_edge in Hx as [w Hx]. by eapply connected_step.
Qed.

Lemma plain_bfs_connected (fuel : nat) (g : MultiDiGraph) (src : oid)
    (seen nextlevel : list oid) :
  Forall (connected g src) seen -> Forall (connected g src) nextlevel ->
  Forall (connected g src) (_plain_bfs fuel g seen nextlevel).
Proof.
  revert seen nextlevel.
  induction fuel as [|fuel IH]; intros seen nextlevel Hseen Hnext; simpl; [done|].
  destruct nextlevel as [|v nextlevel]; [done|].
  pose proof (bfs_level_connected g src (v :: nextlevel) seen [] Hnext Hseen
                ltac:(constructor)) as [H1 H2].
  unfold bfs_level. destruct (fold_left _ _ _) as [seen' next']. by apply IH.
Qed.

(** every component is connected *)
Lemma weakly_connected_components_connected (g : MultiDiGraph) (c : list oid) :
  c ∈ weakly_connected_components g ->
  forall u v, u ∈ c -> v ∈ c -> connected g u v.
Proof.
  unfold weakly_connected_components.
  assert (forall l seen comps,
    Forall (fun c => exists src, Forall (connected g src) c) comps ->
    Forall (fun c => exists src, Forall (connected g src) c)
      (fold_left (fun '(seen, comps) v =>
         if bool_decide (v ∈ seen) then (seen, comps)
         else let c := _plain_bfs (length (nodes g) + 2) g [] [v] in
              (seen ++ c, comps ++ [c])) l (seen, comps)).2) as Hgen.
  { induction l as [|v l IH]; intros seen comps Hc; simpl; [done|].
    case_bool_decide; [by apply IH|]. apply IH.
    apply Forall_app. split; [done|]. constructor; [|constructor].
    exists v. apply plain_bfs_connected; repeat constructor. }
  intros Hc u v Hu Hv.
  specialize (Hgen (node_list g) [] [] ltac:(constructor)).
  rewrite Forall_forall in Hgen.
  destruct (Hgen c Hc) as [src Hsrc].
  rewrite Forall_forall in Hsrc.
  eapply connected_trans.
  - by apply connected_sym, Hsrc.
  - by apply Hsrc.
Qed.

(** ** Fragmenter: every cut edge is removed *)

Lemma filter_none {A} (P : A -> Prop) `{forall x, Decision (P x)} (l : list A) :
  (forall x, x ∈ l -> ~ P x) -> filter P l = [].
Proof.
  induction l as [|x l IH]; intros Hl; [done|].
  rewrite filter_cons_False by (apply Hl; by left). apply IH.
  intros y Hy. apply Hl. by right.
Qed.

Lemma filter_all {A} (P : A -> Prop) `{forall x, Decision (P x)} (l : list A) :
  (forall x, x ∈ l -> P x) -> filter P l = l.
Proof.
  induction l as [|x l IH]; intros Hl; [done|].
  rewrite filter_cons_True by (apply Hl; by left). f_equal. apply IH.
  intros y Hy. apply Hl. by right.
Qed.

Lemma filter_map_comp {A B} (P : B -> Prop) `{forall x, Decision (P x)}
    (f : A -> B) (l : list A) :
  filter P (map f l) = map f (filter (fun x => P (f x)) l).
Proof.
  induction l as [|x l IH]; [done|]. simpl.
  destruct (decide (P (f x))).
  - rewrite !filter_cons_True by done. simpl. by rewrite IH.
  - by rewrite !filter_cons_False by done.
Qed.

Lemma parallel_edges_app (u v : oid) (l1 l2 : list (oid * oid * wire)) :
  parallel_edges u v (l1 ++ l2) = (parallel_edges u v l1 + parallel_edges u v l2)%nat.
Proof. unfold parallel_edges. by rewrite list.filter_app, length_app. Qed.

Lemma parallel_edges_cons (u v : oid) (e : oid * oid * wire) (l : list (oid * oid * wire)) :
  parallel_edges u v (e :: l)
  = ((if bool_decide (e.1.1 = u /\ e.1.2 = v) then 1 else 0) + parallel_edges u v l)%nat.
Proof.
  unfold parallel_edges. case_bool_decide.
  - by rewrite filter_cons_True.
  - by rewrite filter_cons_False.
Qed.

Lemma parallel_edges_concat (u v : oid) (l : list (oid * oid * wire))
    (ls : list (list (oid * oid * wire))) :
  l ∈ ls -> (parallel_edges u v l <= parallel_edges u v (concat ls))%nat.
Proof.
  induction ls as [|l' ls IH]; [by intros ?%elem_of_nil|].
  simpl. rewrite parallel_edges_app. intros [->|Hl]%elem_of_cons; [lia|].
  specialize (IH Hl). lia.
Qed.

(** the values that [group_by_key] collects under a key are the values
    of that key in the list, in order *)
Lemma group_by_key_values {A} (l : list (oid * A)) (k : oid) :
  concat (map snd (filter (fun p => fst p = k) (group_by_key l)))
  = map snd (filter (fun p => fst p = k) l).
Proof.
  induction l as [|[k0 a] l IH]; simpl; [done|].
  destruct (decide (k0 = k)) as [->|Hne].
  - rewrite !filter_cons_True by done. simpl. rewrite IH. f_equal.
    rewrite (filter_none (fun p : nat * list A => fst p = k)
               (filter (fun p => fst p ≠ k) (group_by_key l)));
      [simpl; by rewrite app_nil_r|].
    intros p Hp. apply list_elem_of_filter in Hp as [Hp _]. done.
  - rewrite !filter_cons_False by done. rewrite <- IH. f_equal. f_equal.
    rewrite list_filter_filter. apply list_filter_iff. intros p.
    intuition congruence.
Qed.

Lemma parallel_edges_groups (u v : oid) (groups : list (oid * list wire)) :
  parallel_edges u v
    (concat (map (fun '(v', ws) => map (fun w => (u, v', w)) ws) groups))
  = length (concat (map snd (filter (fun p => fst p = v) groups))).
Proof.
  induction groups as [|[v' ws] groups IH]; simpl; [done|].
  rewrite parallel_edges_app, IH.
  destruct (decide (v' = v)) as [->|Hne].
  - rewrite filter_cons_True by done. simpl. rewrite length_app. f_equal.
    unfold parallel_edges. rewrite filter_all; [by rewrite length_map|].
    intros e He. apply list_elem_of_fmap in He as (w & -> & _). done.
  - rewrite filter_cons_False by done.
    unfold parallel_edges. rewrite filter_none; [done|].
    intros e He. apply list_elem_of_fmap in He as (w & -> & _). simpl.
    intuition congruence.
Qed.

(** [list(graph.edges)] yields every edge that starts at a node *)
Lemma edge_list_parallel_edges (g : MultiDiGraph) (u v : oid) :
  u ∈ node_list g ->
  (parallel_edges u v (edges g) <= parallel_edges u v (edge_list g))%nat.
Proof.
  intros Hu. unfold edge_list.
  etransitivity; [|apply parallel_edges_concat, list_elem_of_fmap; by exists u].
  rewrite parallel_edges_groups. unfold succ.
  rewrite group_by_key_values, length_map.
  unfold parallel_edges. rewrite filter_map_comp, length_map, list_filter_filter.
  apply Nat.eq_le_incl. f_equal. apply list_filter_iff. intros e. simpl. tauto.
Qed.

Lemma remove_last_edge_Some (u v : oid) (es es' : list (oid * oid * wire)) :
  remove_last_edge u v es = Some es' ->
  exists l1 w l2, es = l1 ++ (u, v, w) :: l2 /\ es' = l1 ++ l2.
Proof.
  revert es'. induction es as [|e es IH]; intros es'; simpl; [done|].
  destruct (remove_last_edge u v es) as [r|].
  - intros [= <-]. destruct (IH r eq_refl) as (l1 & w & l2 & -> & ->).
    by exists (e :: l1), w, l2.
  - case_bool_decide as He; [|done]. intros [= <-].
    destruct e as [[a b] w]. simpl in He. destruct He as [-> ->].
    by exists [], w, es.
Qed.

Lemma remove_cut_edges_loop (h : heap) (l : list (oid * oid * wire))
    (g g' : MultiDiGraph) (cuts cuts' : list (oid * oid)) :
  foldR (remove_cut_edge h) l (g, cuts) = Ok (g', cuts') ->
  nodes g' = nodes g
  /\ (forall e, e ∈ edges g' -> e ∈ edges g)
  /\ filter (fun e => is_MeasureNode h e.1.1 = false) (edges g')
     = filter (fun e => is_MeasureNode h e.1.1 = false) (edges g)
  /\ forall u v, is_MeasureNode h u = true ->
       (parallel_edges u v (edges g') + parallel_edges u v l
        = parallel_edges u v (edges g))%nat.
Proof.
  revert g cuts. induction l as [|[[n1 n2] w] l IH]; intros g cuts; simpl.
  - intros [= <- <-]. repeat split; auto.
  - intros (st & Hstep & Hrest)%rbind_Ok. destruct st as [g1 cuts1].
    apply IH in Hrest as (Hn & Hsub & Hfil & Hcnt). clear IH.
    destruct (is_MeasureNode h n1) eqn:HM.
    + destruct (is_PrepareNode h n2); [|discriminate].
      apply rbind_Ok in Hstep as (g2 & Hrm & [= <- <-]).
      unfold remove_edge in Hrm.
      destruct (remove_last_edge n1 n2 (edges g)) as [es|] eqn:Hes; [|discriminate].
      injection Hrm as <-. simpl in *.
      apply remove_last_edge_Some in Hes as (l1 & w' & l2 & Hg & ->).
      rewrite Hg. repeat split; [done| | |].
      * intros e He%Hsub. rewrite elem_of_app in He. rewrite elem_of_app, elem_of_cons. tauto.
      * rewrite Hfil, !list.filter_app, filter_cons_False; [done|]. simpl. by rewrite HM.
      * intros u v Hu. specialize (Hcnt u v Hu).
        rewrite parallel_edges_cons. rewrite parallel_edges_app in *.
        rewrite (parallel_edges_cons u v (n1, n2, w') l2). simpl. lia.
    + injection Hstep as <- <-. repeat split; [done..|].
      intros u v Hu. specialize (Hcnt u v Hu). rewrite parallel_edges_cons. simpl.
      rewrite bool_decide_eq_false_2; [lia|]. intros [-> _]. congruence.
Qed.

(** the graph left by the first loop is the graph without its cut
    edges *)
Lemma remove_cut_edges_residual (h : heap) (g g' : MultiDiGraph) (cuts : list (oid * oid)) :
  Forall (fun e => e.1.1 ∈ node_list g) (edges g) ->
  foldR (remove_cut_edge h) (edge_list g) (g, []) = Ok (g', cuts) ->
  g' = without_cut_edges h g.
Proof.
  intros Hwf (Hn & Hsub & Hfil & Hcnt)%remove_cut_edges_loop.
  unfold without_cut_edges. destruct g' as [ns es]. simpl in *. f_equal; [done|].
  rewrite <- Hfil. symmetry. apply filter_all. intros [[u v] w] He. simpl.
  destruct (is_MeasureNode h u) eqn:HM; [|done]. exfalso.
  specialize (Hcnt u v HM).
  assert (u ∈ node_list g) as Hu.
  { rewrite Forall_forall in Hwf. apply (Hwf (u, v, w)), Hsub, He. }
  pose proof (edge_list_parallel_edges g u v Hu).
  assert (0 < parallel_edges u v es)%nat; [|lia].
  unfold parallel_edges.
  assert ((u, v, w) ∈ filter (fun e => e.1.1 = u /\ e.1.2 = v) es) as Hin.
  { apply list_elem_of_filter. by split. }
  destruct (filter (fun e => e.1.1 = u /\ e.1.2 = v) es);
    [by apply elem_of_nil in Hin|simpl; lia].
Qed.

(** C7, amended: the fragments are the weakly connected components of
    the graph without its cut edges.  No fragment contains a cut edge
    (an edge that leaves a measure node), and two nodes of one fragment,
    in particular the measure node and the prepare node of a cut that
    did not disconnect the circuit, are joined by a path of edges that
    are not cut edges. *)
Theorem fragment_graph_fragments (h : heap) (g : MultiDiGraph)
    (subgraphs : list MultiDiGraph) (communication_graph : CommunicationGraph) :
  Forall (fun e => e.1.1 ∈ node_list g) (edges g) ->
  fragment_graph h g = Ok (subgraphs, communication_graph) ->
  forall f, f ∈ subgraphs ->
    (forall e, e ∈ edges f -> is_MeasureNode h e.1.1 = false)
    /\ (forall u v, has_node f u = true -> has_node f v = true ->
          connected (without_cut_edges h g) u v).
Proof.
  intros Hwf Hfrag f Hf. unfold fragment_graph in Hfrag.
  apply rbind_Ok in Hfrag as ([g' cuts] & Hloop & Hfrag).
  apply remove_cut_edges_residual in Hloop; [|done]. subst g'.
  apply rbind_Ok in Hfrag as (r & _ & [= <- _]).
  apply list_elem_of_fmap in Hf as (c & -> & Hc).
  split.
  - intros e He. simpl in He.
    apply list_elem_of_filter in He as [_ He].
    by apply list_elem_of_filter in He as [He _].
  - intros u v Hu Hv.
    apply (weakly_connected_components_connected _ c Hc).
    + apply bool_decide_eq_true in Hu. unfold node_list in Hu. simpl in Hu.
      apply list_elem_of_fmap in Hu as (p & -> & Hp).
      by apply list_elem_of_filter in Hp as [Hp _].
    + apply bool_decide_eq_true in Hv. unfold node_list in Hv. simpl in Hv.
      apply list_elem_of_fmap in Hv as (p & -> & Hp).
      by apply list_elem_of_filter in Hp as [Hp _].
Qed.

Lemma fragment_graph_fragments_witness :
  Forall (fun e => e.1.1 ∈ node_list cnot_cut_graph) (edges cnot_cut_graph)
  /\ fragment_graph cnot_cut_heap cnot_cut_graph
     = Ok ([cnot_cut_fragment], cnot_cut_communication)
  /\ connected (without_cut_edges cnot_cut_heap cnot_cut_graph) 4%nat 5%nat.
Proof.
  assert (Forall (fun e => e.1.1 ∈ node_list cnot_cut_graph) (edges cnot_cut_graph))
    as Hwf by (apply (bool_decide_unpack _); vm_compute; exact I).
  assert (fragment_graph cnot_cut_heap cnot_cut_graph
          = Ok ([cnot_cut_fragment], cnot_cut_communication)) as Hrun
    by (vm_compute; reflexivity).
  split; [exact Hwf|]. split; [exact Hrun|].
  refine (proj2 (fragment_graph_fragments _ _ _ _ Hwf Hrun cnot_cut_fragment _)
            4%nat 5%nat _ _).
  - left.
  - vm_compute; reflexivity.
  - vm_compute; reflexivity.
Defined.

(** ** Axis order of the fragment tensors *)

(** C6 fails on the code in both halves.  For a fragment with two
    prepare nodes and the results that are 1 on setting 0 of the first
    node and setting 2 of the second, [_get_tensors] returns the
    transpose of the tensor that has axis [k] for the [k]-th prepare
    node: [tensordot] puts the transformed axis first.  For three cuts
    into one fragment, the second from another fragment than the first
    and the third, the index string of the fragment is ordered by the
    edges of the communication graph: the prepare nodes [8; 10; 12] get
    [a b c] although [c] is the symbol of the cut of node 10 (the string
    of fragment 1) and [b] that of node 12. *)
Theorem get_tensors_axis_order :
  match _get_tensors (scalar_results (one_hot 16 2)) [16%nat] [[7%nat; 8%nat]] [[]] with
  | Ok [t] =>
      shape t = [4%nat; 4%nat]
      /\ map qs_repr (data t)
         = map qz [0; 0; 0; 0;  1; -1; -1; 1;  0; 0; 0; 0;  0; 0; 0; 0]
  | _ => False
  end
  /\ match fragment_tensor_spec (scalar_results (one_hot 16 2)) 2 0 with
     | Ok t =>
         shape t = [4%nat; 4%nat]
         /\ map qs_repr (data t)
            = map qz [0; 1; 0; 0;  0; -1; 0; 0;  0; -1; 0; 0;  0; 1; 0; 0]
     | _ => False
     end
  /\ tensor_indxs_of three_cut_communication
       [[]; []; [8%nat; 10%nat; 12%nat]] [[7%nat; 11%nat]; [9%nat]; []]
     = Ok [[97%nat; 98%nat]; [99%nat]; [97%nat; 98%nat; 99%nat]].
Proof. vm_compute. repeat split. Qed.

(** the three-cut communication graph and node lists are those that the
    pipeline computes for [three_cut_tape] *)
Lemma three_cut_pipeline :
  match run (let* tape := three_cut_tape in
             let* g := tape_to_graph tape in
             let* g := remove_wire_cut_nodes g in
             let* h := get_heap in
             let* r := lift (fragment_graph h g) in
             let* tapes := mapH graph_to_tape (fst r) in
             let* h := get_heap in
             let* ex := lift (mapR (expand_fragment_tapes h) tapes) in
             ret (snd r, map (fun e => e.1.2) ex, map (fun e => e.2) ex)) with
  | Ok ((communication_graph, prepare_nodes, measure_nodes), _) =>
      communication_graph = three_cut_communication
      /\ prepare_nodes = [[]; []; [8%nat; 10%nat; 12%nat]]
      /\ measure_nodes = [[7%nat; 11%nat]; [9%nat]; []]
  | Raise _ => False
  end.
Proof. vm_compute. repeat split. Qed.

(** ** The transform on a tape without cut *)

Lemma link_operations_nodes (op : oid) (ws : list wire) (g : MultiDiGraph)
    (wl : gmap wire oid) :
  nodes (fold_left (link_operation op) ws (g, wl)).1 = nodes g.
Proof.
  revert g wl. induction ws as [|w ws IH]; intros g wl; simpl; [done|].
  destruct (wl !! w); by rewrite IH.
Qed.

Lemma add_node_new (n : oid) (q : Q) (g : MultiDiGraph) :
  n ∉ node_list g -> nodes (add_node n q g) = nodes g ++ [(n, q)].
Proof.
  intros Hn. unfold add_node, has_node. by rewrite bool_decide_eq_false_2.
Qed.

Lemma add_operations_nodes (h : heap) (l : list oid) (k : nat) (g : MultiDiGraph)
    (wl : gmap wire oid) (o : option nat) :
  NoDup l -> (forall x, x ∈ l -> x ∉ node_list g) ->
  let r := fold_left (add_operation h) (zip (seq k (length l)) l) (g, wl, o) in
  nodes r.1.1 = nodes g ++ zip l (map Qnat (seq k (length l)))
  /\ r.2 = match l with [] => o | _ => Some (k + length l - 1)%nat end.
Proof.
  revert k g wl o. induction l as [|op l IH]; intros k g wl o Hnd Hfresh; simpl.
  - by rewrite app_nil_r.
  - apply NoDup_cons in Hnd as [Hop Hnd].
    destruct (fold_left (link_operation op) (wires h op) (add_node op (Qnat k) g, wl))
      as [g1 wl1] eqn:Hlink.
    assert (nodes g1 = nodes g ++ [(op, Qnat k)]) as Hg1.
    { pose proof (link_operations_nodes op (wires h op) (add_node op (Qnat k) g) wl) as Hn.
      rewrite Hlink in Hn. simpl in Hn. rewrite Hn. apply add_node_new, Hfresh. by left. }
    destruct (IH (S k) g1 wl1 (Some k) Hnd) as [Hn Ho].
    { intros x Hx. unfold node_list. rewrite Hg1, fmap_app, elem_of_app. simpl.
      intros [Hin|Hin%list_elem_of_singleton].
      - by apply (Hfresh x); [right|].
      - congruence. }
    split.
    + rewrite Hn, Hg1, <- app_assoc. done.
    + rewrite Ho. destruct l; simpl; f_equal; lia.
Qed.

Lemma add_parent_edges_nodes (wl : gmap wire oid) (m : oid) (ws : list wire)
    (g g' : MultiDiGraph) :
  add_parent_edges wl m ws g = Ok g' -> nodes g' = nodes g.
Proof.
  unfold add_parent_edges. revert g. induction ws as [|w ws IH]; intros g; simpl.
  - by intros [= <-].
  - destruct (wl !! w); [|done]. simpl. intros Hrest. by apply IH in Hrest.
Qed.

(** the graph of a tape with one measurement whose observable is not a
    tensor product: the nodes are the operations and the measurement, in
    tape order, and no object is made *)
Lemma tape_to_graph_nodes (h h1 : heap) (ops : list oid) (m : oid) (g : MultiDiGraph)
    rt o mw :
  NoDup (ops ++ [m]) -> ops ≠ [] ->
  h !! m = Some (MeasurementProcess rt (Some (Single o)) mw) ->
  tape_to_graph (Tape ops [m]) h = Ok (g, h1) ->
  h1 = h
  /\ nodes g = zip ops (map Qnat (seq 0 (length ops))) ++ [(m, Qnat (length ops))].
Proof.
  intros Hnd Hne Hm. unfold tape_to_graph, bind, get_heap, enumerate. simpl.
  apply NoDup_app in Hnd as (Hops & Hm_ops & _).
  pose proof (add_operations_nodes h ops 0 empty_graph ∅ None Hops) as Hloop.
  destruct (fold_left (add_operation h) (zip (seq 0 (length ops)) ops) (empty_graph, ∅, None))
    as [[g1 wl] order]. simpl in Hloop.
  destruct Hloop as [Hg1 Horder]; [intros x _; apply not_elem_of_nil|].
  destruct ops as [|op ops']; [done|]. subst order.
  unfold add_measurement, bind, get_heap. rewrite Hm. unfold lift, ret.
  destruct (add_parent_edges wl m _ _) as [g2|] eqn:Hpar; [|done].
  intros [= <- <-]. split; [done|].
  apply add_parent_edges_nodes in Hpar. rewrite Hpar, add_node_new.
  - rewrite Hg1. f_equal. f_equal. f_equal. simpl. f_equal. lia.
  - unfold node_list. rewrite Hg1. intros Hin.
    apply list_elem_of_fmap in Hin as ([x q] & -> & Hin%elem_of_zip_l).
    apply (Hm_ops x); [done|by left].
Qed.

Lemma remove_wire_cut_nodes_none (h : heap) (g : MultiDiGraph) :
  Forall (fun n => is_WireCut h n = false) (node_list g) ->
  remove_wire_cut_nodes g h = Ok (g, h).
Proof.
  unfold remove_wire_cut_nodes. generalize (node_list g) as l.
  induction l as [|n l IH]; intros Hl; simpl; [done|].
  apply Forall_cons in Hl as [Hn Hl].
  unfold bind at 1. unfold get_heap, bind. rewrite Hn. simpl. by apply IH.
Qed.

Lemma edge_list_source (g : MultiDiGraph) (e : oid * oid * wire) :
  e ∈ edge_list g -> e.1.1 ∈ node_list g.
Proof.
  unfold edge_list. intros (l & Hl & He)%elem_of_concat.
  apply list_elem_of_fmap in Hl as (u & -> & Hu).
  apply elem_of_concat in He as (l' & Hl' & He).
  apply list_elem_of_fmap in Hl' as ([v ws] & -> & _).
  by apply list_elem_of_fmap in He as (w & -> & _).
Qed.

Lemma remove_cut_edges_none (h : heap) (l : list (oid * oid * wire))
    (g : MultiDiGraph) (cuts : list (oid * oid)) :
  Forall (fun e => is_MeasureNode h e.1.1 = false) l ->
  foldR (remove_cut_edge h) l (g, cuts) = Ok (g, cuts).
Proof.
  induction 1 as [|[[n1 n2] w] l He _ IH]; simpl; [done|].
  simpl in He. by rewrite He.
Qed.

Lemma fragment_graph_no_cut (h : heap) (g : MultiDiGraph) :
  Forall (fun n => is_MeasureNode h n = false) (node_list g) ->
  fragment_graph h g
  = Ok (map (subgraph g) (weakly_connected_components g),
        CommGraph (seq 0 (length (weakly_connected_components g))) []).
Proof.
  intros HM. unfold fragment_graph.
  rewrite remove_cut_edges_none.
  - simpl. by rewrite length_map.
  - apply Forall_forall. intros e He%edge_list_source.
    rewrite Forall_forall in HM. by apply HM.
Qed.

Lemma bfs_level_seen (g : MultiDiGraph) (thislevel seen next : list oid) (x : oid) :
  x ∈ seen \/ x ∈ thislevel ->
  x ∈ (fold_left (fun '(seen, nextlevel) v =>
         if bool_decide (v ∈ seen) then (seen, nextlevel)
         else (seen ++ [v], nextlevel ++ neighbours g v)) thislevel (seen, next)).1.
Proof.
  revert seen next. induction thislevel as [|v l IH]; intros seen next; simpl.
  - intros [?|?%elem_of_nil]; done.
  - rewrite elem_of_cons. intros Hx. case_bool_decide as Hv.
    + apply IH. destruct Hx as [?|[->|?]]; auto.
    + apply IH. rewrite elem_of_app, list_elem_of_singleton. tauto.
Qed.

Lemma plain_bfs_seen (fuel : nat) (g : MultiDiGraph) (seen next : list oid) (x : oid) :
  x ∈ seen -> x ∈ _plain_bfs fuel g seen next.
Proof.
  revert seen next. induction fuel as [|fuel IH]; intros seen next Hx; simpl; [done|].
  destruct next as [|v next]; [done|].
  pose proof (bfs_level_seen g (v :: next) seen [] x (or_introl Hx)) as Hs.
  unfold bfs_level. destruct (fold_left _ _ _) as [seen' next']. by apply IH.
Qed.

Lemma plain_bfs_source (fuel : nat) (g : MultiDiGraph) (v : oid) :
  v ∈ _plain_bfs (S fuel) g [] [v].
Proof.
  simpl. apply plain_bfs_seen. by left.
Qed.

(** every node is in a component *)
Lemma weakly_connected_components_cover (g : MultiDiGraph) (v : oid) :
  v ∈ node_list g -> exists c, c ∈ weakly_connected_components g /\ v ∈ c.
Proof.
  unfold weakly_connected_components.
  assert (forall l seen comps,
    (forall x, x ∈ seen -> exists c, c ∈ comps /\ x ∈ c) ->
    let r := fold_left (fun '(seen, comps) v =>
         if bool_decide (v ∈ seen) then (seen, comps)
         else let c := _plain_bfs (length (nodes g) + 2) g [] [v] in
              (seen ++ c, comps ++ [c])) l (seen, comps) in
    forall x, x ∈ seen \/ x ∈ l -> exists c, c ∈ r.2 /\ x ∈ c) as Hgen.
  { induction l as [|n l IH]; intros seen comps Hinv; simpl.
    - intros x [?|?%elem_of_nil]; [by apply Hinv|done].
    - intros x Hx. case_bool_decide as Hn.
      + apply IH; [done|]. rewrite elem_of_cons in Hx. destruct Hx as [?|[->|?]]; auto.
      + apply IH.
        * intros y [Hy|Hy]%elem_of_app.
          -- destruct (Hinv y Hy) as (c & Hc & Hyc). exists c. rewrite elem_of_app. auto.
          -- eexists. split; [|exact Hy]. rewrite elem_of_app, list_elem_of_singleton. auto.
        * rewrite elem_of_cons in Hx. rewrite elem_of_app.
          destruct Hx as [?|[->|?]]; auto. left. right.
          replace (length (nodes g) + 2)%nat with (S (length (nodes g) + 1)) by lia.
          apply plain_bfs_source. }
  intros Hv. apply (Hgen (node_list g) [] []); [by intros x ?%elem_of_nil|auto].
Qed.

Lemma subgraph_all_nodes (g : MultiDiGraph) (c : list oid) :
  (forall v, v ∈ node_list g -> v ∈ c) -> nodes (subgraph g c) = nodes g.
Proof.
  intros Hc. simpl. apply filter_all. intros [n q] Hn. apply Hc.
  unfold node_list. apply list_elem_of_fmap. by exists (n, q).
Qed.

Lemma insert_by_order_last (x : Q * oid) (acc : list (Q * oid)) :
  Forall (fun a => Qlt_bool (fst x) (fst a) = false) acc ->
  insert_by_order x acc = acc ++ [x].
Proof.
  induction 1 as [|a acc Ha _ IH]; simpl; [done|]. by rewrite Ha, IH.
Qed.

(** sorting a list that is in order returns it *)
Lemma sorted_by_order_nondecreasing (l : list (Q * oid)) :
  nondecreasing l -> sorted_by_order l = l.
Proof.
  unfold sorted_by_order.
  assert (forall acc, nondecreasing l ->
            Forall (fun a => Forall (fun x => Qlt_bool (fst x) (fst a) = false) l) acc ->
            fold_left (fun acc x => insert_by_order x acc) l acc = acc ++ l) as Hgen.
  { induction l as [|x l IH]; intros acc Hl Hacc; simpl; [by rewrite app_nil_r|].
    inversion Hl as [|? ? Hx Hl']; subst.
    rewrite insert_by_order_last.
    - rewrite IH; [by rewrite <- app_assoc|done|].
      apply Forall_app. split.
      + eapply Forall_impl; [exact Hacc|]. intros a Ha. by apply Forall_cons in Ha as [_ ?].
      + by constructor.
    - eapply Forall_impl; [exact Hacc|]. intros a Ha. by apply Forall_cons in Ha as [? _]. }
  intros Hl. by apply (Hgen [] Hl).
Qed.

Lemma Qlt_bool_Qnat (i j : nat) : (i <= j)%nat -> Qlt_bool (Qnat j) (Qnat i) = false.
Proof.
  intros Hij. unfold Qlt_bool. apply negb_false_iff, Qle_bool_iff.
  unfold Qnat. rewrite <- Zle_Qle. lia.
Qed.

(** the nodes of a tape graph, taken with their order, are in order *)
Lemma tape_nodes_nondecreasing (ops : list oid) (m : oid) (k : nat) :
  nondecreasing
    (map (fun '(op, order) => (order, op))
       (zip ops (map Qnat (seq k (length ops))) ++ [(m, Qnat (k + length ops))])).
Proof.
  revert k. induction ops as [|op ops IH]; intros k; simpl.
  - repeat constructor.
  - constructor.
    + specialize (IH (S k)). clear IH.
      rewrite map_app. apply Forall_app. split.
      * apply Forall_forall. intros [q n] Hin.
        apply list_elem_of_fmap in Hin as ([n' q'] & [= -> ->] & Hin).
        apply elem_of_zip_r, list_elem_of_fmap in Hin as (j & -> & Hj).
        apply elem_of_seq in Hj. simpl. apply Qlt_bool_Qnat. lia.
      * repeat constructor. simpl. apply Qlt_bool_Qnat. lia.
    + replace (k + S (length ops))%nat with (S k + length ops)%nat by lia. apply IH.
Qed.

Lemma lower_nodes_plain (h : list object) (ws : list wire) (wire_map : gmap wire wire)
    (l : list (Q * oid)) (tape : QuantumTape) (hk : list object) :
  map visible hk = map visible h ->
  Forall (fun x => is_MeasureNode h x.2 = false
                   /\ Forall (fun w => wire_map !! w = Some w) (wires h x.2)) l ->
  exists hk',
    foldH lower_node l (tape, ws, wire_map) hk
    = Ok ((Tape (operations tape
                 ++ filter (fun n => is_measurement h n = false) (map snd l))
                (measurements tape
                 ++ filter (fun n => is_measurement h n = true) (map snd l)),
           ws, wire_map), hk')
    /\ map visible hk' = map visible h.
Proof.
  intros Hvis Hl. revert tape hk Hvis.
  induction Hl as [|[q op] l [HM Hid] _ IH]; intros tape hk Hvis; cbn [foldH].
  - exists hk. simpl. rewrite !app_nil_r. by destruct tape.
  - destruct (lower_node_plain h hk tape ws wire_map q op Hvis HM Hid) as (hk1 & Hstep & Hvis1).
    unfold bind. rewrite Hstep.
    destruct (IH (if is_measurement h op
                  then Tape (operations tape) (measurements tape ++ [op])
                  else Tape (operations tape ++ [op]) (measurements tape)) hk1 Hvis1)
      as (hk' & -> & Hvis').
    exists hk'. split; [|done]. f_equal. f_equal. f_equal.
    destruct (is_measurement h op) eqn:Hmeas; simpl.
    + rewrite filter_cons_False by congruence. rewrite filter_cons_True by done.
      by rewrite <- app_assoc.
    + rewrite filter_cons_True by done. rewrite filter_cons_False by congruence.
      by rewrite <- app_assoc.
Qed.

(** lowering a fragment without measure node whose nodes are in order:
    the tape has the nodes in that order *)
Lemma graph_to_tape_plain (h : list object) (g : MultiDiGraph) :
  Forall (fun n => is_MeasureNode h n = false) (node_list g) ->
  nondecreasing (map (fun '(op, order) => (order, op)) (nodes g)) ->
  exists h',
    graph_to_tape g h
    = Ok (Tape (filter (fun n => is_measurement h n = false) (node_list g))
               (filter (fun n => is_measurement h n = true) (node_list g)), h')
    /\ map visible h' = map visible h.
Proof.
  intros HM Hsorted. unfold graph_to_tape, bind, get_heap.
  rewrite (sorted_by_order_nondecreasing _ Hsorted).
  set (wires0 := all_wires (map (wires h) (node_list g))).
  set (wm := list_to_map (map (fun w => (w, w)) wires0) : gmap wire wire).
  destruct (lower_nodes_plain h wires0 wm
              (map (fun '(op, order) => (order, op)) (nodes g)) (Tape [] []) h eq_refl)
    as (h' & -> & Hvis).
  - apply Forall_forall. intros [q op] Hin.
    apply list_elem_of_fmap in Hin as ([op' q'] & [= -> ->] & Hin).
    assert (op' ∈ node_list g) as Hop.
    { unfold node_list. apply list_elem_of_fmap. by exists (op', q'). }
    rewrite Forall_forall in HM. split; [by apply HM|].
    apply Forall_forall. intros w Hw.
    apply identity_map_lookup, all_wires_elem. exists (wires h op').
    split; [|done]. apply list_elem_of_fmap. by exists op'.
  - exists h'. split; [|done]. simpl. unfold ret. repeat f_equal.
    all: unfold node_list; rewrite map_map; apply map_ext; by intros [].
Qed.

Lemma record_operations_plain (h : list object) (ops : list oid)
    (ops_v : list (gate * list wire)) acc (meas : list oid) :
  Forall2 (fun op v => h !! op = Some (Operator (Gate v.1) v.2)) ops ops_v ->
  foldR (record_operation h []) ops (acc, meas)
  = Ok (acc ++ map (fun v => (Gate v.1, v.2)) ops_v, meas).
Proof.
  intros Hops. revert acc.
  induction Hops as [|op v ops ops_v Hop _ IH]; intros acc; simpl.
  - by rewrite app_nil_r.
  - unfold is_PrepareNode, is_MeasureNode, class_of. rewrite Hop. simpl.
    rewrite IH, <- app_assoc. done.
Qed.

(** a tape of gates with one expectation value of [I], [X], [Y] or [Z]
    is its own and only configuration *)
Lemma expand_fragment_tapes_plain (h : list object) (ops : list oid)
    (ops_v : list (gate * list wire)) (m : oid) (o : observable) (mw : list wire) :
  Forall2 (fun op v => h !! op = Some (Operator (Gate v.1) v.2)) ops ops_v ->
  h !! m = Some (MeasurementProcess Expectation (Some (Single o)) mw) ->
  is_pauli o = true -> obs_wires o ≠ [] ->
  expand_fragment_tapes h (Tape ops [m])
  = Ok ([CTape (map (fun v => (Gate v.1, v.2)) ops_v) [(Expectation, Tensor [o])]],
        [], []).
Proof.
  intros Hops Hm Hpauli Hw. unfold expand_fragment_tapes. simpl operations.
  assert (filter (fun o => is_PrepareNode h o) ops = []) as ->.
  { apply filter_none. intros op Hop.
    apply list_elem_of_lookup in Hop as [i Hi].
    destruct (Forall2_lookup_l _ _ _ _ _ Hops Hi) as (v & _ & Hv).
    unfold is_PrepareNode, class_of. rewrite Hv. exact id. }
  assert (filter (fun o => is_MeasureNode h o) ops = []) as ->.
  { apply filter_none. intros op Hop.
    apply list_elem_of_lookup in Hop as [i Hi].
    destruct (Forall2_lookup_l _ _ _ _ _ Hops Hi) as (v & _ & Hv).
    unfold is_MeasureNode, class_of. rewrite Hv. exact id. }
  simpl. unfold configuration_tape. simpl.
  rewrite (record_operations_plain h ops ops_v [] [] Hops). simpl.
  unfold full_tensor. rewrite Hm. simpl. rewrite Hpauli. simpl.
  unfold first_wire. destruct (obs_wires o) as [|w0 ws]; [done|]. simpl.
  unfold sorted_by_wire. simpl. reflexivity.
Qed.

Section single_scalar.
  Context {R : Type} `{ScalarLaws R}.

(** the post-processing of one fragment without cut returns the one
    scalar it is given, as an array without axes *)
Lemma contract_single_scalar (r : R) :
  contract [[r]] [1%nat] (CommGraph [0%nat] []) [[]] [[]] = Ok (NDArray [] [r]).
Proof.
  unfold contract, _get_tensors, _contract_tensors. simpl.
  unfold reshape, scale, oe_contract, symbol_dims, entry. simpl.
  by rewrite s_pow2_neg_half_0, !s_mul_one, s_add_zero.
Qed.

End single_scalar.

(** ** The search explores whole components

    [_plain_bfs] is given [len(nodes) + 2] rounds; every round but the
    last one sees a new node, so the rounds are enough. *)

Lemma bfs_level_spec (g : MultiDiGraph) (thislevel seen next : list oid) :
  let r := fold_left (fun '(seen, nextlevel) v =>
      if bool_decide (v ∈ seen) then (seen, nextlevel)
      else (seen ++ [v], nextlevel ++ neighbours g v)) thislevel (seen, next) in
  (NoDup seen -> NoDup r.1)
  /\ (forall x, x ∈ r.1 <-> x ∈ seen \/ x ∈ thislevel)
  /\ (forall y, y ∈ r.2 <->
        y ∈ next \/ exists x, x ∈ r.1 /\ (x ∉ seen) /\ y ∈ neighbours g x)
  /\ ((forall x, x ∈ thislevel -> x ∈ seen) -> r = (seen, next))
  /\ ((exists x, x ∈ thislevel /\ (x ∉ seen)) -> (length seen < length r.1)%nat)
  /\ (length seen <= length r.1)%nat.
Proof.
  cbv zeta. revert seen next.
  induction thislevel as [|v l IH]; intros seen next; simpl.
  - split_and!; try done.
    + intros x. rewrite elem_of_nil. tauto.
    + intros y. split; [auto|]. intros [?|(x & ? & ? & _)]; done.
    + intros (x & ?%elem_of_nil & _). done.
  - case_bool_decide as Hv.
    + destruct (IH seen next) as (H1 & H2 & H3 & H4 & H5 & H6).
      split_and!; try done.
      * intros x. rewrite H2, elem_of_cons. split; [tauto|].
        intros [?|[->|?]]; auto.
      * intros Hall. apply H4. intros x Hx. apply Hall. by right.
      * intros (x & [->|Hx]%elem_of_cons & Hnx); [done|]. apply H5. eauto.
    + destruct (IH (seen ++ [v]) (next ++ neighbours g v)) as (H1 & H2 & H3 & H4 & H5 & H6).
      rewrite length_app in H5, H6. simpl in H5, H6.
      split_and!.
      * intros Hnd. apply H1. apply NoDup_app. split_and!; [done| |apply NoDup_singleton].
        intros x Hx ->%list_elem_of_singleton. done.
      * intros x. rewrite H2, elem_of_app, !elem_of_cons, elem_of_nil. tauto.
      * intros y. rewrite H3, elem_of_app. split.
        -- intros [[?|Hy]|(x & Hx & Hnx & Hy)]; auto.
           ++ right. exists v. split_and!; [|done..]. apply H2. left.
              rewrite elem_of_app, list_elem_of_singleton. auto.
           ++ right. exists x. rewrite elem_of_app in Hnx. tauto.
        -- intros [?|(x & Hx & Hnx & Hy)]; auto.
           destruct (decide (x = v)) as [->|Hne]; auto.
           right. exists x. rewrite elem_of_app, list_elem_of_singleton. tauto.
      * intros Hall. exfalso. apply Hv, Hall. by left.
      * intros _. lia.
      * lia.
Qed.

Lemma neighbours_nodes (g : MultiDiGraph) (x y : oid) :
  edges_closed g -> y ∈ neighbours g x -> y ∈ node_list g.
Proof.
  intros Hwf [w [He|He]]%neighbours_edge; by destruct (Hwf _ He).
Qed.

Lemma plain_bfs_closed (g : MultiDiGraph) (fuel : nat) (seen next : list oid) :
  edges_closed g ->
  NoDup seen ->
  (forall x, x ∈ seen -> x ∈ node_list g) ->
  (forall x, x ∈ next -> x ∈ node_list g) ->
  (forall x y, x ∈ seen -> y ∈ neighbours g x -> y ∈ seen \/ y ∈ next) ->
  (length (node_list g) - length seen + 2 <= fuel)%nat ->
  forall x y, x ∈ _plain_bfs fuel g seen next -> y ∈ neighbours g x ->
              y ∈ _plain_bfs fuel g seen next.
Proof.
  intros Hwf. revert seen next.
  induction fuel as [|fuel IH]; intros seen next Hnd Hseen Hnext Hinv Hfuel; [lia|].
  simpl. destruct next as [|v next].
  { intros x y Hx Hy. destruct (Hinv x y Hx Hy) as [?|?%elem_of_nil]; done. }
  pose proof (bfs_level_spec g (v :: next) seen []) as (H1 & H2 & H3 & H4 & H5 & _).
  unfold bfs_level. cbv zeta in H1, H2, H3, H4, H5.
  destruct (fold_left _ (v :: next) (seen, [])) as [seen' next'] eqn:Hlevel.
  simpl in H1, H2, H3, H4, H5.
  assert (NoDup seen') as Hnd' by auto.
  assert (forall x, x ∈ seen' -> x ∈ node_list g) as Hseen'.
  { intros x [?|?]%H2; auto. }
  assert (forall x, x ∈ next' -> x ∈ node_list g) as Hnext'.
  { intros y [?%elem_of_nil|(x & _ & _ & Hy)]%H3; [done|]. by eapply neighbours_nodes. }
  assert (forall x y, x ∈ seen' -> y ∈ neighbours g x -> y ∈ seen' \/ y ∈ next') as Hinv'.
  { intros x y Hx Hy. destruct (decide (x ∈ seen)) as [Hxs|Hxs].
    - destruct (Hinv x y Hxs Hy) as [?|?]; left; apply H2; auto.
    - right. apply H3. right. eauto. }
  destruct (decide (Forall (fun x => x ∈ seen) (v :: next))) as [Hall|Hsome].
  - rewrite Forall_forall in Hall. specialize (H4 Hall). injection H4 as -> ->.
    intros x y Hx Hy.
    assert (_plain_bfs fuel g seen [] = seen) as Hres by (by destruct fuel).
    rewrite Hres in *. destruct (Hinv' x y Hx Hy) as [?|?%elem_of_nil]; done.
  - apply not_Forall_Exists, Exists_exists in Hsome; [|apply _].
    specialize (H5 Hsome).
    assert (length seen' <= length (node_list g))%nat.
    { apply submseteq_length, NoDup_submseteq; done. }
    apply IH; try done. lia.
Qed.

(** a component holds the neighbours of its nodes, and so every node
    that is connected to one of them *)
Lemma component_closed (g : MultiDiGraph) (v x y : oid) :
  edges_closed g -> v ∈ node_list g ->
  x ∈ _plain_bfs (length (nodes g) + 2) g [] [v] -> y ∈ neighbours g x ->
  y ∈ _plain_bfs (length (nodes g) + 2) g [] [v].
Proof.
  intros Hwf Hv. apply plain_bfs_closed; try done.
  - apply NoDup_nil_2.
  - by intros ? ?%elem_of_nil.
  - by intros ? ->%list_elem_of_singleton.
  - by intros ? ? ?%elem_of_nil.
  - unfold node_list. rewrite length_map. simpl. lia.
Qed.

Lemma group_by_key_keys_complete {A} (l : list (oid * A)) (k : oid) :
  k ∈ map fst l -> k ∈ map fst (group_by_key l).
Proof.
  induction l as [|[k0 a] l IH]; simpl; [done|].
  rewrite !elem_of_cons. intros [->|Hk]; [by left|].
  destruct (decide (k = k0)) as [->|Hne]; [by left|]. right.
  apply IH, list_elem_of_fmap in Hk as (p & -> & Hp).
  apply list_elem_of_fmap. exists p. split; [done|].
  apply list_elem_of_filter. by split.
Qed.

Lemma edge_neighbours (g : MultiDiGraph) (v x : oid) (w : wire) :
  (v, x, w) ∈ edges g \/ (x, v, w) ∈ edges g -> x ∈ neighbours g v.
Proof.
  unfold neighbours, succ, pred. rewrite elem_of_app.
  intros [He|He]; [left|right]; apply group_by_key_keys_complete;
    rewrite map_map; apply list_elem_of_fmap.
  - exists (v, x, w). split; [done|]. by apply list_elem_of_filter.
  - exists (x, v, w). split; [done|]. by apply list_elem_of_filter.
Qed.

(** the search from [v] finds every node connected to [v] *)
Lemma component_complete (g : MultiDiGraph) (v x : oid) :
  edges_closed g -> v ∈ node_list g -> connected g v x ->
  x ∈ _plain_bfs (length (nodes g) + 2) g [] [v].
Proof.
  intros Hwf Hv. induction 1 as [|v y x w _ IH He].
  - replace (length (nodes g) + 2)%nat with (S (length (nodes g) + 1)) by lia.
    apply plain_bfs_source.
  - apply (component_closed g v y x Hwf Hv (IH Hv)).
    by apply (edge_neighbours g y x w).
Qed.

(** a graph whose nodes are all connected to the first one has one
    component *)
Lemma weakly_connected_components_single (g : MultiDiGraph) (v0 : oid) (rest : list oid) :
  edges_closed g -> node_list g = v0 :: rest ->
  (forall u, u ∈ node_list g -> connected g v0 u) ->
  weakly_connected_components g = [_plain_bfs (length (nodes g) + 2) g [] [v0]].
Proof.
  intros Hwf Hnl Hconn. unfold weakly_connected_components. rewrite Hnl. simpl.
  set (c := _plain_bfs (length (nodes g) + 2) g [] [v0]).
  assert (forall u, u ∈ rest -> u ∈ c) as Hrest.
  { intros u Hu. apply component_complete; [done|rewrite Hnl; by left|].
    apply Hconn. rewrite Hnl. by right. }
  clear Hnl Hconn. induction rest as [|u rest IH]; simpl; [done|].
  rewrite bool_decide_eq_true_2 by (apply Hrest; by left).
  apply IH. intros u' Hu'. apply Hrest. by right.
Qed.

(** ** The graph of a tape has its edges between its nodes *)

Lemma add_node_node_list (n : oid) (q : Q) (g : MultiDiGraph) (x : oid) :
  x ∈ node_list (add_node n q g) <-> x ∈ node_list g \/ x = n.
Proof.
  unfold add_node, has_node. case_bool_decide as Hn.
  - assert (node_list (Graph (map (fun p => if bool_decide (p.1 = n) then (n, q) else p)
                                  (nodes g)) (edges g)) = node_list g) as ->.
    { unfold node_list. simpl. rewrite map_map. apply map_ext.
      intros p. by case_bool_decide. }
    split; [auto|]. by intros [?| ->].
  - unfold node_list. simpl. rewrite map_app, elem_of_app. simpl.
    by rewrite list_elem_of_singleton.
Qed.

Lemma link_operations_closed (op : oid) (ws : list wire) (g : MultiDiGraph)
    (wl : gmap wire oid) :
  op ∈ node_list g -> edges_closed g ->
  (forall w n, wl !! w = Some n -> n ∈ node_list g) ->
  let r := fold_left (link_operation op) ws (g, wl) in
  edges_closed r.1 /\ node_list r.1 = node_list g
  /\ (forall w n, r.2 !! w = Some n -> n ∈ node_list g).
Proof.
  cbv zeta. revert g wl. induction ws as [|w ws IH]; intros g wl Hop Hwf Hwl; simpl; [done|].
  set (g1 := match wl !! w with
             | Some parent_op => add_edge parent_op op w g
             | None => g
             end).
  assert (node_list g1 = node_list g) as Hnl by (unfold g1; by destruct (wl !! w)).
  destruct (IH g1 (<[w:=op]> wl)) as (H1 & H2 & H3).
  - by rewrite Hnl.
  - unfold g1. destruct (wl !! w) as [p|] eqn:Hp; [|done].
    intros e. simpl. rewrite elem_of_app, list_elem_of_singleton.
    intros [He| ->]; [by apply Hwf|]. simpl. split; [by eapply Hwl|done].
  - intros w' n. rewrite Hnl. destruct (decide (w = w')) as [->|Hne].
    + rewrite lookup_insert_eq. by intros [= <-].
    + rewrite lookup_insert_ne by done. apply Hwl.
  - split_and!; [done|by rewrite H2|]. intros w' n Hn. rewrite <- Hnl. by eapply H3.
Qed.

Lemma add_operations_closed (h : list object) (l : list (nat * oid)) (g : MultiDiGraph)
    (wl : gmap wire oid) (o : option nat) :
  edges_closed g ->
  (forall w n, wl !! w = Some n -> n ∈ node_list g) ->
  let r := fold_left (add_operation h) l (g, wl, o) in
  edges_closed r.1.1 /\ (forall w n, r.1.2 !! w = Some n -> n ∈ node_list r.1.1).
Proof.
  cbv zeta. revert g wl o. induction l as [|[k op] l IH]; intros g wl o Hwf Hwl; simpl; [done|].
  pose proof (link_operations_closed op (wires h op) (add_node op (Qnat k) g) wl)
    as Hlink.
  destruct (fold_left (link_operation op) (wires h op) (add_node op (Qnat k) g, wl))
    as [g1 wl1]. simpl in Hlink.
  destruct Hlink as (H1 & H2 & H3).
  - apply add_node_node_list. by right.
  - intros e He. destruct (Hwf e) as [Ha Hb].
    { unfold add_node in He. by destruct (has_node g op). }
    split; apply add_node_node_list; by left.
  - intros w n Hn. apply add_node_node_list. left. by eapply Hwl.
  - apply IH; [done|]. intros w n Hn. rewrite H2. by eapply H3.
Qed.

Lemma add_parent_edges_closed (wl : gmap wire oid) (m : oid) (ws : list wire)
    (g g' : MultiDiGraph) :
  edges_closed g -> m ∈ node_list g ->
  (forall w n, wl !! w = Some n -> n ∈ node_list g) ->
  add_parent_edges wl m ws g = Ok g' -> edges_closed g'.
Proof.
  unfold add_parent_edges. revert g.
  induction ws as [|w ws IH]; intros g Hwf Hm Hwl; simpl.
  - by intros [= <-].
  - destruct (wl !! w) as [p|] eqn:Hp; [|done]. simpl. apply IH; [|done..].
    intros e. simpl. rewrite elem_of_app, list_elem_of_singleton.
    intros [He| ->]; [by apply Hwf|]. simpl. split; [by eapply Hwl|done].
Qed.

Lemma tape_to_graph_edges_closed (h h1 : list object) (ops : list oid) (m : oid)
    (g : MultiDiGraph) rt o mw :
  h !! m = Some (MeasurementProcess rt (Some (Single o)) mw) ->
  tape_to_graph (Tape ops [m]) h = Ok (g, h1) ->
  edges_closed g.
Proof.
  intros Hm. unfold tape_to_graph, bind, get_heap. simpl.
  pose proof (add_operations_closed h (enumerate ops) empty_graph ∅ None) as Hloop.
  destruct (fold_left (add_operation h) (enumerate ops) (empty_graph, ∅, None))
    as [[g1 wl] order]. simpl in Hloop.
  destruct Hloop as [Hwf Hwl]; [by intros e ?%elem_of_nil|by intros w n ?|].
  destruct order as [order|]; [|done].
  unfold add_measurement, bind, get_heap. rewrite Hm. unfold lift, ret.
  destruct (add_parent_edges wl m _ _) as [g2|] eqn:Hpar; [|done].
  intros [= <- <-].
  eapply add_parent_edges_closed; [| | |exact Hpar].
  - intros e He. destruct (Hwf e) as [Ha Hb].
    { unfold add_node in He. by destruct (has_node g1 m). }
    split; apply add_node_node_list; by left.
  - apply add_node_node_list. by right.
  - intros w n Hn. apply add_node_node_list. left. by eapply Hwl.
Qed.

(** ** The transform on a connected tape without cut (C2) *)

(** C2, as stated, fails: [H(0); X(1); expval(Z(0))] has no cut, and the
    transform returns two configuration tapes, one per wire. *)
Lemma cut_circuit_two_fragments_without_cut :
  match run (let* tape := two_wire_tape in cut_circuit (R := QSqrt2) tape None) with
  | Ok ((tapes, _), h) =>
      Forall (fun o => match o with Operator (WireCut _) _ => False | _ => True end) h
      /\ tapes = [CTape [(Gate Hadamard, [0])] [(Expectation, Tensor [Obs PauliZ [0]])];
                  CTape [(Gate PauliX, [1])] [(Expectation, Single (Obs Identity [1]))]]
  | Raise _ => False
  end.
Proof. vm_compute. split; [repeat constructor | reflexivity]. Qed.

(** C2, amended: for a tape of gates without cut, with one expectation
    value of [I], [X], [Y] or [Z], whose graph is weakly connected (any
    two nodes are joined by a path of edges, in either direction),
    [cut_circuit] returns exactly one configuration tape, which has the
    operations of the input tape, in order and on their wires, and the
    expectation value of the same observable (as a tensor of one
    factor); the post-processing closure returns the single scalar it
    is given. *)
Theorem cut_circuit_without_cut {R : Type} `{ScalarLaws R}
    (h h1 : list object) (ops : list oid) (ops_v : list (gate * list wire))
    (m : oid) (o : observable) (mw : list wire) (g : MultiDiGraph) :
  NoDup (ops ++ [m]) ->
  ops ≠ [] ->
  Forall2 (fun op v => h !! op = Some (Operator (Gate v.1) v.2)) ops ops_v ->
  h !! m = Some (MeasurementProcess Expectation (Some (Single o)) mw) ->
  is_pauli o = true ->
  obs_wires o ≠ [] ->
  tape_to_graph (Tape ops [m]) h = Ok (g, h1) ->
  (forall u v, u ∈ node_list g -> v ∈ node_list g -> connected g u v) ->
  exists post h',
    cut_circuit (Tape ops [m]) None h
    = Ok (([CTape (map (fun v => (Gate v.1, v.2)) ops_v)
                  [(Expectation, Tensor [o])]], post), h')
    /\ forall r : R, post [[r]] = Ok (NDArray [] [r]).
Proof.
  intros Hnd Hne Hops Hm Hpauli Hw Htg Hconn.
  destruct (tape_to_graph_nodes h h1 ops m g _ _ _ Hnd Hne Hm Htg) as [-> Hnodes].
  assert (node_list g = ops ++ [m]) as Hnl.
  { unfold node_list. rewrite Hnodes, map_app. simpl. f_equal.
    apply fst_zip. by rewrite length_map, length_seq. }
  assert (forall op, op ∈ ops -> exists v, h !! op = Some (Operator (Gate v.1) v.2)) as Hop.
  { intros op [i Hi]%list_elem_of_lookup.
    destruct (Forall2_lookup_l _ _ _ _ _ Hops Hi) as (v & _ & Hv). eauto. }
  assert (forall n, n ∈ node_list g ->
            is_WireCut h n = false /\ is_MeasureNode h n = false) as Hcls.
  { intros n. rewrite Hnl, elem_of_app, list_elem_of_singleton.
    unfold is_WireCut, is_MeasureNode, class_of.
    intros [[v ->]%Hop| ->]; [done|]. by rewrite Hm. }
  unfold cut_circuit, bind. rewrite Htg.
  rewrite remove_wire_cut_nodes_none by (apply Forall_forall; intros n Hn; by apply Hcls).
  unfold get_heap, lift, ret. cbv beta iota.
  rewrite fragment_graph_no_cut by (apply Forall_forall; intros n Hn; by apply Hcls).
  assert (exists c, weakly_connected_components g = [c]) as [c Hwcc].
  { destruct ops as [|op0 ops']; [done|]. eexists.
    apply (weakly_connected_components_single g op0 (ops' ++ [m])); [|done|].
    - by eapply tape_to_graph_edges_closed.
    - intros u Hu. apply Hconn; [|done]. rewrite Hnl. by left. }
  rewrite Hwcc.
  cbn [map mapH]. unfold bind.
  assert (nodes (subgraph g c) = nodes g) as Hsub.
  { apply subgraph_all_nodes. intros v Hv.
    destruct (weakly_connected_components_cover g v Hv) as (c0 & Hc0 & Hvc).
    rewrite Hwcc in Hc0. by apply list_elem_of_singleton in Hc0 as ->. }
  assert (node_list (subgraph g c) = node_list g) as Hsubl.
  { unfold node_list. by rewrite Hsub. }
  destruct (graph_to_tape_plain h (subgraph g c)) as (h' & -> & Hvis).
  { rewrite Hsubl. apply Forall_forall. intros n Hn. by apply Hcls. }
  { rewrite Hsub, Hnodes. apply (tape_nodes_nondecreasing ops m 0). }
  rewrite Hsubl, Hnl.
  assert (filter (fun n => is_measurement h n = false) (ops ++ [m]) = ops) as ->.
  { rewrite filter_app, filter_all, filter_none; [by rewrite app_nil_r| |].
    - intros n ->%list_elem_of_singleton. unfold is_measurement. by rewrite Hm.
    - intros n [v Hv]%Hop. unfold is_measurement. by rewrite Hv. }
  assert (filter (fun n => is_measurement h n = true) (ops ++ [m]) = [m]) as ->.
  { rewrite filter_app, filter_none, filter_all; [done| |].
    - intros n ->%list_elem_of_singleton. unfold is_measurement. by rewrite Hm.
    - intros n [v Hv]%Hop. unfold is_measurement. by rewrite Hv. }
  unfold ret. cbn [mapR].
  assert (exists mw', h' !! m = Some (MeasurementProcess Expectation (Some (Single o)) mw'))
    as [mw' Hm'].
  { pose proof (visible_lookup h h' m Hvis) as Hl. rewrite Hm in Hl.
    destruct (h' !! m) as [[c' ws'|rt' [e'|] ws']|]; simpl in Hl; try done.
    injection Hl as -> ->. eauto. }
  rewrite (expand_fragment_tapes_plain h' ops ops_v m o mw'); [| |done..].
  - simpl. eexists _, h'. split; [reflexivity|].
    intros r. apply contract_single_scalar.
  - eapply Forall2_impl; [exact Hops|]. intros op v Hv.
    by apply (visible_operator h h').
Qed.

Lemma cut_circuit_without_cut_witness :
  exists post h',
    cut_circuit (R := QSqrt2) bell_tape None bell_heap
    = Ok (([CTape [(Gate Hadamard, [0]); (Gate CNOT, [0; 1])]
                  [(Expectation, Tensor [Obs PauliZ [0]])]], post), h')
    /\ forall r : QSqrt2, post [[r]] = Ok (NDArray [] [r]).
Proof.
  refine (cut_circuit_without_cut bell_heap bell_heap [0%nat; 1%nat]
            [(Hadamard, [0]); (CNOT, [0; 1])] 2%nat (Obs PauliZ [0]) [] bell_graph
            _ _ _ _ _ _ _ _).
  - apply (bool_decide_unpack _). vm_compute. exact I.
  - discriminate.
  - repeat constructor.
  - reflexivity.
  - reflexivity.
  - discriminate.
  - vm_compute. reflexivity.
  - apply (weakly_connected_components_connected bell_graph [0%nat; 1%nat; 2%nat]).
    vm_compute. left.
Defined.

(** * More of the pipeline

    ** _find_new_wire *)

Lemma find_new_wire_from_ge (fuel : nat) (ctr : Z) (ws : list wire) :
  ctr <= find_new_wire_from fuel ctr ws.
Proof.
  revert ctr. induction fuel as [|fuel IH]; intros ctr; simpl; [lia|].
  case_bool_decide; [|lia]. specialize (IH (ctr + 1)). lia.
Qed.

Lemma find_new_wire_from_below (fuel : nat) (ctr : Z) (ws : list wire) (k : Z) :
  ctr <= k < find_new_wire_from fuel ctr ws -> k ∈ ws.
Proof.
  revert ctr. induction fuel as [|fuel IH]; intros ctr; simpl; [lia|].
  case_bool_decide as Hin; [|lia].
  intros Hk. destruct (decide (k = ctr)) as [->|Hne]; [done|].
  apply (IH (ctr + 1)). lia.
Qed.

(** X1: [_find_new_wire] returns the least non-negative integer that is
    not a label of [wires]. *)
Theorem find_new_wire_least (ws : list wire) :
  0 <= _find_new_wire ws
  /\ (_find_new_wire ws ∉ ws)
  /\ forall k, 0 <= k < _find_new_wire ws -> k ∈ ws.
Proof.
  split_and!.
  - apply find_new_wire_from_ge.
  - apply find_new_wire_fresh.
  - intros k. apply find_new_wire_from_below.
Qed.

(** ** graph_to_tape *)

Lemma set__wires_idem (ws ws' : list wire) (o : object) :
  set__wires ws (set__wires ws' o) = set__wires ws o.
Proof. by destruct o. Qed.

Lemma erased_lookup (h h' : list object) (n : oid) :
  map (set__wires []) h' = map (set__wires []) h ->
  set__wires [] <$> h' !! n = set__wires [] <$> h !! n.
Proof.
  intros Heq.
  change (set__wires [] <$> h' !! n) with (fmap (M := option) (set__wires []) (h' !! n)).
  rewrite <- !list_lookup_fmap.
  change (set__wires [] <$> h') with (map (set__wires []) h').
  change (set__wires [] <$> h) with (map (set__wires []) h).
  by rewrite Heq.
Qed.

Lemma erased_is_measurement (h h' : list object) (n : oid) :
  map (set__wires []) h' = map (set__wires []) h ->
  is_measurement h' n = is_measurement h n.
Proof.
  intros Heq. pose proof (erased_lookup h h' n Heq) as Hn. unfold is_measurement.
  destruct (h' !! n) as [[]|], (h !! n) as [[]|]; simpl in Hn; congruence.
Qed.

Lemma erased_class_of (h h' : list object) (n : oid) :
  map (set__wires []) h' = map (set__wires []) h ->
  class_of h' n = class_of h n.
Proof.
  intros Heq. pose proof (erased_lookup h h' n Heq) as Hn. unfold class_of.
  destruct (h' !! n) as [[]|], (h !! n) as [[]|]; simpl in Hn; congruence.
Qed.

(** one step of the loop: the object keeps everything but [_wires], no
    other object is touched, and the node is queued *)
Lemma lower_node_step (tape tape' : QuantumTape) (ws ws' : list wire)
    (wm wm' : gmap wire wire) (x : Q * oid) (hk hk' : list object) :
  lower_node (tape, ws, wm) x hk = Ok ((tape', ws', wm'), hk') ->
  map (set__wires []) hk' = map (set__wires []) hk
  /\ (forall n, n ≠ x.2 -> hk' !! n = hk !! n)
  /\ tape' = if is_measurement hk x.2
             then Tape (operations tape) (measurements tape ++ [x.2])
             else Tape (operations tape ++ [x.2]) (measurements tape).
Proof.
  destruct x as [q op]. unfold lower_node, bind, get_heap, lift, assign__wires. simpl.
  destruct (mapR _ (wires hk op)) as [nw|e]; [|discriminate].
  assert (exists h1, (match hk !! op with
                      | Some o => Ok (tt, <[op := set__wires nw o]> hk)
                      | None => Ok (tt, hk)
                      end) = Ok (tt, h1)
                     /\ map (set__wires []) h1 = map (set__wires []) hk
                     /\ (forall n, n ≠ op -> h1 !! n = hk !! n)
                     /\ is_measurement h1 op = is_measurement hk op)
    as (h1 & -> & Herased & Hframe & Hm).
  { destruct (hk !! op) as [o|] eqn:Ho; [|by exists hk].
    eexists; split; [reflexivity|]. split_and!.
    - change (map (set__wires [])) with (fmap (M := list) (set__wires [])).
      rewrite list_fmap_insert, set__wires_idem.
      apply list_insert_id. by rewrite list_lookup_fmap, Ho.
    - intros n Hn. by apply list_lookup_insert_ne.
    - unfold is_measurement. rewrite Ho.
      rewrite list_lookup_insert_eq by (by eapply lookup_lt_Some).
      by destruct o. }
  rewrite Hm.
  destruct (is_MeasureNode h1 op).
  - destruct (wires h1 op) as [|mw ?]; [discriminate|].
    unfold ret. intros [= <- <- <- <-]. done.
  - unfold ret. intros [= <- <- <- <-]. done.
Qed.

Lemma lower_nodes_steps (l : list (Q * oid)) (tape tape' : QuantumTape)
    (ws ws' : list wire) (wm wm' : gmap wire wire) (hk hk' : list object) :
  foldH lower_node l (tape, ws, wm) hk = Ok ((tape', ws', wm'), hk') ->
  map (set__wires []) hk' = map (set__wires []) hk
  /\ (forall n, n ∉ map snd l -> hk' !! n = hk !! n)
  /\ operations tape'
     = operations tape ++ filter (fun n => is_measurement hk n = false) (map snd l)
  /\ measurements tape'
     = measurements tape ++ filter (fun n => is_measurement hk n = true) (map snd l).
Proof.
  revert tape ws wm hk.
  induction l as [|x l IH]; intros tape ws wm hk; cbn [foldH].
  - unfold ret. intros [= <- <- <- <-]. simpl. by rewrite !app_nil_r.
  - unfold bind at 1.
    destruct (lower_node (tape, ws, wm) x hk) as [[[[t1 ws1] wm1] h1]|e] eqn:Hstep;
      [|discriminate].
    intros Hrest. apply lower_node_step in Hstep as (He1 & Hf1 & ->).
    apply IH in Hrest as (He2 & Hf2 & Hops & Hms).
    split_and!.
    + by rewrite He2.
    + intros n Hn. simpl in Hn. rewrite not_elem_of_cons in Hn.
      destruct Hn as [Hne Hn]. rewrite Hf2 by done. by apply Hf1.
    + rewrite Hops. cbn [map].
      rewrite (list_filter_iff _ (fun n => is_measurement hk n = false) (map snd l))
        by (intros n; by rewrite (erased_is_measurement hk h1)).
      destruct (is_measurement hk x.2) eqn:Hm; simpl.
      * rewrite filter_cons_False by (rewrite Hm; discriminate). done.
      * rewrite filter_cons_True by done. by rewrite <- app_assoc.
    + rewrite Hms. cbn [map].
      rewrite (list_filter_iff _ (fun n => is_measurement hk n = true) (map snd l))
        by (intros n; by rewrite (erased_is_measurement hk h1)).
      destruct (is_measurement hk x.2) eqn:Hm; simpl.
      * rewrite filter_cons_True by done. by rewrite <- app_assoc.
      * rewrite filter_cons_False by (rewrite Hm; discriminate). done.
Qed.

Lemma graph_to_tape_steps (g : MultiDiGraph) (h h' : list object) (tape : QuantumTape) :
  graph_to_tape g h = Ok (tape, h') ->
  let ordered := sorted_by_order (map (fun '(op, order) => (order, op)) (nodes g)) in
  map (set__wires []) h' = map (set__wires []) h
  /\ (forall n, n ∉ map snd ordered -> h' !! n = h !! n)
  /\ operations tape = filter (fun n => is_measurement h n = false) (map snd ordered)
  /\ measurements tape = filter (fun n => is_measurement h n = true) (map snd ordered).
Proof.
  unfold graph_to_tape, bind, get_heap.
  destruct (foldH lower_node _ _ h) as [[[[t1 ws1] wm1] h1]|e] eqn:Hloop; [|discriminate].
  unfold ret. intros [= <- <-]. cbv zeta.
  by apply lower_nodes_steps in Hloop.
Qed.

Lemma sorted_nodes_elem (g : MultiDiGraph) (n : oid) :
  n ∈ map snd (sorted_by_order (map (fun '(op, order) => (order, op)) (nodes g)))
  <-> n ∈ node_list g.
Proof.
  unfold node_list.
  change (map snd) with (fmap (M := list) (@snd Q nat)).
  change (map fst) with (fmap (M := list) (@fst nat Q)).
  rewrite !list_elem_of_fmap. split.
  - intros ([q n'] & -> & Hin). apply (proj1 (sorted_by_order_elem _ _)) in Hin.
    apply list_elem_of_fmap in Hin as ([n'' q'] & [= -> ->] & Hin).
    by exists (n'', q').
  - intros ([n' q] & -> & Hin). exists (q, n'). split; [done|].
    apply (proj2 (sorted_by_order_elem _ _)).
    apply list_elem_of_fmap. by exists (n', q).
Qed.

(** X2: [graph_to_tape] changes nothing but the [_wires] attribute of
    objects, and only of the objects that are nodes of the graph. *)
Theorem graph_to_tape_frame (g : MultiDiGraph) (h h' : list object) (tape : QuantumTape) :
  graph_to_tape g h = Ok (tape, h') ->
  Forall2 (fun o o' => exists ws, o' = set__wires ws o) h h'
  /\ (forall n, n ∉ node_list g -> h' !! n = h !! n).
Proof.
  intros Hrun. apply graph_to_tape_steps in Hrun as (Herased & Hframe & _ & _).
  split.
  - apply Forall2_same_length_lookup_2.
    + rewrite <- (length_map (set__wires []) h), <- Herased. by rewrite length_map.
    + intros n o o' Ho Ho'. pose proof (erased_lookup h h' n Herased) as Hn.
      rewrite Ho, Ho' in Hn. simpl in Hn. injection Hn as Hn.
      destruct o as [c ws|rt e ws], o' as [c' ws'|rt' e' ws']; simpl in Hn;
        try discriminate; simplify_eq; exists ws'; reflexivity.
  - intros n Hn. apply Hframe. by rewrite sorted_nodes_elem.
Qed.

Lemma Qlt_bool_true (x y : Q) : Qlt_bool x y = true <-> (x < y)%Q.
Proof.
  unfold Qlt_bool. rewrite negb_true_iff. split.
  - intros Hle. apply Qnot_le_lt. intros Hyx. apply Qle_bool_iff in Hyx. congruence.
  - intros Hlt. destruct (Qle_bool y x) eqn:Hle; [|done].
    apply Qle_bool_iff in Hle. by apply Qlt_not_le in Hlt.
Qed.

Lemma Qlt_bool_false (x y : Q) : Qlt_bool x y = false <-> (y <= x)%Q.
Proof.
  unfold Qlt_bool. rewrite negb_false_iff. apply Qle_bool_iff.
Qed.

Lemma insert_by_order_perm (x : Q * oid) (l : list (Q * oid)) :
  insert_by_order x l ≡ₚ x :: l.
Proof.
  induction l as [|y l IH]; simpl; [done|].
  destruct (Qlt_bool x.1 y.1); [done|]. rewrite IH. apply Permutation_swap.
Qed.

Lemma sorted_by_order_perm (l : list (Q * oid)) : sorted_by_order l ≡ₚ l.
Proof.
  unfold sorted_by_order.
  assert (forall acc, fold_left (fun acc x => insert_by_order x acc) l acc ≡ₚ l ++ acc)
    as Hgen.
  { induction l as [|x l IH]; intros acc; simpl; [done|].
    rewrite IH, insert_by_order_perm. by rewrite Permutation_middle. }
  rewrite Hgen. by rewrite app_nil_r.
Qed.

Lemma insert_by_order_sorted (x : Q * oid) (l : list (Q * oid)) :
  nondecreasing l -> nondecreasing (insert_by_order x l).
Proof.
  induction 1 as [|y l Hy Hl IH]; simpl.
  - constructor; [constructor|constructor].
  - destruct (Qlt_bool x.1 y.1) eqn:Hxy.
    + constructor; [|by constructor].
      apply Qlt_bool_true in Hxy. constructor.
      * apply Qlt_bool_false. by apply Qlt_le_weak.
      * eapply Forall_impl; [exact Hy|]. intros z Hz. simpl in Hz.
        apply Qlt_bool_false in Hz. apply Qlt_bool_false.
        apply Qlt_le_weak. eapply Qlt_le_trans; [exact Hxy|exact Hz].
    + constructor; [|exact IH].
      apply Forall_forall. intros z Hz. apply insert_by_order_elem in Hz as [->|Hz]; [done|].
      rewrite Forall_forall in Hy. by apply Hy.
Qed.

Lemma sorted_by_order_sorted (l : list (Q * oid)) : nondecreasing (sorted_by_order l).
Proof.
  unfold sorted_by_order.
  assert (forall acc, nondecreasing acc ->
            nondecreasing (fold_left (fun acc x => insert_by_order x acc) l acc)) as Hgen.
  { induction l as [|x l IH]; intros acc Hacc; simpl; [done|].
    by apply IH, insert_by_order_sorted. }
  apply Hgen. constructor.
Qed.

(** X3: [graph_to_tape] queues every node of the graph once, in
    nondecreasing [order]; the measurement processes make the
    measurements of the tape and all other nodes its operations. *)
Theorem graph_to_tape_order (g : MultiDiGraph) (h h' : list object) (tape : QuantumTape) :
  graph_to_tape g h = Ok (tape, h') ->
  exists ordered,
    ordered ≡ₚ map (fun '(op, order) => (order, op)) (nodes g)
    /\ nondecreasing ordered
    /\ operations tape = filter (fun n => is_measurement h n = false) (map snd ordered)
    /\ measurements tape = filter (fun n => is_measurement h n = true) (map snd ordered).
Proof.
  intros Hrun. apply graph_to_tape_steps in Hrun as (_ & _ & Hops & Hms).
  eexists. split_and!; [apply sorted_by_order_perm|apply sorted_by_order_sorted|done|done].
Qed.


Lemma graph_to_tape_frame_witness :
  exists tape h',
    graph_to_tape cnot_cut_fragment cnot_cut_heap = Ok (tape, h')
    /\ Forall2 (fun o o' => exists ws, o' = set__wires ws o) cnot_cut_heap h'
    /\ (forall n, n ∉ node_list cnot_cut_fragment -> h' !! n = cnot_cut_heap !! n).
Proof.
  assert (exists r, graph_to_tape cnot_cut_fragment cnot_cut_heap = Ok r)
    as [[tape h'] Hrun] by (eexists; vm_compute; reflexivity).
  exists tape, h'. split; [exact Hrun|].
  exact (graph_to_tape_frame _ _ _ _ Hrun).
Defined.

Lemma graph_to_tape_order_witness :
  exists tape h' ordered,
    graph_to_tape cnot_cut_fragment cnot_cut_heap = Ok (tape, h')
    /\ ordered ≡ₚ map (fun '(op, order) => (order, op)) (nodes cnot_cut_fragment)
    /\ nondecreasing ordered
    /\ operations tape
       = filter (fun n => is_measurement cnot_cut_heap n = false) (map snd ordered)
    /\ measurements tape
       = filter (fun n => is_measurement cnot_cut_heap n = true) (map snd ordered).
Proof.
  assert (exists r, graph_to_tape cnot_cut_fragment cnot_cut_heap = Ok r)
    as [[tape h'] Hrun] by (eexists; vm_compute; reflexivity).
  destruct (graph_to_tape_order _ _ _ _ Hrun) as (ordered & Hordered).
  exists tape, h', ordered. split; [exact Hrun|exact Hordered].
Defined.

(** ** Wire-cut removal *)

Lemma is_WireCut_extend (h new : list object) (n : oid) :
  Forall cut_node_object new -> is_WireCut (h ++ new) n = is_WireCut h n.
Proof.
  intros Hnew. unfold is_WireCut, class_of.
  destruct (decide (n < length h)%nat) as [Hlt|Hge].
  - by rewrite lookup_app_l.
  - rewrite lookup_app_r by lia. rewrite (lookup_ge_None_2 h n) by lia.
    destruct (new !! (n - length h)%nat) as [o|] eqn:Ho; [|done].
    rewrite Forall_forall in Hnew. specialize (Hnew o (list_elem_of_lookup_2 _ _ _ Ho)).
    by destruct o as [[| | |] [|? [|? ?]]|].
Qed.

Lemma expand_cut_loop (mc pc : opclass) (ws : list wire) (ops : list oid)
    (hk : list object) :
  cut_node_object (Operator mc [0]) -> cut_node_object (Operator pc [0]) ->
  exists ids new,
    foldH (fun ops wire =>
      let* m := alloc (Operator mc [wire]) in
      let* p := alloc (Operator pc [wire]) in
      ret (ops ++ [m; p])) ws ops hk = Ok (ops ++ ids, hk ++ new)
    /\ Forall cut_node_object new
    /\ Forall (fun n => length hk <= n)%nat ids.
Proof.
  intros Hmc Hpc. revert ops hk.
  induction ws as [|w ws IH]; intros ops hk; cbn [foldH].
  - exists [], []. by rewrite !app_nil_r.
  - unfold bind at 1. unfold bind at 1. unfold alloc at 1. unfold bind at 1.
    unfold alloc at 1. unfold ret at 1.
    destruct (IH (ops ++ [length hk; length (hk ++ [Operator mc [w]])])
                 ((hk ++ [Operator mc [w]]) ++ [Operator pc [w]]))
      as (ids & new & -> & Hnew & Hids).
    exists ([length hk; length (hk ++ [Operator mc [w]])] ++ ids),
           ([Operator mc [w]; Operator pc [w]] ++ new).
    split_and!.
    + by rewrite <- !app_assoc.
    + apply Forall_app. split; [|done].
      repeat constructor; by destruct mc, pc.
    + apply Forall_app. split.
      * repeat constructor. rewrite length_app. lia.
      * eapply Forall_impl; [exact Hids|]. intros n. simpl. rewrite !length_app. simpl. lia.
Qed.

(** [expand_cut] only allocates measure and prepare nodes *)
Lemma expand_cut_new (node : oid) (h : list object) :
  exists t new,
    expand_cut node h = Ok (t, h ++ new)
    /\ Forall cut_node_object new
    /\ Forall (fun n => length h <= n)%nat (operations t).
Proof.
  unfold expand_cut. unfold bind at 1. unfold get_heap at 1.
  set (cls := match class_of h node with
              | Some (WireCut (Some (mt, pt))) => (MeasureNode mt, PrepareNode pt)
              | _ => (SimpleMeasureNode, SimplePrepareNode)
              end).
  assert (cut_node_object (Operator cls.1 [0]) /\ cut_node_object (Operator cls.2 [0]))
    as [Hm Hp].
  { subst cls. by destruct (class_of h node) as [[|[[??]|]| |]|]. }
  destruct cls as [mc pc]. simpl in Hm, Hp.
  unfold bind at 1.
  destruct (expand_cut_loop mc pc (wires h node) [] h Hm Hp) as (ids & new & -> & Hnew & Hids).
  exists (Tape ids []), new. by unfold ret.
Qed.

Lemma add_node_other (m n : oid) (o q : Q) (g : MultiDiGraph) :
  n ≠ m -> (n, q) ∈ nodes (add_node m o g) <-> (n, q) ∈ nodes g.
Proof.
  intros Hne. unfold add_node. destruct (has_node g m); simpl.
  - change (map ?f) with (fmap (M := list) f). rewrite list_elem_of_fmap. split.
    + intros ([n' q'] & Heq & Hin). simpl in Heq. case_bool_decide; simplify_eq. done.
    + intros Hin. exists (n, q). split; [|done]. simpl. by rewrite bool_decide_eq_false_2.
  - rewrite elem_of_app, list_elem_of_singleton. split; [|by left].
    intros [Hin|[= ? ?]]; [done|congruence].
Qed.

Lemma grid_entry (h : list object) (t : QuantumTape) (i : nat) (l : list oid) (n : oid) :
  _grid h t !! i = Some l -> n ∈ l -> n ∈ operations t.
Proof.
  unfold _grid. change (map ?f) with (fmap (M := list) f). rewrite list_lookup_fmap.
  destruct (tape_wires h t !! i) as [w|]; [|done]. simpl.
  intros [= <-]. by intros [_ ?]%list_elem_of_filter.
Qed.

(** removing one cut: the objects there were stay as they are, the new
    ones are measure and prepare nodes, and the other nodes of the graph
    keep their [order] *)
Lemma remove_wire_cut_node_nodes (node : oid) (g g' : MultiDiGraph) (h h' : list object) :
  remove_wire_cut_node node g h = Ok (g', h') ->
  (exists new, h' = h ++ new /\ Forall cut_node_object new)
  /\ forall n q, (n < length h)%nat ->
       (n, q) ∈ nodes g' <-> (n, q) ∈ nodes g /\ n ≠ node.
Proof.
  unfold remove_wire_cut_node.
  unfold bind at 1. unfold bind at 1. unfold get_heap at 1. unfold ret at 1.
  unfold bind at 1.
  destruct (expand_cut_new node h) as (t & new & -> & Hnew & Hids).
  unfold bind at 1. unfold get_heap at 1.
  destruct (order_of g node) as [order|]; [|discriminate].
  unfold bind at 1.
  match goal with
  | |- context [foldH ?f ?l ?a ?hh] =>
      assert (forall l' gk added r h1,
                (forall n q, (n < length h)%nat ->
                   (n, q) ∈ nodes gk <-> (n, q) ∈ nodes g /\ n ≠ node) ->
                foldH f l' (gk, added) hh = Ok (r, h1) ->
                h1 = hh
                /\ forall n q, (n < length h)%nat ->
                     (n, q) ∈ nodes r.1 <-> (n, q) ∈ nodes g /\ n ≠ node) as Hloop
  end.
  { induction l' as [|wire l' IH]; intros gk added r h1 Hinv; cbn [foldH].
    - unfold ret. intros [= <- <-]. done.
    - unfold bind at 1.
      destruct (index wire (tape_wires (h ++ new) t) ≫= _) as [[|meas [|prep [|? ?]]]|] eqn:Hgrid;
        try discriminate.
      apply bind_Some in Hgrid as (i & _ & Hgrid).
      assert (length h <= meas)%nat as Hmeas.
      { rewrite Forall_forall in Hids. eapply Hids, grid_entry; [exact Hgrid|]. by constructor. }
      assert (length h <= prep)%nat as Hprep.
      { rewrite Forall_forall in Hids. eapply Hids, grid_entry; [exact Hgrid|].
        by do 2 constructor. }
      set (st1 := if bool_decide (meas ∈ added) then (gk, added)
                  else (add_node meas order gk, meas :: added)).
      assert (forall n q, (n < length h)%nat ->
                (n, q) ∈ nodes st1.1 <-> (n, q) ∈ nodes g /\ n ≠ node) as Hinv1.
      { intros n q Hn. subst st1. case_bool_decide; simpl; [by apply Hinv|].
        rewrite add_node_other by lia. by apply Hinv. }
      destruct st1 as [g1 added1]. simpl in Hinv1.
      set (st2 := if bool_decide (prep ∈ added1) then (g1, added1)
                  else (add_node prep (order + (1 # 2))%Q g1, prep :: added1)).
      assert (forall n q, (n < length h)%nat ->
                (n, q) ∈ nodes st2.1 <-> (n, q) ∈ nodes g /\ n ≠ node) as Hinv2.
      { intros n q Hn. subst st2. case_bool_decide; simpl; [by apply Hinv1|].
        rewrite add_node_other by lia. by apply Hinv1. }
      destruct st2 as [g2 added2]. simpl in Hinv2.
      unfold ret at 1. apply IH.
      intros n q Hn. rewrite <- (Hinv2 n q Hn).
      by destruct (on_wire (pred g node) !! wire), (on_wire (succ g node) !! wire). }
  destruct (foldH _ _ _ (h ++ new)) as [[r h1]|e] eqn:Hfold; [|discriminate].
  unfold ret. intros [= <- <-]. destruct r as [gk added].
  apply Hloop in Hfold as [-> Hinv].
  - split; [by exists new|]. exact Hinv.
  - intros n q Hn. unfold remove_node. simpl. rewrite list_elem_of_filter. simpl. tauto.
Qed.

(** the loop over the nodes: the heap only grows by measure and prepare
    nodes, and a node that is an object of the first heap is there at
    the end exactly when the loop has not removed it as a cut *)
Lemma remove_wire_cut_nodes_loop (h : list object) (g : MultiDiGraph)
    (l done : list oid) (gk g' : MultiDiGraph) (hk h' : list object) :
  (exists new, hk = h ++ new /\ Forall cut_node_object new) ->
  (forall n q, (n < length h)%nat ->
     (n, q) ∈ nodes gk <-> (n, q) ∈ nodes g /\ ~ (n ∈ done /\ is_WireCut h n = true)) ->
  foldH (fun graph op =>
    let* h := get_heap in
    if is_WireCut h op then remove_wire_cut_node op graph else ret graph) l gk hk
  = Ok (g', h') ->
  (exists new, h' = h ++ new /\ Forall cut_node_object new)
  /\ forall n q, (n < length h)%nat ->
       (n, q) ∈ nodes g' <-> (n, q) ∈ nodes g /\ ~ (n ∈ done ++ l /\ is_WireCut h n = true).
Proof.
  revert done gk hk.
  induction l as [|op l IH]; intros done gk hk Hheap Hinv; cbn [foldH].
  - unfold ret. intros [= <- <-]. by rewrite app_nil_r.
  - unfold bind at 1. unfold bind at 1. unfold get_heap at 1.
    destruct Hheap as (new & -> & Hnew).
    rewrite is_WireCut_extend by done.
    replace (done ++ op :: l) with ((done ++ [op]) ++ l) by by rewrite <- app_assoc.
    destruct (is_WireCut h op) eqn:Hcut.
    + destruct (remove_wire_cut_node op gk (h ++ new)) as [[g1 h1]|e] eqn:Hstep;
        [|discriminate].
      apply remove_wire_cut_node_nodes in Hstep as [(new1 & -> & Hnew1) Hstep].
      apply IH.
      * exists (new ++ new1). rewrite app_assoc. split; [done|]. by apply Forall_app.
      * intros n q Hn. rewrite Hstep by (rewrite length_app; lia).
        rewrite (Hinv n q Hn), elem_of_app, list_elem_of_singleton.
        split.
        -- intros [[Hg Hdone] Hne]. split; [done|]. intros [[?|?] ?]; [tauto|done].
        -- intros [Hg Hdone]. split; [split; [done|tauto]|].
           intros ->. tauto.
    + unfold ret at 1. apply IH; [by exists new|].
      intros n q Hn. rewrite (Hinv n q Hn), elem_of_app, list_elem_of_singleton.
      split.
      * intros [Hg Hdone]. split; [done|]. intros [[?| ->] ?]; [tauto|congruence].
      * intros [Hg Hdone]. split; [done|]. tauto.
Qed.

Lemma remove_wire_cut_nodes_nodes (g g' : MultiDiGraph) (h h' : list object) :
  remove_wire_cut_nodes g h = Ok (g', h') ->
  (exists new, h' = h ++ new /\ Forall cut_node_object new)
  /\ forall n q, (n < length h)%nat ->
       (n, q) ∈ nodes g' <-> (n, q) ∈ nodes g /\ is_WireCut h n = false.
Proof.
  intros Hrun. unfold remove_wire_cut_nodes in Hrun.
  apply (remove_wire_cut_nodes_loop h g _ []) in Hrun as [Hheap Hinv].
  - split; [done|]. intros n q Hn. rewrite (Hinv n q Hn). simpl.
    split; intros [Hg Hcut]; (split; [done|]).
    + destruct (is_WireCut h n); [|done]. exfalso. apply Hcut. split; [|done].
      unfold node_list. change (map ?f) with (fmap (M := list) f).
      apply list_elem_of_fmap. by exists (n, q).
    + rewrite Hcut. intros [_ ?]. discriminate.
  - exists []. by rewrite app_nil_r.
  - intros n q Hn. split; [|tauto]. intros Hg. split; [done|].
    intros [?%elem_of_nil _]. done.
Qed.

(** X4: when [remove_wire_cut_nodes] returns, no node of the graph is a
    [WireCut]; the objects that were there are as they were, and the
    objects made on the way are measure and prepare nodes on one wire. *)
Theorem remove_wire_cut_nodes_no_WireCut (g g' : MultiDiGraph) (h h' : list object) :
  remove_wire_cut_nodes g h = Ok (g', h') ->
  Forall (fun n => is_WireCut h' n = false) (node_list g')
  /\ exists new, h' = h ++ new /\ Forall cut_node_object new.
Proof.
  intros Hrun. apply remove_wire_cut_nodes_nodes in Hrun as [(new & -> & Hnew) Hinv].
  split; [|by exists new].
  apply Forall_forall. intros n Hn. rewrite is_WireCut_extend by done.
  unfold node_list in Hn. change (map ?f) with (fmap (M := list) f) in Hn.
  apply list_elem_of_fmap in Hn as ([n' q] & -> & Hn). simpl.
  destruct (decide (n' < length h)%nat) as [Hlt|Hge].
  - by apply Hinv in Hn as [_ ?].
  - unfold is_WireCut, class_of. by rewrite lookup_ge_None_2 by lia.
Qed.

(** X5: [remove_wire_cut_nodes] removes the [WireCut] nodes and nothing
    else: a node that is not a [WireCut] stays in the graph with the
    [order] it had, and no other node of the first heap is in the graph
    it leaves. *)
Theorem remove_wire_cut_nodes_keeps_nodes (g g' : MultiDiGraph) (h h' : list object)
    (n : oid) (q : Q) :
  remove_wire_cut_nodes g h = Ok (g', h') ->
  (n < length h)%nat ->
  (n, q) ∈ nodes g' <-> (n, q) ∈ nodes g /\ is_WireCut h n = false.
Proof.
  intros Hrun Hn. apply remove_wire_cut_nodes_nodes in Hrun as [_ Hinv]. by apply Hinv.
Qed.

Lemma remove_wire_cut_nodes_no_WireCut_witness :
  remove_wire_cut_nodes cnot_cut_cnot_graph cnot_cut_cnot_heap
  = Ok (cnot_cut_graph, cnot_cut_heap)
  /\ Forall (fun n => is_WireCut cnot_cut_heap n = false) (node_list cnot_cut_graph)
  /\ exists new, cnot_cut_heap = cnot_cut_cnot_heap ++ new /\ Forall cut_node_object new.
Proof.
  assert (remove_wire_cut_nodes cnot_cut_cnot_graph cnot_cut_cnot_heap
          = Ok (cnot_cut_graph, cnot_cut_heap)) as Hrun by (vm_compute; reflexivity).
  split; [exact Hrun|]. exact (remove_wire_cut_nodes_no_WireCut _ _ _ _ Hrun).
Defined.

Lemma remove_wire_cut_nodes_keeps_nodes_witness :
  remove_wire_cut_nodes cnot_cut_cnot_graph cnot_cut_cnot_heap
  = Ok (cnot_cut_graph, cnot_cut_heap)
  /\ (2 < length cnot_cut_cnot_heap)%nat
  /\ ((2%nat, Qnat 2) ∈ nodes cnot_cut_graph
      <-> (2%nat, Qnat 2) ∈ nodes cnot_cut_cnot_graph
          /\ is_WireCut cnot_cut_cnot_heap 2 = false).
Proof.
  assert (remove_wire_cut_nodes cnot_cut_cnot_graph cnot_cut_cnot_heap
          = Ok (cnot_cut_graph, cnot_cut_heap)) as Hrun by (vm_compute; reflexivity).
  assert (2 < length cnot_cut_cnot_heap)%nat as Hlt by (simpl; lia).
  split; [exact Hrun|]. split; [exact Hlt|].
  exact (remove_wire_cut_nodes_keeps_nodes _ _ _ _ 2%nat (Qnat 2) Hrun Hlt).
Defined.

(** ** Fragmenter: the fragments and the communication graph *)

Lemma edge_list_edges (g : MultiDiGraph) (e : oid * oid * wire) :
  e ∈ edge_list g -> e ∈ edges g.
Proof.
  unfold edge_list. intros (l & Hl & He)%elem_of_concat.
  change (map ?f) with (fmap (M := list) f) in Hl.
  apply list_elem_of_fmap in Hl as (u & -> & _).
  apply elem_of_concat in He as (l & Hl & He).
  change (map ?f) with (fmap (M := list) f) in Hl.
  apply list_elem_of_fmap in Hl as ([v ws] & -> & Hv).
  change (map ?f) with (fmap (M := list) f) in He.
  apply list_elem_of_fmap in He as (w & -> & Hw).
  unfold succ in Hv.
  assert (w ∈ concat (map snd (filter (fun p => fst p = v)
            (group_by_key (map (fun e => (e.1.2, e.2))
               (filter (fun e => e.1.1 = u) (edges g))))))) as Hin.
  { apply elem_of_concat. exists ws. split; [|done].
    change (map ?f) with (fmap (M := list) f).
    apply list_elem_of_fmap. exists (v, ws). split; [done|].
    by apply list_elem_of_filter. }
  rewrite group_by_key_values in Hin.
  change (map ?f) with (fmap (M := list) f) in Hin.
  apply list_elem_of_fmap in Hin as ([v' w'] & -> & Hin).
  apply list_elem_of_filter in Hin as [Hv' Hin]. simpl in Hv'. subst v'.
  apply list_elem_of_fmap in Hin as ([[u' v'] w''] & [= -> ->] & Hin).
  apply list_elem_of_filter in Hin as [Hu Hin]. simpl in Hu. by subst u'.
Qed.

Lemma without_cut_edges_closed (h : list object) (g : MultiDiGraph) :
  edges_closed g -> edges_closed (without_cut_edges h g).
Proof.
  intros Hwf e He. simpl in He. apply list_elem_of_filter in He as [_ He].
  by apply Hwf.
Qed.

Lemma has_node_subgraph (g : MultiDiGraph) (c : list oid) (v : oid) :
  has_node (subgraph g c) v = true <-> v ∈ node_list g /\ v ∈ c.
Proof.
  unfold has_node. rewrite bool_decide_eq_true. unfold node_list, subgraph. simpl.
  change (map ?f) with (fmap (M := list) f). rewrite !list_elem_of_fmap. split.
  - intros ([v' q] & -> & Hin). apply list_elem_of_filter in Hin as [Hc Hin].
    split; [by exists (v', q)|done].
  - intros [([v' q] & -> & Hin) Hc]. exists (v', q). split; [done|].
    by apply list_elem_of_filter.
Qed.

(** no node is in two components *)
Lemma weakly_connected_components_disjoint (g : MultiDiGraph) (i j : nat)
    (ci cj : list oid) (v : oid) :
  edges_closed g ->
  weakly_connected_components g !! i = Some ci ->
  weakly_connected_components g !! j = Some cj ->
  v ∈ ci -> v ∈ cj -> i = j.
Proof.
  intros Hwf. unfold weakly_connected_components.
  assert (forall l seen comps,
    (forall x, x ∈ l -> x ∈ node_list g) ->
    (forall c, c ∈ comps -> exists src, src ∈ node_list g
        /\ c = _plain_bfs (length (nodes g) + 2) g [] [src]
        /\ forall x, x ∈ c -> x ∈ seen) ->
    (forall i j ci cj v, comps !! i = Some ci -> comps !! j = Some cj ->
        v ∈ ci -> v ∈ cj -> i = j) ->
    let r := fold_left (fun '(seen, comps) v =>
         if bool_decide (v ∈ seen) then (seen, comps)
         else let c := _plain_bfs (length (nodes g) + 2) g [] [v] in
              (seen ++ c, comps ++ [c])) l (seen, comps) in
    forall i j ci cj v, r.2 !! i = Some ci -> r.2 !! j = Some cj ->
        v ∈ ci -> v ∈ cj -> i = j) as Hgen.
  { induction l as [|v0 l IH]; intros seen comps Hl Hsrc Hdis; cbv zeta; simpl; [exact Hdis|].
    case_bool_decide as Hseen.
    - apply IH; [|done|done]. intros x Hx. apply Hl. by right.
    - set (c := _plain_bfs (length (nodes g) + 2) g [] [v0]).
      assert (v0 ∈ node_list g) as Hv0 by (apply Hl; by left).
      assert (forall k ck x, comps !! k = Some ck -> x ∈ ck -> x ∈ c -> False) as Hnew.
      { intros k ck x Hk Hxk Hxc.
        destruct (Hsrc ck (list_elem_of_lookup_2 _ _ _ Hk)) as (src & Hsrc_in & -> & Hsub).
        apply Hseen, Hsub.
        apply component_complete; [done|done|].
        eapply connected_trans.
        - assert (Forall (connected g src)
                    (_plain_bfs (length (nodes g) + 2) g [] [src])) as Hc
            by (apply plain_bfs_connected; repeat constructor).
          rewrite Forall_forall in Hc. apply (Hc x Hxk).
        - apply connected_sym.
          assert (Forall (connected g v0) c) as Hc
            by (apply plain_bfs_connected; repeat constructor).
          rewrite Forall_forall in Hc. apply (Hc x Hxc). }
      apply IH.
      + intros x Hx. apply Hl. by right.
      + intros c' [Hc'| ->%list_elem_of_singleton]%elem_of_app.
        * destruct (Hsrc c' Hc') as (src & ? & ? & Hsub).
          exists src. split_and!; [done|done|]. intros x Hx. apply elem_of_app. left.
          by apply Hsub.
        * exists v0. split_and!; [done|done|]. intros x Hx. apply elem_of_app. by right.
      + intros i' j' ci' cj' x Hi Hj Hxi Hxj.
        apply lookup_snoc_Some in Hi as [[_ Hi]|[-> <-]];
          apply lookup_snoc_Some in Hj as [[_ Hj]|[-> <-]].
        * by eapply Hdis.
        * exfalso. by eapply Hnew.
        * exfalso. by eapply Hnew.
        * done. }
  apply Hgen.
  - done.
  - intros c ?%elem_of_nil. done.
  - intros ? ? ? ? ? ?. by rewrite lookup_nil.
Qed.

Lemma fragment_graph_subgraphs (h : list object) (g : MultiDiGraph)
    (subgraphs : list MultiDiGraph) (communication_graph : CommunicationGraph) :
  edges_closed g ->
  fragment_graph h g = Ok (subgraphs, communication_graph) ->
  subgraphs = map (subgraph (without_cut_edges h g))
                  (weakly_connected_components (without_cut_edges h g)).
Proof.
  intros Hwf Hfrag. unfold fragment_graph in Hfrag.
  apply rbind_Ok in Hfrag as ([g' cuts] & Hloop & Hfrag).
  apply remove_cut_edges_residual in Hloop;
    [|apply Forall_forall; intros e He; by apply Hwf]. subst g'.
  by apply rbind_Ok in Hfrag as (r & _ & [= <- _]).
Qed.

(** every node is in a fragment *)
Lemma fragment_graph_cover (h : list object) (g : MultiDiGraph)
    (subgraphs : list MultiDiGraph) (communication_graph : CommunicationGraph) (v : oid) :
  edges_closed g ->
  fragment_graph h g = Ok (subgraphs, communication_graph) ->
  v ∈ node_list g ->
  exists i f, subgraphs !! i = Some f /\ has_node f v = true.
Proof.
  intros Hwf Hfrag Hv. rewrite (fragment_graph_subgraphs _ _ _ _ Hwf Hfrag).
  change (map ?f) with (fmap (M := list) f).
  destruct (weakly_connected_components_cover (without_cut_edges h g) v Hv)
    as (c & Hc & Hvc).
  apply list_elem_of_lookup_1 in Hc as [i Hi].
  exists i, (subgraph (without_cut_edges h g) c). split.
  - by apply list_lookup_fmap_Some_2.
  - by apply has_node_subgraph.
Qed.

(** X6: when the two ends of every edge are nodes of the graph, the
    fragments that [fragment_graph] returns partition its nodes: every
    node is in a fragment, and in one only. *)
Theorem fragment_graph_partition (h : list object) (g : MultiDiGraph)
    (subgraphs : list MultiDiGraph) (communication_graph : CommunicationGraph) :
  edges_closed g ->
  fragment_graph h g = Ok (subgraphs, communication_graph) ->
  (forall v, v ∈ node_list g ->
     exists i f, subgraphs !! i = Some f /\ has_node f v = true)
  /\ (forall i j fi fj v,
        subgraphs !! i = Some fi -> subgraphs !! j = Some fj ->
        has_node fi v = true -> has_node fj v = true -> i = j).
Proof.
  intros Hwf Hfrag. split.
  - intros v Hv. by eapply fragment_graph_cover.
  - rewrite (fragment_graph_subgraphs _ _ _ _ Hwf Hfrag).
    change (map ?f) with (fmap (M := list) f).
    intros i j fi fj v Hi Hj Hvi Hvj.
    apply list_lookup_fmap_Some_1 in Hi as (ci & -> & Hi).
    apply list_lookup_fmap_Some_1 in Hj as (cj & -> & Hj).
    apply has_node_subgraph in Hvi as [_ Hvi]. apply has_node_subgraph in Hvj as [_ Hvj].
    eapply (weakly_connected_components_disjoint (without_cut_edges h g)); try done.
    by apply without_cut_edges_closed.
Qed.

(** the first loop records one cut edge for each edge that leaves a
    measure node, and has checked that it enters a prepare node *)
Lemma remove_cut_edges_cuts (h : list object) (l : list (oid * oid * wire))
    (g g' : MultiDiGraph) (cuts cuts' : list (oid * oid)) :
  foldR (remove_cut_edge h) l (g, cuts) = Ok (g', cuts') ->
  cuts' = cuts ++ map (fun e => (e.1.1, e.1.2))
                      (filter (fun e => is_MeasureNode h e.1.1 = true) l)
  /\ Forall (fun e => is_MeasureNode h e.1.1 = true -> is_PrepareNode h e.1.2 = true) l.
Proof.
  revert g cuts. induction l as [|[[u v] w] l IH]; intros g cuts; simpl.
  - intros [= <- <-]. by rewrite app_nil_r.
  - destruct (is_MeasureNode h u) eqn:Hu.
    + destruct (is_PrepareNode h v) eqn:Hv; [|discriminate].
      destruct (remove_edge u v g) as [g1|e]; [|discriminate]. simpl.
      intros [-> Hall]%IH. rewrite filter_cons_True by done. simpl.
      rewrite <- app_assoc. split; [done|]. by constructor.
    + simpl. intros [-> Hall]%IH. rewrite filter_cons_False by (simpl; congruence).
      split; [done|]. constructor; [|done]. simpl. congruence.
Qed.

(** the search for the fragment of a node keeps the last fragment that
    has it *)
Lemma find_fragments_fold (l : list MultiDiGraph) (k : nat) (node1 node2 : oid)
    (s0 e0 : option nat) :
  let r := fold_left (fun '(start_fragment, end_fragment) '(i, subgraph) =>
      let start_fragment :=
        if has_node subgraph node1 then Some i else start_fragment in
      let end_fragment :=
        if has_node subgraph node2 then Some i else end_fragment in
      (start_fragment, end_fragment))
      (zip (seq k (length l)) l) (s0, e0) in
  ((exists i f, l !! i = Some f /\ has_node f node1 = true /\ r.1 = Some (k + i)%nat)
   \/ (Forall (fun f => has_node f node1 = false) l /\ r.1 = s0))
  /\ ((exists i f, l !! i = Some f /\ has_node f node2 = true /\ r.2 = Some (k + i)%nat)
      \/ (Forall (fun f => has_node f node2 = false) l /\ r.2 = e0)).
Proof.
  revert k s0 e0. induction l as [|f l IH]; intros k s0 e0; cbv zeta; simpl.
  - split; right; by split.
  - destruct (IH (S k) (if has_node f node1 then Some k else s0)
                       (if has_node f node2 then Some k else e0)) as [H1 H2].
    cbv zeta in H1, H2. split.
    + destruct H1 as [(i & f' & Hi & Hf' & ->)|[Hnone ->]].
      * left. exists (S i), f'. split_and!; [done|done|f_equal; lia].
      * destruct (has_node f node1) eqn:Hf.
        -- left. exists 0%nat, f. split_and!; [done|done|f_equal; lia].
        -- right. split; [by constructor|done].
    + destruct H2 as [(i & f' & Hi & Hf' & ->)|[Hnone ->]].
      * left. exists (S i), f'. split_and!; [done|done|f_equal; lia].
      * destruct (has_node f node2) eqn:Hf.
        -- left. exists 0%nat, f. split_and!; [done|done|f_equal; lia].
        -- right. split; [by constructor|done].
Qed.

Lemma add_communication_edges_loop (subgraphs : list MultiDiGraph)
    (cuts : list (oid * oid)) (cg cg' : CommunicationGraph) (s0 e0 s' e' : option nat) :
  Forall (fun c => (exists i f, subgraphs !! i = Some f /\ has_node f c.1 = true)
                   /\ (exists i f, subgraphs !! i = Some f /\ has_node f c.2 = true)) cuts ->
  foldR (add_communication_edge subgraphs) cuts (cg, s0, e0) = Ok (cg', s', e') ->
  comm_nodes cg' = comm_nodes cg
  /\ exists new,
       comm_edges cg' = comm_edges cg ++ new
       /\ map snd new = cuts
       /\ Forall (fun x =>
            (exists f, subgraphs !! x.1.1 = Some f /\ has_node f x.2.1 = true)
            /\ (exists f, subgraphs !! x.1.2 = Some f /\ has_node f x.2.2 = true)) new.
Proof.
  revert cg s0 e0. induction cuts as [|[node1 node2] cuts IH]; intros cg s0 e0 Hcov; simpl.
  - intros [= <- <- <-]. split; [done|]. exists []. by rewrite app_nil_r.
  - apply Forall_cons in Hcov as [[Hc1 Hc2] Hcov]. simpl in Hc1, Hc2.
    pose proof (find_fragments_fold subgraphs 0 node1 node2 s0 e0) as Hfind.
    cbv zeta in Hfind. unfold enumerate.
    destruct (fold_left _ (zip (seq 0 (length subgraphs)) subgraphs) (s0, e0))
      as [s1 e1]. simpl in Hfind. destruct Hfind as [Hs He].
    destruct Hs as [(i & fs & Hi & Hfs & ->)|[Hnone _]]; cycle 1.
    { exfalso. destruct Hc1 as (i & f & Hi & Hf). rewrite Forall_forall in Hnone.
      rewrite (Hnone f (list_elem_of_lookup_2 _ _ _ Hi)) in Hf. discriminate. }
    destruct He as [(j & fe & Hj & Hfe & ->)|[Hnone _]]; cycle 1.
    { exfalso. destruct Hc2 as (i' & f & Hi' & Hf). rewrite Forall_forall in Hnone.
      rewrite (Hnone f (list_elem_of_lookup_2 _ _ _ Hi')) in Hf. discriminate. }
    simpl. intros (Hn & new & Hedges & Hcuts & Hnew)%IH; [|done]. simpl in Hn, Hedges.
    split; [done|]. exists ((i, j, (node1, node2)) :: new). split_and!.
    + rewrite Hedges. by rewrite <- app_assoc.
    + simpl. by rewrite Hcuts.
    + constructor; [|done]. simpl. split; [by exists fs|by exists fe].
Qed.

(** X7: the communication graph has one node per fragment and one edge
    per cut edge, in the order of the edges of the graph; the edge of a
    cut leaves the fragment that has its measure node, enters the
    fragment that has its prepare node, and carries the two nodes. *)
Theorem fragment_graph_communication (h : list object) (g : MultiDiGraph)
    (subgraphs : list MultiDiGraph) (communication_graph : CommunicationGraph) :
  edges_closed g ->
  fragment_graph h g = Ok (subgraphs, communication_graph) ->
  comm_nodes communication_graph = seq 0 (length subgraphs)
  /\ map snd (comm_edges communication_graph)
     = map (fun e => (e.1.1, e.1.2))
           (filter (fun e => is_MeasureNode h e.1.1 = true) (edge_list g))
  /\ Forall (fun x =>
       is_MeasureNode h x.2.1 = true /\ is_PrepareNode h x.2.2 = true
       /\ (exists f, subgraphs !! x.1.1 = Some f /\ has_node f x.2.1 = true)
       /\ (exists f, subgraphs !! x.1.2 = Some f /\ has_node f x.2.2 = true))
       (comm_edges communication_graph).
Proof.
  intros Hwf Hfrag.
  pose proof (fun v => fragment_graph_cover h g subgraphs communication_graph v Hwf Hfrag)
    as Hcover.
  unfold fragment_graph in Hfrag.
  apply rbind_Ok in Hfrag as ([g' cuts] & Hloop & Hfrag).
  apply remove_cut_edges_cuts in Hloop as [-> Hprep]. simpl in Hfrag.
  apply rbind_Ok in Hfrag as ([[cg s'] e'] & Hfrag & [= <- <-]). simpl.
  set (cut_edges := filter (fun e => is_MeasureNode h e.1.1 = true) (edge_list g)) in *.
  assert (Forall (fun e => is_MeasureNode h e.1.1 = true /\ is_PrepareNode h e.1.2 = true
                           /\ e.1.1 ∈ node_list g /\ e.1.2 ∈ node_list g) cut_edges)
    as Hcuts.
  { apply Forall_forall. intros e [Hm He]%list_elem_of_filter.
    rewrite Forall_forall in Hprep. split_and!; [done|by apply Hprep| |].
    - by apply edge_list_source.
    - by apply Hwf, edge_list_edges. }
  apply add_communication_edges_loop in Hfrag as (Hn & new & Hedges & Hsnd & Hnew).
  - simpl in Hn, Hedges. rewrite Hn, Hedges, Hsnd. split_and!; [done|done|].
    apply Forall_forall. intros x Hx.
    assert (x.2 ∈ map snd new) as Hx2.
    { change (map ?f) with (fmap (M := list) f). apply list_elem_of_fmap. by exists x. }
    rewrite Hsnd in Hx2. change (map ?f) with (fmap (M := list) f) in Hx2.
    apply list_elem_of_fmap in Hx2 as (e & Hxe & He).
    rewrite Forall_forall in Hcuts. destruct (Hcuts e He) as (Hm & Hp & _).
    rewrite Forall_forall in Hnew. destruct (Hnew x Hx) as [Hs Ht].
    rewrite Hxe. simpl. rewrite Hxe in Hs, Ht. simpl in Hs, Ht. done.
  - apply Forall_forall. intros c Hc. change (map ?f) with (fmap (M := list) f) in Hc.
    apply list_elem_of_fmap in Hc as (e & -> & He). simpl.
    rewrite Forall_forall in Hcuts. destruct (Hcuts e He) as (_ & _ & H1 & H2).
    split.
    + destruct (Hcover _ H1) as (i & f & ? & ?). by exists i, f.
    + destruct (Hcover _ H2) as (i & f & ? & ?). by exists i, f.
Qed.

Lemma three_cut_graph_closed : edges_closed three_cut_graph.
Proof.
  assert (Forall (fun e => e.1.1 ∈ node_list three_cut_graph
                           /\ e.1.2 ∈ node_list three_cut_graph) (edges three_cut_graph))
    as Hwf by (apply (bool_decide_unpack _); vm_compute; exact I).
  intros e He. rewrite Forall_forall in Hwf. by apply Hwf.
Qed.

Lemma fragment_graph_partition_witness :
  exists subgraphs communication_graph,
    fragment_graph three_cut_heap three_cut_graph = Ok (subgraphs, communication_graph)
    /\ length subgraphs = 3%nat
    /\ (forall v, v ∈ node_list three_cut_graph ->
          exists i f, subgraphs !! i = Some f /\ has_node f v = true)
    /\ (forall i j fi fj v,
          subgraphs !! i = Some fi -> subgraphs !! j = Some fj ->
          has_node fi v = true -> has_node fj v = true -> i = j).
Proof.
  assert (exists r, fragment_graph three_cut_heap three_cut_graph = Ok r
                    /\ length r.1 = 3%nat)
    as [[subgraphs cg] [Hrun Hlen]] by (eexists; vm_compute; split; reflexivity).
  exists subgraphs, cg. split; [exact Hrun|]. split; [exact Hlen|].
  exact (fragment_graph_partition _ _ _ _ three_cut_graph_closed Hrun).
Defined.

Lemma fragment_graph_communication_witness :
  exists subgraphs,
    fragment_graph three_cut_heap three_cut_graph = Ok (subgraphs, three_cut_communication)
    /\ comm_nodes three_cut_communication = seq 0 (length subgraphs)
    /\ map snd (comm_edges three_cut_communication)
       = map (fun e => (e.1.1, e.1.2))
             (filter (fun e => is_MeasureNode three_cut_heap e.1.1 = true)
                     (edge_list three_cut_graph))
    /\ Forall (fun x =>
         is_MeasureNode three_cut_heap x.2.1 = true
         /\ is_PrepareNode three_cut_heap x.2.2 = true
         /\ (exists f, subgraphs !! x.1.1 = Some f /\ has_node f x.2.1 = true)
         /\ (exists f, subgraphs !! x.1.2 = Some f /\ has_node f x.2.2 = true))
         (comm_edges three_cut_communication).
Proof.
  assert (exists subgraphs, fragment_graph three_cut_heap three_cut_graph
                            = Ok (subgraphs, three_cut_communication))
    as [subgraphs Hrun] by (eexists; vm_compute; reflexivity).
  exists subgraphs. split; [exact Hrun|].
  exact (fragment_graph_communication _ _ _ _ three_cut_graph_closed Hrun).
Defined.

(** ** Fragmenter: when it returns and when it raises *)

Lemma remove_last_edge_exists (u v : oid) (es : list (oid * oid * wire)) :
  (0 < parallel_edges u v es)%nat -> exists es', remove_last_edge u v es = Some es'.
Proof.
  induction es as [|e es IH]; simpl.
  - unfold parallel_edges. simpl. lia.
  - rewrite parallel_edges_cons. intros Hcnt.
    destruct (remove_last_edge u v es) as [r|]; [by eexists|].
    case_bool_decide; [by eexists|].
    destruct IH as [? ?]; [simpl in Hcnt; lia|done].
Qed.

Lemma parallel_edges_concat_none (u v : oid) (ls : list (list (oid * oid * wire))) :
  Forall (fun l => parallel_edges u v l = 0%nat) ls ->
  parallel_edges u v (concat ls) = 0%nat.
Proof.
  induction 1 as [|l ls Hl _ IH]; simpl; [done|].
  rewrite parallel_edges_app. lia.
Qed.

(** the edges that [list(graph.edges)] yields from a source node *)
Lemma parallel_edges_source (g : MultiDiGraph) (u u' v : oid) :
  parallel_edges u v
    (concat (map (fun '(v, ws) => map (fun w => (u', v, w)) ws) (succ g u')))
  = if bool_decide (u' = u) then parallel_edges u v (edges g) else 0%nat.
Proof.
  case_bool_decide as Hu.
  - subst u'. rewrite parallel_edges_groups. unfold succ.
    rewrite group_by_key_values. rewrite length_map.
    rewrite filter_map_comp, length_map. simpl.
    unfold parallel_edges. rewrite list_filter_filter. f_equal.
    apply list_filter_iff. intros [[a b] w]. simpl. tauto.
  - apply parallel_edges_concat_none, Forall_forall. intros l Hl.
    change (map ?f) with (fmap (M := list) f) in Hl.
    apply list_elem_of_fmap in Hl as ([v' ws] & -> & _).
    unfold parallel_edges. rewrite filter_none; [done|].
    intros e He. change (map ?f) with (fmap (M := list) f) in He.
    apply list_elem_of_fmap in He as (w & -> & _). simpl. tauto.
Qed.

Lemma edge_list_parallel_edges_le (g : MultiDiGraph) (u v : oid) :
  NoDup (node_list g) ->
  (parallel_edges u v (edge_list g) <= parallel_edges u v (edges g))%nat.
Proof.
  unfold edge_list. generalize (node_list g). intros l.
  induction 1 as [|u' l Hnotin Hnd IH]; simpl.
  - unfold parallel_edges. simpl. lia.
  - rewrite parallel_edges_app, parallel_edges_source.
    case_bool_decide as Hu; [|lia]. subst u'.
    rewrite parallel_edges_concat_none; [lia|].
    apply Forall_forall. intros b Hb. change (map ?f) with (fmap (M := list) f) in Hb.
    apply list_elem_of_fmap in Hb as (u' & -> & Hu').
    rewrite parallel_edges_source. rewrite bool_decide_eq_false_2; [done|].
    intros ->. done.
Qed.

(** the first loop: while the graph still has an edge for every cut edge
    that is left to remove, the loop raises the assertion at the first
    edge from a measure node to a node that is no prepare node, and
    returns when there is none *)
Lemma remove_cut_edges_total (h : list object) (l : list (oid * oid * wire))
    (g : MultiDiGraph) (cuts : list (oid * oid)) :
  (forall u v, is_MeasureNode h u = true ->
     (parallel_edges u v l <= parallel_edges u v (edges g))%nat) ->
  (Forall (fun e => is_MeasureNode h e.1.1 = true -> is_PrepareNode h e.1.2 = true) l ->
     exists r, foldR (remove_cut_edge h) l (g, cuts) = Ok r)
  /\ (Exists (fun e => is_MeasureNode h e.1.1 = true /\ is_PrepareNode h e.1.2 = false) l ->
        foldR (remove_cut_edge h) l (g, cuts) = Raise AssertionError).
Proof.
  revert g cuts. induction l as [|[[u v] w] l IH]; intros g cuts Hcnt.
  - split; [by eexists|]. by intros ?%Exists_nil.
  - cbn [foldR]. unfold remove_cut_edge at 1 3.
    destruct (is_MeasureNode h u) eqn:Hu.
    + destruct (is_PrepareNode h v) eqn:Hv.
      * destruct (remove_last_edge_exists u v (edges g)) as [es Hes].
        { specialize (Hcnt u v Hu). rewrite parallel_edges_cons in Hcnt. simpl in Hcnt.
          rewrite bool_decide_eq_true_2 in Hcnt by done. lia. }
        unfold remove_edge. rewrite Hes. simpl.
        destruct (IH (Graph (nodes g) es) (cuts ++ [(u, v)])) as [IH1 IH2].
        { intros u' v' Hu'. specialize (Hcnt u' v' Hu'). simpl.
          apply remove_last_edge_Some in Hes as (l1 & w' & l2 & Hg & ->).
          rewrite Hg in Hcnt. rewrite parallel_edges_cons in Hcnt.
          rewrite parallel_edges_app in *. rewrite parallel_edges_cons in Hcnt.
          simpl in Hcnt. lia. }
        split.
        -- intros Hall. apply Forall_cons in Hall as [_ Hall]. by apply IH1.
        -- intros Hex. apply Exists_cons in Hex as [[_ Hbad]|Hex]; [|by apply IH2].
           simpl in Hbad. congruence.
      * simpl. split; [|done].
        intros Hall. apply Forall_cons in Hall as [Hgood _]. simpl in Hgood.
        specialize (Hgood Hu). congruence.
    + simpl. destruct (IH g cuts) as [IH1 IH2].
      { intros u' v' Hu'. specialize (Hcnt u' v' Hu'). rewrite parallel_edges_cons in Hcnt.
        lia. }
      split.
      * intros Hall. apply Forall_cons in Hall as [_ Hall]. by apply IH1.
      * intros Hex. apply Exists_cons in Hex as [[Hbad _]|Hex]; [|by apply IH2].
        simpl in Hbad. congruence.
Qed.

Lemma add_communication_edges_total (subgraphs : list MultiDiGraph)
    (cuts : list (oid * oid)) (cg : CommunicationGraph) (s0 e0 : option nat) :
  Forall (fun c => (exists i f, subgraphs !! i = Some f /\ has_node f c.1 = true)
                   /\ (exists i f, subgraphs !! i = Some f /\ has_node f c.2 = true)) cuts ->
  exists r, foldR (add_communication_edge subgraphs) cuts (cg, s0, e0) = Ok r.
Proof.
  revert cg s0 e0. induction cuts as [|[node1 node2] cuts IH]; intros cg s0 e0 Hcov; simpl.
  - by eexists.
  - apply Forall_cons in Hcov as [[Hc1 Hc2] Hcov]. simpl in Hc1, Hc2.
    pose proof (find_fragments_fold subgraphs 0 node1 node2 s0 e0) as Hfind.
    cbv zeta in Hfind. unfold enumerate.
    destruct (fold_left _ (zip (seq 0 (length subgraphs)) subgraphs) (s0, e0))
      as [s1 e1]. simpl in Hfind. destruct Hfind as [Hs He].
    destruct Hs as [(i & fs & Hi & Hfs & ->)|[Hnone _]]; cycle 1.
    { exfalso. destruct Hc1 as (i & f & Hi & Hf). rewrite Forall_forall in Hnone.
      rewrite (Hnone f (list_elem_of_lookup_2 _ _ _ Hi)) in Hf. discriminate. }
    destruct He as [(j & fe & Hj & Hfe & ->)|[Hnone _]]; cycle 1.
    { exfalso. destruct Hc2 as (i' & f & Hi' & Hf). rewrite Forall_forall in Hnone.
      rewrite (Hnone f (list_elem_of_lookup_2 _ _ _ Hi')) in Hf. discriminate. }
    simpl. by apply IH.
Qed.

(** X8: on a graph whose every edge joins two of its nodes,
    [fragment_graph] raises [AssertionError] when some edge leaves a
    measure node and enters a node that is not a prepare node. *)
Theorem fragment_graph_assertion (h : list object) (g : MultiDiGraph) :
  edges_closed g -> NoDup (node_list g) ->
  Exists (fun e => is_MeasureNode h e.1.1 = true /\ is_PrepareNode h e.1.2 = false)
         (edges g) ->
  fragment_graph h g = Raise AssertionError.
Proof.
  intros Hwf Hnd Hbad. unfold fragment_graph.
  destruct (remove_cut_edges_total h (edge_list g) g []) as [_ Hraise].
  { intros u v _. by apply edge_list_parallel_edges_le. }
  rewrite Hraise; [done|].
  apply Exists_exists in Hbad as ([[u v] w] & He & Hu & Hv). simpl in Hu, Hv.
  assert (0 < parallel_edges u v (edge_list g))%nat as Hcnt.
  { eapply Nat.lt_le_trans; [|apply edge_list_parallel_edges; by apply (Hwf _ He)].
    unfold parallel_edges.
    assert ((u, v, w) ∈ filter (fun e => e.1.1 = u /\ e.1.2 = v) (edges g)) as Hin
      by by apply list_elem_of_filter.
    destruct (filter _ (edges g)); [by apply elem_of_nil in Hin|simpl; lia]. }
  unfold parallel_edges in Hcnt.
  destruct (filter _ (edge_list g)) as [|e' l'] eqn:Hfil; [simpl in Hcnt; lia|].
  assert (e' ∈ filter (fun e => e.1.1 = u /\ e.1.2 = v) (edge_list g)) as Hin
    by (rewrite Hfil; by left).
  apply list_elem_of_filter in Hin as [[Hu' Hv'] Hin].
  apply Exists_exists. exists e'. rewrite Hu', Hv'. done.
Qed.

(** the fragmenter returns when every cut edge enters a prepare node *)
Lemma fragment_graph_total (h : list object) (g : MultiDiGraph) :
  edges_closed g -> NoDup (node_list g) ->
  Forall (fun e => is_MeasureNode h e.1.1 = true -> is_PrepareNode h e.1.2 = true)
         (edges g) ->
  exists subgraphs communication_graph,
    fragment_graph h g = Ok (subgraphs, communication_graph).
Proof.
  intros Hwf Hnd Hgood.
  destruct (remove_cut_edges_total h (edge_list g) g []) as [Hok _].
  { intros u v _. by apply edge_list_parallel_edges_le. }
  destruct Hok as [[g' cuts] Hloop].
  { apply Forall_forall. intros e He%edge_list_edges.
    rewrite Forall_forall in Hgood. by apply Hgood. }
  pose proof Hloop as Hres.
  apply remove_cut_edges_residual in Hres;
    [|apply Forall_forall; intros e He; by apply Hwf].
  pose proof Hloop as [Hcuts _]%remove_cut_edges_cuts. simpl in Hcuts.
  unfold fragment_graph. rewrite Hloop. simpl.
  destruct (add_communication_edges_total
              (map (subgraph g') (weakly_connected_components g')) cuts
              (CommGraph (seq 0 (length (map (subgraph g')
                                   (weakly_connected_components g')))) []) None None)
    as [r Hr].
  - subst cuts. apply Forall_forall. intros c Hc.
    change (map ?f) with (fmap (M := list) f) in Hc.
    apply list_elem_of_fmap in Hc as (e & -> & [_ He]%list_elem_of_filter). simpl.
    assert (forall v, v ∈ node_list g ->
              exists i f, map (subgraph g') (weakly_connected_components g') !! i = Some f
                          /\ has_node f v = true) as Hcover.
    { intros v Hv. subst g'.
      destruct (weakly_connected_components_cover (without_cut_edges h g) v Hv)
        as (c & Hc & Hvc).
      apply list_elem_of_lookup_1 in Hc as [i Hi].
      exists i, (subgraph (without_cut_edges h g) c). split.
      - change (map ?f) with (fmap (M := list) f). by apply list_lookup_fmap_Some_2.
      - by apply has_node_subgraph. }
    split; apply Hcover.
    + by apply edge_list_source.
    + by apply Hwf, edge_list_edges.
  - rewrite Hr. simpl. by eexists _, _.
Qed.

(** X9: and it returns the fragments and the communication graph when
    every edge that leaves a measure node enters a prepare node. *)
Theorem fragment_graph_returns (h : list object) (g : MultiDiGraph) :
  edges_closed g -> NoDup (node_list g) ->
  Forall (fun e => is_MeasureNode h e.1.1 = true -> is_PrepareNode h e.1.2 = true)
         (edges g) ->
  exists subgraphs communication_graph,
    fragment_graph h g = Ok (subgraphs, communication_graph).
Proof. apply fragment_graph_total. Qed.

Lemma fragment_graph_assertion_witness :
  edges_closed measure_gate_graph
  /\ NoDup (node_list measure_gate_graph)
  /\ Exists (fun e => is_MeasureNode measure_gate_heap e.1.1 = true
                      /\ is_PrepareNode measure_gate_heap e.1.2 = false)
            (edges measure_gate_graph)
  /\ fragment_graph measure_gate_heap measure_gate_graph = Raise AssertionError.
Proof.
  assert (edges_closed measure_gate_graph) as Hwf.
  { intros e ->%list_elem_of_singleton. simpl. split; [by left|by right; left]. }
  assert (NoDup (node_list measure_gate_graph)) as Hnd
    by (apply (bool_decide_unpack _); vm_compute; exact I).
  assert (Exists (fun e => is_MeasureNode measure_gate_heap e.1.1 = true
                           /\ is_PrepareNode measure_gate_heap e.1.2 = false)
                 (edges measure_gate_graph)) as Hbad
    by (left; split; reflexivity).
  split; [exact Hwf|]. split; [exact Hnd|]. split; [exact Hbad|].
  exact (fragment_graph_assertion _ _ Hwf Hnd Hbad).
Defined.

Lemma fragment_graph_returns_witness :
  edges_closed three_cut_graph
  /\ NoDup (node_list three_cut_graph)
  /\ exists subgraphs communication_graph,
       fragment_graph three_cut_heap three_cut_graph = Ok (subgraphs, communication_graph).
Proof.
  assert (NoDup (node_list three_cut_graph)) as Hnd
    by (apply (bool_decide_unpack _); vm_compute; exact I).
  assert (Forall (fun e => is_MeasureNode three_cut_heap e.1.1 = true ->
                           is_PrepareNode three_cut_heap e.1.2 = true)
                 (edges three_cut_graph)) as Hgood
    by (apply (bool_decide_unpack _); vm_compute; exact I).
  split; [exact three_cut_graph_closed|]. split; [exact Hnd|].
  exact (fragment_graph_returns _ _ three_cut_graph_closed Hnd Hgood).
Defined.

(** ** tape_to_graph: the nodes and their order *)

Lemma numbered_app (k : nat) (l1 l2 : list oid) :
  numbered k (l1 ++ l2) = numbered k l1 ++ numbered (k + length l1) l2.
Proof.
  unfold numbered. rewrite length_app, seq_app, map_app.
  rewrite zip_with_app; [done|]. by rewrite length_map, length_seq.
Qed.

Lemma node_list_app_numbered (g g' : MultiDiGraph) (k : nat) (l : list oid) :
  nodes g' = nodes g ++ numbered k l -> node_list g' = node_list g ++ l.
Proof.
  unfold node_list, numbered. intros ->. rewrite map_app. f_equal.
  change (map fst) with (fmap (M := list) (@fst nat Q)).
  rewrite fst_zip; [done|]. by rewrite length_map, length_seq.
Qed.

(** the loop over the factors of a tensor product *)
Lemma add_factor_measurements (wl : gmap wire oid) (rt : return_type)
    (obs : list observable) (g g' : MultiDiGraph) (k k' : nat) (hk hk' : list object) :
  (forall n, n ∈ node_list g -> (n < length hk)%nat) ->
  foldH (fun '(graph, order) o =>
    let* m_ := alloc (MeasurementProcess rt (Some (Single o)) []) in
    let graph := add_node m_ (Qnat order) graph in
    let order := (order + 1)%nat in
    let* graph := lift (add_parent_edges wl m_ (obs_wires o) graph) in
    ret (graph, order)) obs (g, k) hk = Ok ((g', k'), hk') ->
  hk' = hk ++ map (fun o => MeasurementProcess rt (Some (Single o)) []) obs
  /\ nodes g' = nodes g ++ numbered k (seq (length hk) (length obs))
  /\ k' = (k + length obs)%nat.
Proof.
  revert g k hk. induction obs as [|o obs IH]; intros g k hk Hfresh; cbn [foldH].
  - unfold ret. intros [= <- <- <-]. unfold numbered. simpl.
    by rewrite !app_nil_r, Nat.add_0_r.
  - unfold bind at 1. unfold bind at 1. unfold alloc at 1. unfold bind at 1.
    unfold lift at 1.
    destruct (add_parent_edges wl (length hk) (obs_wires o) _) as [g1|e] eqn:Hedges;
      [|discriminate].
    unfold ret at 1. apply add_parent_edges_nodes in Hedges.
    rewrite add_node_new in Hedges
      by (intros Hin%Hfresh; lia).
    intros Hrest. apply IH in Hrest as (-> & Hnodes & ->).
    + split_and!.
      * by rewrite <- app_assoc.
      * rewrite Hnodes, Hedges, <- app_assoc. f_equal.
        rewrite length_app. simpl. unfold numbered. simpl.
        by rewrite !Nat.add_1_r.
      * simpl. lia.
    + intros n Hn. unfold node_list in Hn. rewrite Hedges, map_app in Hn.
      rewrite length_app. simpl.
      apply elem_of_app in Hn as [Hn%Hfresh| ->%list_elem_of_singleton]; simpl; lia.
Qed.

(** one measurement *)
Lemma add_measurement_nodes (wl : gmap wire oid) (m : oid)
    (g g' : MultiDiGraph) (k k' : nat) (hk hk' : list object) :
  (forall n, n ∈ node_list g -> (n < length hk)%nat) ->
  m ∉ node_list g ->
  add_measurement wl (g, k) m hk = Ok ((g', k'), hk') ->
  let mn := if is_tensor_measurement hk m
            then seq (length hk) (length (factor_measurements hk m)) else [m] in
  hk' = hk ++ factor_measurements hk m
  /\ nodes g' = nodes g ++ numbered k mn
  /\ k' = (k + length mn)%nat.
Proof.
  intros Hfresh Hm. cbv zeta.
  assert (forall ws,
    (let graph := add_node m (Qnat k) g in
     let order := (k + 1)%nat in
     let* graph := lift (add_parent_edges wl m ws graph) in
     ret (graph, order)) hk = Ok ((g', k'), hk') ->
    hk' = hk ++ [] /\ nodes g' = nodes g ++ numbered k [m] /\ k' = (k + 1)%nat) as Hplain.
  { intros ws. cbv zeta. unfold bind, lift.
    destruct (add_parent_edges wl m ws _) as [g1|e] eqn:Hedges; [|discriminate].
    unfold ret. intros [= <- <- <-].
    apply add_parent_edges_nodes in Hedges. rewrite add_node_new in Hedges by done.
    by rewrite app_nil_r. }
  unfold add_measurement, is_tensor_measurement, factor_measurements.
  unfold bind at 1. unfold get_heap at 1.
  destruct (hk !! m) as [[c ws|rt [[o|obs]|] ws]|]; try apply Hplain.
  intros Hrun. apply add_factor_measurements in Hrun; [|done].
  by rewrite length_seq, length_map.
Qed.

Lemma add_measurements_nodes (wl : gmap wire oid) (h : list object) (ms : list oid)
    (g g' : MultiDiGraph) (k k' : nat) (extra hk' : list object) :
  NoDup ms ->
  Forall (fun m => m < length h)%nat ms ->
  (forall n, n ∈ node_list g -> (n < length (h ++ extra))%nat) ->
  (forall m, m ∈ ms -> m ∉ node_list g) ->
  foldH (add_measurement wl) ms (g, k) (h ++ extra) = Ok ((g', k'), hk') ->
  hk' = (h ++ extra) ++ concat (map (factor_measurements h) ms)
  /\ nodes g' = nodes g ++ numbered k (measurement_nodes h (length (h ++ extra)) ms).
Proof.
  revert g k extra.
  induction ms as [|m ms IH]; intros g k extra Hnd Hlt Hfresh Hnew; cbn [foldH].
  - unfold ret. intros [= <- <- <-]. unfold numbered. simpl. by rewrite !app_nil_r.
  - unfold bind at 1.
    destruct (add_measurement wl (g, k) m (h ++ extra)) as [[[g1 k1] h1]|e] eqn:Hstep;
      [|discriminate].
    apply NoDup_cons in Hnd as [Hm Hnd]. apply Forall_cons in Hlt as [Hmlt Hlt].
    apply add_measurement_nodes in Hstep as (-> & Hnodes & ->);
      [|done|apply Hnew; by left].
    assert ((h ++ extra) !! m = h !! m) as Hlook by by apply lookup_app_l.
    assert (factor_measurements (h ++ extra) m = factor_measurements h m) as Hfac
      by (unfold factor_measurements; by rewrite Hlook).
    assert (is_tensor_measurement (h ++ extra) m = is_tensor_measurement h m) as Hten
      by (unfold is_tensor_measurement; by rewrite Hlook).
    rewrite Hfac, Hten in *. clear Hfac Hten Hlook.
    rewrite <- app_assoc. intros Hrest.
    pose proof (node_list_app_numbered _ _ _ _ Hnodes) as Hlist.
    apply IH in Hrest as (-> & Hnodes2); [|done|done|..].
    + split.
      * simpl. by rewrite <- !app_assoc.
      * rewrite Hnodes2, Hnodes, <- app_assoc. f_equal. cbn [measurement_nodes].
        replace (length (h ++ extra ++ factor_measurements h m))
          with (length (h ++ extra) + length (factor_measurements h m))%nat
          by (rewrite !length_app; lia).
        destruct (is_tensor_measurement h m) eqn:Hten.
        -- by rewrite numbered_app, length_seq.
        -- assert (factor_measurements h m = []) as ->.
           { unfold is_tensor_measurement in Hten. unfold factor_measurements.
             by destruct (h !! m) as [[?|? [[?|?]|] ?]|]. }
           simpl. rewrite Nat.add_0_r.
           change (m :: ?l) with ([m] ++ l). by rewrite numbered_app.
    + intros n Hn. rewrite Hlist in Hn. rewrite app_assoc, length_app.
      apply elem_of_app in Hn as [Hn%Hfresh|Hn]; [lia|].
      destruct (is_tensor_measurement h m).
      * apply elem_of_seq in Hn. lia.
      * apply list_elem_of_singleton in Hn as ->. rewrite length_app. lia.
    + intros m' Hm' Hin. rewrite Hlist in Hin.
      apply elem_of_app in Hin as [Hin|Hin].
      * apply (Hnew m'); [by right|done].
      * destruct (is_tensor_measurement h m).
        -- apply elem_of_seq in Hin. rewrite Forall_forall in Hlt.
           specialize (Hlt m' Hm'). rewrite length_app in Hin. lia.
        -- apply list_elem_of_singleton in Hin as ->. done.
Qed.

(** the nodes of the graph of a tape, and the heap it leaves *)
Lemma tape_graph_nodes (h h' : list object) (tape : QuantumTape)
    (g : MultiDiGraph) :
  NoDup (operations tape ++ measurements tape) ->
  Forall (fun n => n < length h)%nat (operations tape ++ measurements tape) ->
  tape_to_graph tape h = Ok (g, h') ->
  h' = h ++ concat (map (factor_measurements h) (measurements tape))
  /\ nodes g = numbered 0 (operations tape
                           ++ measurement_nodes h (length h) (measurements tape)).
Proof.
  destruct tape as [ops ms]. simpl.
  intros [Hops [Hdisj Hms]]%NoDup_app [Hops_lt Hms_lt]%Forall_app.
  unfold tape_to_graph. unfold bind at 1. unfold get_heap at 1. simpl.
  pose proof (add_operations_nodes h ops 0 empty_graph ∅ None Hops) as Hloop.
  cbv zeta in Hloop. unfold enumerate.
  destruct (fold_left (add_operation h) (zip (seq 0 (length ops)) ops)
                      (empty_graph, ∅, None)) as [[g1 wl] order].
  destruct Hloop as [Hnodes Horder]; [intros x _ Hx; by apply elem_of_nil in Hx|].
  simpl in Hnodes, Horder. subst order.
  destruct ops as [|op ops']; [discriminate|]. set (ops := op :: ops') in *.
  unfold bind.
  destruct (foldH (add_measurement wl) ms (g1, _) h) as [[[g2 k2] h2]|e] eqn:Hmeas;
    [|discriminate].
  unfold ret. intros [= <- <-].
  assert (node_list g1 = ops) as Hlist.
  { unfold node_list. rewrite Hnodes.
    change (map fst) with (fmap (M := list) (@fst nat Q)).
    rewrite fst_zip; [done|]. by rewrite length_map, length_seq. }
  rewrite <- (app_nil_r h) in Hmeas.
  apply add_measurements_nodes in Hmeas as (-> & Hnodes2); [|done|done|..].
  - rewrite !app_nil_r in *. split; [done|].
    rewrite Hnodes2, Hnodes, numbered_app. f_equal.
    f_equal. subst ops. simpl. lia.
  - intros n Hn. rewrite Hlist in Hn. rewrite app_nil_r.
    rewrite Forall_forall in Hops_lt. by apply Hops_lt.
  - intros m Hm Hin. rewrite Hlist in Hin. by apply (Hdisj m).
Qed.

(** X10: the nodes of the graph of a tape are its operations, in tape
    order, and then its measurements, where a measurement of a tensor
    product is replaced by one new measurement for each factor; their
    [order] attributes count up from zero, and the heap grows by the new
    measurements only. *)
Theorem tape_to_graph_node_orders (h h' : list object) (tape : QuantumTape)
    (g : MultiDiGraph) :
  NoDup (operations tape ++ measurements tape) ->
  Forall (fun n => n < length h)%nat (operations tape ++ measurements tape) ->
  tape_to_graph tape h = Ok (g, h') ->
  h' = h ++ concat (map (factor_measurements h) (measurements tape))
  /\ nodes g = numbered 0 (operations tape
                           ++ measurement_nodes h (length h) (measurements tape)).
Proof. apply tape_graph_nodes. Qed.

Lemma tape_to_graph_node_orders_witness :
  exists g h',
    tape_to_graph tensor_tape tensor_heap = Ok (g, h')
    /\ h' = tensor_heap ++ [MeasurementProcess Expectation (Some (Single (Obs PauliZ [0]))) [];
                            MeasurementProcess Expectation (Some (Single (Obs PauliX [1]))) []]
    /\ nodes g = numbered 0 [0; 1; 3; 4]%nat.
Proof.
  assert (exists r, tape_to_graph tensor_tape tensor_heap = Ok r)
    as [[g h'] Hrun] by (eexists; vm_compute; reflexivity).
  assert (NoDup (operations tensor_tape ++ measurements tensor_tape)) as Hnd
    by (apply (bool_decide_unpack _); vm_compute; exact I).
  assert (Forall (fun n => n < length tensor_heap)%nat
                 (operations tensor_tape ++ measurements tensor_tape)) as Hlt
    by (apply (bool_decide_unpack _); vm_compute; exact I).
  exists g, h'. split; [exact Hrun|].
  exact (tape_to_graph_node_orders _ _ _ _ Hnd Hlt Hrun).
Defined.

(** ** Configuration expander: no configuration, and refused measurements *)

Lemma product_nil {A} (ls : list (list A)) : [] ∈ ls -> product ls = [].
Proof.
  induction ls as [|l ls IH]; [by intros ?%elem_of_nil|].
  intros [<-|Hin]%elem_of_cons; simpl; [done|].
  rewrite (IH Hin). by induction l.
Qed.

Lemma product2_nil_r {A B} (xs : list A) : product2 xs ([] : list B) = [].
Proof. unfold product2. by induction xs. Qed.

(** X11: when a prepare or measure node of the fragment has no terms
    there is no configuration: [expand_fragment_tapes] returns no tape,
    and does not look at the measurements of the fragment. *)
Theorem expand_fragment_tapes_no_terms (h : list object) (tape : QuantumTape) (n : oid) :
  n ∈ operations tape ->
  (is_PrepareNode h n = true /\ prepare_terms h n = [])
  \/ (is_MeasureNode h n = true /\ measure_terms h n = []) ->
  expand_fragment_tapes h tape
  = Ok ([], filter (fun o => is_PrepareNode h o) (operations tape),
            filter (fun o => is_MeasureNode h o) (operations tape)).
Proof.
  intros Hn Hterms. unfold expand_fragment_tapes.
  assert (product2 (product (map (prepare_terms h)
                      (filter (fun o => is_PrepareNode h o) (operations tape))))
                   (product (map (measure_terms h)
                      (filter (fun o => is_MeasureNode h o) (operations tape)))) = [])
    as ->; [|done].
  destruct Hterms as [[Hp Ht]|[Hm Ht]].
  - rewrite (product_nil (map (prepare_terms h) _)); [done|].
    change (map ?f) with (fmap (M := list) f). apply list_elem_of_fmap.
    exists n. split; [done|]. apply list_elem_of_filter. split; [by rewrite Hp|done].
  - rewrite (product_nil (map (measure_terms h) _)); [apply product2_nil_r|].
    change (map ?f) with (fmap (M := list) f). apply list_elem_of_fmap.
    exists n. split; [done|]. apply list_elem_of_filter. split; [by rewrite Hm|done].
Qed.

Lemma product_cons_inv {A} (ls : list (list A)) :
  Forall (fun l => l ≠ []) ls -> exists r rs, product ls = r :: rs.
Proof.
  intros Hne.
  assert (0 < size_of (map length ls))%nat as Hpos.
  { induction Hne as [|l ls Hl _ IH]; simpl; [lia|].
    destruct l; [done|]. simpl. nia. }
  pose proof (product_length ls) as Hlen.
  destruct (product ls) as [|r rs]; [simpl in Hlen; lia|by eexists _, _].
Qed.

(** a measurement that is refused whatever the cut observables are: the
    first configuration tape raises at the first such measurement, when
    the operations of the fragment are operators and every prepare and
    measure node has a term *)
Lemma expand_fragment_tapes_refused (h : list object) (tape : QuantumTape)
    (m : oid) (ms : list oid) (e : exn) :
  forallb (is_operator h) (operations tape) = true ->
  Forall (fun n => prepare_terms h n ≠ [])
         (filter (fun o => is_PrepareNode h o) (operations tape)) ->
  Forall (fun n => measure_terms h n ≠ [])
         (filter (fun o => is_MeasureNode h o) (operations tape)) ->
  measurements tape = m :: ms ->
  (forall op_tensor, full_tensor h op_tensor m = Raise e) ->
  expand_fragment_tapes h tape = Raise e.
Proof.
  intros Hops Hpt Hmt Hms Hraise. unfold expand_fragment_tapes.
  set (P := filter (fun o => is_PrepareNode h o) (operations tape)) in *.
  set (Mn := filter (fun o => is_MeasureNode h o) (operations tape)) in *.
  destruct (product_cons_inv (map (prepare_terms h) P)) as (ps & pss & Hps).
  { apply Forall_fmap. eapply Forall_impl; [exact Hpt|]. done. }
  destruct (product_cons_inv (map (measure_terms h) Mn)) as (mt & mts & Hmts).
  { apply Forall_fmap. eapply Forall_impl; [exact Hmt|]. done. }
  assert (length ps = length P) as Hlenp.
  { assert (ps ∈ product (map (prepare_terms h) P)) as Hin by (rewrite Hps; by left).
    apply product_elem, Forall2_length in Hin. by rewrite length_map in Hin. }
  assert (length mt = length Mn) as Hlenm.
  { assert (mt ∈ product (map (measure_terms h) Mn)) as Hin by (rewrite Hmts; by left).
    apply product_elem, Forall2_length in Hin. by rewrite length_map in Hin. }
  rewrite Hps, Hmts. unfold product2. simpl.
  assert (configuration_tape h tape P Mn ps mt = Raise e) as ->; [|done].
  unfold configuration_tape.
  destruct (record_operations_loop h (zip P ps) (operations tape) [] []) as [rec Hrec].
  { by apply forallb_Forall_true. }
  { apply Forall_forall. intros op Hop HP. apply mapping_get_zip; [|lia].
    apply list_elem_of_filter. split; [rewrite HP; exact I|done]. }
  rewrite Hrec. simpl. fold Mn.
  destruct (cut_observables_ok h (zip Mn mt) Mn) as (ot & Hot & _).
  { apply Forall_forall. intros op Hop. by apply mapping_get_zip; [|lia]. }
  rewrite Hot, Hms. simpl. by rewrite Hraise.
Qed.

(** X12: a user measurement that is not an expectation value is refused
    with the message of the source. *)
Theorem expand_fragment_tapes_not_expectation (h : list object) (tape : QuantumTape)
    (m : oid) (ms : list oid) (rt : return_type) (obs : option obs_expr) (ws : list wire) :
  forallb (is_operator h) (operations tape) = true ->
  Forall (fun n => prepare_terms h n ≠ [])
         (filter (fun o => is_PrepareNode h o) (operations tape)) ->
  Forall (fun n => measure_terms h n ≠ [])
         (filter (fun o => is_MeasureNode h o) (operations tape)) ->
  measurements tape = m :: ms ->
  h !! m = Some (MeasurementProcess rt obs ws) ->
  rt ≠ Expectation ->
  expand_fragment_tapes h tape
  = Raise (ValueError "Only expectation values supported for now").
Proof.
  intros Hops Hpt Hmt Hms Hm Hrt.
  apply (expand_fragment_tapes_refused h tape m ms); try done.
  intros ot. unfold full_tensor. rewrite Hm. by rewrite bool_decide_eq_false_2.
Qed.


Lemma expand_fragment_tapes_no_terms_witness :
  0%nat ∈ operations no_terms_tape
  /\ is_PrepareNode no_terms_heap 0 = true
  /\ prepare_terms no_terms_heap 0 = []
  /\ expand_fragment_tapes no_terms_heap no_terms_tape = Ok ([], [0%nat], []).
Proof.
  assert (0%nat ∈ operations no_terms_tape) as Hin by (by left).
  split; [exact Hin|]. split; [reflexivity|]. split; [reflexivity|].
  exact (expand_fragment_tapes_no_terms no_terms_heap no_terms_tape 0%nat Hin
           (or_introl (conj eq_refl eq_refl))).
Defined.

Lemma expand_fragment_tapes_not_expectation_witness :
  expand_fragment_tapes variance_heap zx_tape
  = Raise (ValueError "Only expectation values supported for now").
Proof.
  refine (expand_fragment_tapes_not_expectation variance_heap zx_tape 1%nat [] Variance
            (Some (Single (Obs PauliZ [0]))) [] _ _ _ _ _ _).
  - reflexivity.
  - vm_compute. constructor.
  - vm_compute. constructor.
  - reflexivity.
  - reflexivity.
  - discriminate.
Defined.


(** ** Configuration expander: the merged observable *)

Lemma first_wires_Ok (ts : list observable) (r : list (wire * observable)) :
  mapR first_wire ts = Ok r -> r = map (fun t => (hd 0 (obs_wires t), t)) ts.
Proof.
  revert r. induction ts as [|t ts IH]; intros r; simpl; [by intros [= <-]|].
  unfold first_wire at 1. destruct (obs_wires t) as [|w ws] eqn:Hw; [discriminate|]. simpl.
  destruct (mapR first_wire ts) as [r'|]; [|discriminate]. simpl.
  intros [= <-]. by rewrite (IH r' eq_refl).
Qed.

Lemma insert_by_wire_perm (x : wire * observable) (l : list (wire * observable)) :
  insert_by_wire x l ≡ₚ x :: l.
Proof.
  induction l as [|y l IH]; simpl; [done|].
  destruct (x.1 <? y.1); [done|]. rewrite IH. apply Permutation_swap.
Qed.

Lemma insert_by_wire_increasing (x : wire * observable) (l : list (wire * observable)) :
  increasing_wires l -> x.1 ∉ map fst l -> increasing_wires (insert_by_wire x l).
Proof.
  induction 1 as [|y l Hy Hl IH]; simpl; intros Hx.
  - by repeat constructor.
  - apply not_elem_of_cons in Hx as [Hne Hx].
    destruct (x.1 <? y.1) eqn:Hlt.
    + apply Z.ltb_lt in Hlt. constructor; [|by constructor].
      constructor; [done|]. eapply Forall_impl; [exact Hy|]. simpl. intros; lia.
    + apply Z.ltb_ge in Hlt. constructor; [|by apply IH].
      rewrite insert_by_wire_perm. constructor; [lia|done].
Qed.

Lemma sorted_by_wire_Ok (l r : list (wire * observable)) :
  sorted_by_wire l = Ok r -> r ≡ₚ l /\ increasing_wires r.
Proof.
  unfold sorted_by_wire. case_bool_decide as Hnd; [|discriminate]. intros [= <-].
  assert (forall acc,
            NoDup (map fst l) -> (forall x, x ∈ l -> x.1 ∉ map fst acc) ->
            increasing_wires acc ->
            fold_left (fun acc x => insert_by_wire x acc) l acc ≡ₚ l ++ acc
            /\ increasing_wires (fold_left (fun acc x => insert_by_wire x acc) l acc))
    as Hgen.
  { clear Hnd. induction l as [|x l IH]; intros acc Hnd Hacc Hinc; simpl; [done|].
    simpl in Hnd. apply NoDup_cons in Hnd as [Hx Hnd].
    destruct (IH (insert_by_wire x acc)) as [Hperm Hsorted].
    - done.
    - intros y Hy. rewrite insert_by_wire_perm. simpl.
      apply not_elem_of_cons. split; [|apply Hacc; by right].
      intros Heq. apply Hx. rewrite <- Heq.
      change (map ?f) with (fmap (M := list) f). apply list_elem_of_fmap. by exists y.
    - apply insert_by_wire_increasing; [done|]. apply Hacc. by left.
    - split; [|done]. rewrite Hperm, insert_by_wire_perm. by rewrite Permutation_middle. }
  destruct (Hgen []) as [Hperm Hsorted]; [done| |constructor|].
  - intros x _ Hx. by apply elem_of_nil in Hx.
  - by rewrite app_nil_r in Hperm.
Qed.

Lemma merged_observable (op_tensor terms : list observable) (e : obs_expr) :
  (let? op_tensor_wires := mapR first_wire op_tensor in
   let? m_obs_wires := mapR first_wire terms in
   let? all_wires := sorted_by_wire (op_tensor_wires ++ m_obs_wires) in
   Ok (Tensor (map snd all_wires))) = Ok e ->
  exists ts, e = Tensor ts
    /\ ts ≡ₚ op_tensor ++ terms
    /\ increasing_wires (map (fun t => (hd 0 (obs_wires t), t)) ts).
Proof.
  intros (r1 & ->%first_wires_Ok & (r2 & ->%first_wires_Ok
            & (r & [Hperm Hsorted]%sorted_by_wire_Ok & [= <-])%rbind_Ok)%rbind_Ok)%rbind_Ok.
  exists (map snd r). split; [done|].
  rewrite <- map_app in Hperm.
  assert (map (fun t => (hd 0 (obs_wires t), t)) (map snd r) = r) as Hr.
  { assert (Forall (fun p => p = (hd 0 (obs_wires p.2), p.2)) r) as Hform.
    { rewrite Hperm. apply Forall_fmap, Forall_forall. done. }
    clear Hperm Hsorted. induction Hform as [|p r Hp _ IH]; simpl; [done|].
    by rewrite IH, <- Hp. }
  split; [|by rewrite Hr].
  change (map snd r) with (snd <$> r). rewrite Hperm.
  change (map ?f ?l) with (f <$> l). rewrite <- list_fmap_compose.
  by rewrite list_fmap_id.
Qed.

(** X14: the observable that a configuration tape measures for a user
    measurement is the tensor product of the cut observables and the
    factors of the user's observable, in increasing order of their
    first wire. *)
Theorem full_tensor_sorted (h : list object) (op_tensor : list observable) (m : oid)
    (e : obs_expr) :
  full_tensor h op_tensor m = Ok e ->
  exists ts terms,
    e = Tensor ts
    /\ admitted_factors h m = Some terms
    /\ ts ≡ₚ op_tensor ++ terms
    /\ increasing_wires (map (fun t => (hd 0 (obs_wires t), t)) ts).
Proof.
  unfold full_tensor, admitted_factors.
  destruct (h !! m) as [[|rt [[o|terms]|] ws]|]; try discriminate;
    (case_bool_decide as Hrt; [subst rt|discriminate]); try discriminate.
  - destruct (is_pauli o); [|discriminate].
    intros (ts & -> & Hperm & Hsorted)%merged_observable.
    by exists ts, [o].
  - destruct (forallb is_pauli_tensor_factor terms); [|discriminate].
    intros (ts & -> & Hperm & Hsorted)%merged_observable.
    by exists ts, terms.
Qed.

Lemma full_tensor_sorted_witness :
  full_tensor cut_fragment_heap [Obs PauliX [2]] 3
  = Ok (Tensor [Obs PauliZ [1]; Obs PauliX [2]])
  /\ exists ts terms,
       Tensor [Obs PauliZ [1]; Obs PauliX [2]] = Tensor ts
       /\ admitted_factors cut_fragment_heap 3 = Some terms
       /\ ts ≡ₚ [Obs PauliX [2]] ++ terms
       /\ increasing_wires (map (fun t => (hd 0 (obs_wires t), t)) ts).
Proof.
  assert (full_tensor cut_fragment_heap [Obs PauliX [2]] 3
          = Ok (Tensor [Obs PauliZ [1]; Obs PauliX [2]])) as Hrun
    by (vm_compute; reflexivity).
  split; [exact Hrun|]. exact (full_tensor_sorted _ _ _ _ Hrun).
Defined.

(** ** Tensor assembler: when it returns, and the shape of the tensors *)

Section tensor_shapes.
Context {R : Type} `{Scalar R}.

Lemma length_bind_const {A B} (f : A -> list B) (l : list A) (k : nat) :
  (forall x, length (f x) = k) -> length (l ≫= f) = (length l * k)%nat.
Proof.
  intros Hf. induction l as [|x l IH]; [done|].
  change ((x :: l) ≫= f) with (f x ++ (l ≫= f)).
  rewrite length_app, Hf, IH. simpl. lia.
Qed.

(** contracting one axis of a tensor whose axes all have length four
    with the change-of-basis matrix gives such a tensor *)
Lemma tensordot_mat_shape (t : ndarray R) (i n : nat) :
  shape t = replicate n 4%nat -> (i < n)%nat ->
  exists t', tensordot_mat CHANGE_OF_BASIS_MAT t i = Ok t'
             /\ shape t' = replicate n 4%nat
             /\ length (data t') = (4 ^ n)%nat.
Proof.
  intros Hshape Hi. unfold tensordot_mat. rewrite Hshape.
  rewrite lookup_replicate_2 by done.
  change (forallb _ CHANGE_OF_BASIS_MAT) with true. cbv iota.
  eexists. split; [reflexivity|]. cbn [shape data].
  rewrite take_replicate, drop_replicate, Nat.min_l by lia.
  split.
  - change (length CHANGE_OF_BASIS_MAT) with 4%nat.
    rewrite <- replicate_add. change (4%nat :: replicate ?k 4%nat)
      with (replicate (S k) 4%nat). f_equal. lia.
  - rewrite (length_bind_const _ _ (4 ^ i * 4 ^ (n - S i))%nat).
    + change (length CHANGE_OF_BASIS_MAT) with 4%nat.
      replace (4 ^ n)%nat with (4 ^ (S i + (n - S i)))%nat by (f_equal; lia).
      rewrite Nat.pow_add_r, Nat.pow_succ_r'. lia.
    + intros row. rewrite (length_bind_const _ _ (4 ^ (n - S i))%nat).
      * by rewrite length_seq, size_of_replicate_4.
      * intros p. rewrite (length_bind_const _ _ 1%nat) by done.
        rewrite length_seq, size_of_replicate_4. lia.
Qed.

Lemma tensordot_mats_shape (l : list nat) (t : ndarray R) (n : nat) :
  shape t = replicate n 4%nat -> length (data t) = (4 ^ n)%nat ->
  Forall (fun i => i < n)%nat l ->
  exists t', foldR (fun t i => tensordot_mat CHANGE_OF_BASIS_MAT t i) l t = Ok t'
             /\ shape t' = replicate n 4%nat
             /\ length (data t') = (4 ^ n)%nat.
Proof.
  intros Hshape Hlen Hl. revert t Hshape Hlen.
  induction Hl as [|i l Hi _ IH]; intros t Hshape Hlen; simpl; [by exists t|].
  destruct (tensordot_mat_shape t i n Hshape Hi) as (t1 & -> & Hshape1 & Hlen1). simpl.
  by apply IH.
Qed.

Lemma get_tensors_loop_shapes (results : list (list R)) (shapes : list nat)
    (pms : list (list oid * list oid)) (ctr : nat) (acc : list (ndarray R)) :
  Forall2 (fun s pm => s = (4 ^ (length pm.1 + length pm.2))%nat) shapes pms ->
  (ctr + sum_list shapes <= length results)%nat ->
  Forall (fun r => length r = 1%nat) results ->
  exists new,
    foldR (fun '(ctr, tensors) '(s, (p, m)) =>
      let n_prep := length p in
      let n_meas := length m in
      let target_shape := replicate (n_prep + n_meas) 4%nat in
      let? stacked := stack (take s (drop ctr results)) in
      let? fragment_results := reshape target_shape stacked in
      let fragment_results :=
        scale (s_pow2_neg_half (n_meas + n_prep)) fragment_results in
      let ctr := (ctr + s)%nat in
      let? fragment_results := foldR (fun fragment_results i =>
          tensordot_mat CHANGE_OF_BASIS_MAT fragment_results i)
          (seq 0 n_prep) fragment_results in
      Ok (ctr, tensors ++ [fragment_results]))
    (zip shapes pms) (ctr, acc) = Ok ((ctr + sum_list shapes)%nat, acc ++ new)
    /\ Forall2 (fun t pm =>
         shape t = replicate (length pm.1 + length pm.2) 4%nat
         /\ length (data t) = (4 ^ (length pm.1 + length pm.2))%nat) new pms.
Proof.
  intros Hshapes. revert ctr acc.
  match goal with |- context [foldR ?f _ _] => set (body := f) end.
  induction Hshapes as [|s [p m] shapes pms Hs _ IH]; intros ctr acc Hlen Hone.
  - exists []. simpl. rewrite Nat.add_0_r, app_nil_r. by split.
  - simpl in Hs, Hlen. cbn [zip_with foldR]. unfold body at 1.
    set (n := (length p + length m)%nat) in *.
    set (slice := take s (drop ctr results)).
    assert (length slice = s) as Hslice
      by (subst slice; rewrite length_take, length_drop; lia).
    assert (Forall (fun r => length r = 1%nat) slice) as Hslice1.
    { subst slice. apply Forall_take, Forall_drop. done. }
    assert (stack slice = Ok (NDArray [s; 1%nat] (concat slice))) as Hstack.
    { unfold stack. destruct slice as [|r slice'] eqn:Hsl.
      - simpl in Hslice. pose proof (Nat.pow_nonzero 4 n). lia.
      - pose proof (Forall_inv Hslice1) as Hr. rewrite <- Hslice.
        assert (forallb (fun r' => bool_decide (length r' = length r)) (r :: slice') = true)
          as ->.
        { apply forallb_forall. intros r' Hr'%list_elem_of_In.
          rewrite Forall_forall in Hslice1. apply bool_decide_eq_true.
          rewrite (Hslice1 r' Hr'). done. }
        by rewrite Hr. }
    cbv zeta. fold slice. rewrite Hstack. cbn [rbind].
    assert (length (concat slice) = (4 ^ n)%nat) as Hdata.
    { rewrite (length_concat_uniform slice 1) by done. lia. }
    unfold reshape. cbn [data]. rewrite size_of_replicate_4.
    fold n. rewrite bool_decide_eq_true_2 by done. cbn [rbind].
    destruct (tensordot_mats_shape (seq 0 (length p))
                (scale (s_pow2_neg_half (length m + length p))
                       (NDArray (replicate n 4%nat) (concat slice))) n)
      as (t' & -> & Hshape' & Hlen').
    + done.
    + unfold scale. cbn [data]. by rewrite length_map.
    + apply Forall_forall. intros i Hi%elem_of_seq. lia.
    + cbn [rbind].
      destruct (IH (ctr + s)%nat (acc ++ [t'])) as (new & -> & Hnew); [lia|done|].
      exists (t' :: new). split.
      * rewrite <- app_assoc. simpl. rewrite Nat.add_assoc. done.
      * by constructor.
Qed.

(** X15: with [4^(n_p + n_m)] configurations for each fragment and
    enough results, each of length one, [_get_tensors] returns one
    tensor per fragment, with [n_p + n_m] axes of length four. *)
Theorem get_tensors_shapes (results : list (list R)) (shapes : list nat)
    (prepare_nodes measure_nodes : list (list oid)) :
  Forall2 (fun s pm => s = (4 ^ (length pm.1 + length pm.2))%nat)
          shapes (zip prepare_nodes measure_nodes) ->
  (sum_list shapes <= length results)%nat ->
  Forall (fun r => length r = 1%nat) results ->
  exists tensors,
    _get_tensors results shapes prepare_nodes measure_nodes = Ok tensors
    /\ Forall2 (fun t pm =>
         shape t = replicate (length pm.1 + length pm.2) 4%nat
         /\ length (data t) = (4 ^ (length pm.1 + length pm.2))%nat)
         tensors (zip prepare_nodes measure_nodes).
Proof.
  intros Hshapes Hlen Hone. unfold _get_tensors.
  destruct (get_tensors_loop_shapes results shapes (zip prepare_nodes measure_nodes)
              0 [] Hshapes) as (new & Hfold & Hnew); [simpl; lia|done|].
  exists new. split; [|done].
  match goal with
  | |- rbind ?x _ = _ => replace x with (Ok (A := nat * list (ndarray R))
                                           ((0 + sum_list shapes)%nat, [] ++ new))
                           by (symmetry; exact Hfold)
  end.
  done.
Qed.

End tensor_shapes.

Lemma get_tensors_shapes_witness :
  exists tensors,
    _get_tensors (scalar_results (one_hot 16 2)) [16%nat] [[7%nat; 8%nat]] [[]]
    = Ok tensors
    /\ Forall2 (fun t pm =>
         shape t = replicate (length pm.1 + length pm.2) 4%nat
         /\ length (data t) = (4 ^ (length pm.1 + length pm.2))%nat)
         tensors (zip [[7%nat; 8%nat]] [([] : list oid)]).
Proof.
  refine (get_tensors_shapes (R := QSqrt2) (scalar_results (one_hot 16 2)) [16%nat]
            [[7%nat; 8%nat]] [[]] _ _ _).
  - repeat constructor.
  - simpl. lia.
  - apply (bool_decide_unpack _). vm_compute. exact I.
Defined.

(** ** Post-processing of fragments that no cut joins *)

Section without_cuts.
Context {R : Type} `{ScalarLaws R}.

Lemma get_tensors_scalars_loop (pre : list (list R)) (rs : list R)
    (acc : list (ndarray R)) :
  foldR (fun '(ctr, tensors) '(s, (p, m)) =>
      let n_prep := length p in
      let n_meas := length m in
      let target_shape := replicate (n_prep + n_meas) 4%nat in
      let? stacked := stack (take s (drop ctr (pre ++ map (fun r => [r]) rs))) in
      let? fragment_results := reshape target_shape stacked in
      let fragment_results :=
        scale (s_pow2_neg_half (n_meas + n_prep)) fragment_results in
      let ctr := (ctr + s)%nat in
      let? fragment_results := foldR (fun fragment_results i =>
          tensordot_mat CHANGE_OF_BASIS_MAT fragment_results i)
          (seq 0 n_prep) fragment_results in
      Ok (ctr, tensors ++ [fragment_results]))
    (zip (replicate (length rs) 1%nat)
         (zip (replicate (length rs) ([] : list oid)) (replicate (length rs) ([] : list oid))))
    (length pre, acc)
  = Ok ((length pre + length rs)%nat, acc ++ map (fun r => NDArray [] [r]) rs).
Proof.
  match goal with |- context [foldR ?f _ _] => set (body := f) end.
  assert (forall r rest pre' acc',
            pre ++ map (fun r => [r]) rs = pre' ++ [r] :: rest ->
            body (length pre', acc') (1%nat, ([], []))
            = Ok ((length pre' + 1)%nat, acc' ++ [NDArray [] [r]])) as Hstep.
  { intros r rest pre' acc' Heq. unfold body. cbv beta iota zeta.
    rewrite Heq, drop_app_length. simpl.
    unfold reshape. simpl. unfold scale. simpl.
    by rewrite s_pow2_neg_half_0, s_mul_one. }
  clearbody body.
  assert (forall rest pre' acc',
            pre ++ map (fun r => [r]) rs = pre' ++ map (fun r => [r]) rest ->
            foldR body
              (zip (replicate (length rest) 1%nat)
                   (zip (replicate (length rest) ([] : list oid))
                        (replicate (length rest) ([] : list oid))))
              (length pre', acc')
            = Ok ((length pre' + length rest)%nat,
                  acc' ++ map (fun r => NDArray [] [r]) rest)) as Hgen.
  { induction rest as [|r rest IH]; intros pre' acc' Heq.
    - simpl. by rewrite Nat.add_0_r, app_nil_r.
    - cbn [length replicate zip_with foldR map].
      rewrite (Hstep r (map (fun r => [r]) rest) pre' acc' Heq). cbn [rbind].
      specialize (IH (pre' ++ [[r]]) (acc' ++ [NDArray [] [r]])).
      rewrite length_app in IH. simpl in IH. rewrite IH.
      + rewrite <- app_assoc. simpl. f_equal. f_equal. lia.
      + rewrite Heq, <- app_assoc. done. }
  by apply Hgen.
Qed.

Lemma tensor_indxs_without_edges (k : nat) :
  tensor_indxs_of (CommGraph (seq 0 k) []) (replicate k []) (replicate k [])
  = Ok (replicate k []).
Proof.
  unfold tensor_indxs_of. cbn [comm_nodes].
  set (pairs := enumerate (zip (seq 0 k) (replicate k ([] : list oid)))).
  rewrite length_seq.
  assert (forall (l : list (nat * (nat * list oid))) (st : nat * list (list nat) * gmap nat nat),
    fold_left (fun st '(i, (node, prep)) =>
      let predecessors := comm_pred (CommGraph (seq 0 k) []) node in
      fold_left (fun st '(pred_node, pred_edges) =>
        fold_left (fun st '(meas_op, prep_op) =>
          fold_left (fun '(ctr, tensor_indxs, meas_map) p =>
            if bool_decide (p = prep_op) then
              let symb := get_symbol ctr in
              (Datatypes.S ctr,
               alter (fun s => s ++ [symb]) i tensor_indxs,
               <[meas_op := symb]> meas_map)
            else (ctr, tensor_indxs, meas_map)) prep st)
          pred_edges st)
        predecessors st) l st = st) as Hfirst.
  { induction l as [|[i [node prep]] l IH]; intros st; simpl; [done|]. apply IH. }
  rewrite Hfirst.
  generalize (replicate k ([] : list nat)). generalize pairs.
  induction pairs0 as [|[i [node meas]] l IH]; intros st; simpl; [done|]. apply IH.
Qed.

Lemma symbol_dims_scalars (rs : list R) :
  symbol_dims (replicate (length rs) []) (map (fun r => NDArray [] [r]) rs) = Ok [].
Proof.
  unfold symbol_dims. rewrite length_replicate, length_map.
  rewrite bool_decide_eq_true_2 by done.
  induction rs as [|r rs IH]; simpl; [done|]. exact IH.
Qed.

Lemma entries_scalars (rs : list R) (asg : list (nat * nat)) :
  map (fun '(term, t) => entry t (map (lookup_symbol asg) term))
      (zip (replicate (length rs) []) (map (fun r => NDArray [] [r]) rs))
  = rs.
Proof. induction rs as [|r rs IH]; simpl; [done|]. by rewrite IH. Qed.

(** X16: for fragments that no cut joins, each with one configuration
    and no prepare or measure node, [contract] returns the product of
    their results. *)
Theorem contract_without_cuts (rs : list R) :
  rs ≠ [] ->
  contract (map (fun r => [r]) rs) (replicate (length rs) 1%nat)
           (CommGraph (seq 0 (length rs)) [])
           (replicate (length rs) []) (replicate (length rs) [])
  = Ok (NDArray [] [s_prod rs]).
Proof.
  intros Hrs. unfold contract.
  assert (exists r0 rest, map (fun r => [r]) rs = [r0] :: rest) as (r0 & rest & Hmap)
    by (destruct rs; [done|by eexists _, _]).
  rewrite Hmap. rewrite bool_decide_eq_false_2 by (simpl; lia). rewrite <- Hmap.
  unfold _get_tensors.
  pose proof (get_tensors_scalars_loop [] rs []) as Hloop.
  match goal with
  | |- rbind (rbind ?x _) _ = _ =>
      replace x with (Ok (A := nat * list (ndarray R))
                        ((length ([] : list (list R)) + length rs)%nat,
                         [] ++ map (fun r => NDArray [] [r]) rs))
        by (symmetry; exact Hloop)
  end.
  cbn [rbind snd app]. unfold _contract_tensors.
  rewrite tensor_indxs_without_edges. cbn [rbind].
  unfold oe_contract. rewrite symbol_dims_scalars. cbn [rbind map filter fold_left].
  simpl. rewrite entries_scalars. by rewrite s_add_zero.
Qed.

End without_cuts.

Lemma contract_without_cuts_witness :
  contract (map (fun r => [r]) [qs_of_Z 2; qs_of_Z 3]) [1%nat; 1%nat]
           (CommGraph [0%nat; 1%nat] []) [[]; []] [[]; []]
  = Ok (NDArray [] [s_prod [qs_of_Z 2; qs_of_Z 3]]).
Proof.
  exact (contract_without_cuts (R := QSqrt2) [qs_of_Z 2; qs_of_Z 3] ltac:(discriminate)).
Defined.

(** ** graph_to_tape: the wire after a measure node *)

Lemma mapR_wire_map (wire_map : gmap wire wire) (f : wire -> wire) (l : list wire) :
  (forall w, w ∈ l -> wire_map !! w = Some (f w)) ->
  mapR (fun w => match wire_map !! w with
                 | Some w' => Ok w'
                 | None => Raise KeyError
                 end) l = Ok (map f l).
Proof.
  induction l as [|w l IH]; intros Hl; simpl; [done|].
  rewrite (Hl w) by by left. simpl. rewrite IH; [done|].
  intros w' Hw'. apply Hl. by right.
Qed.

Lemma foldH_app {A B} (f : A -> B -> M A) (l1 l2 : list B) (a : A) (h : list object) :
  foldH f (l1 ++ l2) a h
  = match foldH f l1 a h with
    | Ok (a', h') => foldH f l2 a' h'
    | Raise e => Raise e
    end.
Proof.
  revert a h. induction l1 as [|b l1 IH]; intros a h; cbn [foldH app]; [done|].
  unfold bind. destruct (f a b h) as [[a1 h1]|e]; [apply IH|done].
Qed.

(** lowering a node that is not a measure node, under a wire map that
    sends its wires along [f] *)
Lemma lower_node_remap (tape : QuantumTape) (ws : list wire) (wm : gmap wire wire)
    (f : wire -> wire) (q : Q) (op : oid) (hk : list object) :
  is_MeasureNode hk op = false ->
  (forall w, w ∈ wires hk op -> wm !! w = Some (f w)) ->
  exists tape' hk',
    lower_node (tape, ws, wm) (q, op) hk = Ok ((tape', ws, wm), hk')
    /\ (forall n, n ≠ op -> hk' !! n = hk !! n)
    /\ (forall c ws0, hk !! op = Some (Operator c ws0) ->
          hk' !! op = Some (Operator c (map f ws0))).
Proof.
  intros Hmn Hwm. unfold lower_node, bind, get_heap, lift, assign__wires. simpl.
  rewrite (mapR_wire_map wm f) by done.
  destruct (hk !! op) as [o|] eqn:Ho.
  - assert (is_MeasureNode (<[op := set__wires (map f (wires hk op)) o]> hk) op = false)
      as ->.
    { unfold is_MeasureNode, class_of in *. rewrite Ho in Hmn.
      rewrite list_lookup_insert_eq by (by eapply lookup_lt_Some). by destruct o. }
    unfold ret. eexists _, _. split; [reflexivity|]. split.
    + intros n Hn. by apply list_lookup_insert_ne.
    + intros c ws0 [= ->]. rewrite list_lookup_insert_eq by (by eapply lookup_lt_Some).
      unfold wires. by rewrite Ho.
  - rewrite Hmn. unfold ret. eexists _, _. split; [reflexivity|]. split; [done|].
    intros c ws0. done.
Qed.

Lemma lower_nodes_remap (h : list object) (f : wire -> wire) (l : list (Q * oid))
    (tape : QuantumTape) (ws : list wire) (wm : gmap wire wire) (hk : list object) :
  NoDup (map snd l) ->
  (forall n, n ∈ map snd l -> hk !! n = h !! n) ->
  Forall (fun x => is_MeasureNode h x.2 = false
                   /\ forall w, w ∈ wires h x.2 -> wm !! w = Some (f w)) l ->
  exists tape' hk',
    foldH lower_node l (tape, ws, wm) hk = Ok ((tape', ws, wm), hk')
    /\ (forall n, n ∉ map snd l -> hk' !! n = hk !! n)
    /\ (forall n c ws0, n ∈ map snd l -> h !! n = Some (Operator c ws0) ->
          hk' !! n = Some (Operator c (map f ws0))).
Proof.
  revert tape hk. induction l as [|[q op] l IH]; intros tape hk Hnd Hsame Hall; cbn [foldH].
  - unfold ret. eexists _, _. split; [reflexivity|]. split; [done|].
    intros n c ws0 Hn. by apply elem_of_nil in Hn.
  - simpl in Hnd. apply NoDup_cons in Hnd as [Hop Hnd].
    apply Forall_cons in Hall as [[Hmn Hwm] Hall]. simpl in Hmn, Hwm.
    assert (hk !! op = h !! op) as Hlook by (apply Hsame; by left).
    destruct (lower_node_remap tape ws wm f q op hk) as (t1 & h1 & Hstep & Hframe & Hop1).
    { unfold is_MeasureNode, class_of in *. by rewrite Hlook. }
    { intros w Hw. apply Hwm. unfold wires in *. by rewrite <- Hlook. }
    unfold bind at 1. rewrite Hstep.
    destruct (IH t1 h1 Hnd) as (t2 & h2 & Hrest & Hframe2 & Hops2).
    { intros n Hn. rewrite Hframe; [apply Hsame; by right|]. intros ->. done. }
    { done. }
    exists t2, h2. split; [done|]. split.
    + intros n Hn. simpl in Hn. apply not_elem_of_cons in Hn as [Hne Hn].
      rewrite Hframe2 by done. by apply Hframe.
    + intros n c ws0 Hn Hn0. simpl in Hn. apply elem_of_cons in Hn as [->|Hn].
      * rewrite Hframe2 by done. apply Hop1. by rewrite Hlook.
      * by apply Hops2.
Qed.

(** X17: a fragment with one measure node, on wire [w].  The nodes that
    [graph_to_tape] queues before the measure node, and the measure node
    itself, keep their wires; in the operators queued after it, [w] is
    replaced by the least label that no node of the fragment uses. *)
Theorem graph_to_tape_after_measure_node (g : MultiDiGraph) (h : list object)
    (pre post : list (Q * oid)) (q : Q) (mn : oid) (w : wire) :
  sorted_by_order (map (fun '(op, order) => (order, op)) (nodes g))
    = pre ++ (q, mn) :: post ->
  NoDup (node_list g) ->
  is_MeasureNode h mn = true -> wires h mn = [w] ->
  Forall (fun x => is_MeasureNode h x.2 = false) (pre ++ post) ->
  let new_wire := _find_new_wire (all_wires (map (wires h) (node_list g))) in
  exists tape h',
    graph_to_tape g h = Ok (tape, h')
    /\ (forall n c ws, n ∈ map snd pre \/ n = mn ->
          h !! n = Some (Operator c ws) -> h' !! n = Some (Operator c ws))
    /\ (forall n c ws, n ∈ map snd post ->
          h !! n = Some (Operator c ws) ->
          h' !! n = Some (Operator c
                            (map (fun x => if bool_decide (x = w) then new_wire else x) ws)))
    /\ forall n, n ∈ node_list g -> new_wire ∉ wires h n.
Proof.
  intros Hsorted Hnd Hmn Hw Hplain. cbv zeta.
  set (wires0 := all_wires (map (wires h) (node_list g))).
  set (wm := (list_to_map (map (fun w => (w, w)) wires0) : gmap wire wire)).
  assert (forall n x, n ∈ node_list g -> x ∈ wires h n -> x ∈ wires0) as Hwires0.
  { intros n x Hn Hx. apply all_wires_elem. exists (wires h n). split; [|done].
    change (map ?f) with (fmap (M := list) f). apply list_elem_of_fmap. by exists n. }
  assert (NoDup (map snd (pre ++ (q, mn) :: post))) as Hnd'.
  { rewrite <- Hsorted.
    assert (map snd (sorted_by_order (map (fun '(op, order) => (order, op)) (nodes g)))
            ≡ₚ node_list g) as ->; [|done].
    rewrite sorted_by_order_perm. unfold node_list.
    rewrite map_map. erewrite map_ext; [reflexivity|]. by intros [? ?]. }
  assert (forall n, n ∈ map snd (pre ++ (q, mn) :: post) -> n ∈ node_list g) as Hin.
  { intros n Hn. rewrite <- Hsorted in Hn. by apply sorted_nodes_elem. }
  rewrite map_app in Hnd', Hin. simpl in Hnd', Hin.
  apply NoDup_app in Hnd' as (Hnd_pre & Hdisj & Hnd_post).
  apply NoDup_cons in Hnd_post as [Hmn_post Hnd_post].
  apply Forall_app in Hplain as [Hpre Hpost].
  unfold graph_to_tape. unfold bind at 1. unfold get_heap at 1.
  fold wires0. fold wm. rewrite Hsorted.
  (* the nodes before the measure node *)
  destruct (lower_nodes_remap h (fun x => x) pre (Tape [] []) wires0 wm h)
    as (t1 & h1 & Hrun1 & Hframe1 & Hops1); [done|done| |].
  { apply Forall_forall. intros x Hx. rewrite Forall_forall in Hpre.
    split; [by apply Hpre|]. intros x0 Hx0. apply identity_map_lookup.
    apply (Hwires0 x.2); [|done]. apply Hin, elem_of_app. left.
    change (map ?f) with (fmap (M := list) f). apply list_elem_of_fmap. by exists x. }
  (* the measure node *)
  assert (h1 !! mn = h !! mn) as Hmn1.
  { apply Hframe1. intros Hc. apply (Hdisj mn Hc). by left. }
  assert (exists c, h !! mn = Some (Operator (MeasureNode c) [w])) as [c Hmn_obj].
  { unfold is_MeasureNode, class_of in Hmn. unfold wires in Hw.
    destruct (h !! mn) as [[[] ws|]|]; try discriminate. simpl in Hw. subst ws.
    by eexists. }
  assert (exists t2,
    lower_node (t1, wires0, wm) (q, mn) h1
    = Ok ((t2, all_wires [wires0; [_find_new_wire wires0]],
           <[w := _find_new_wire wires0]> wm), h1)) as [t2 Hrun2].
  { unfold lower_node. unfold bind at 1. unfold get_heap at 1. simpl.
    unfold wires at 1. rewrite Hmn1, Hmn_obj. simpl.
    assert (wm !! w = Some w) as ->.
    { apply identity_map_lookup.
      apply (Hwires0 mn); [apply Hin, elem_of_app; right; by left|].
      rewrite Hw. by left. }
    unfold bind, lift, assign__wires, get_heap. simpl.
    rewrite Hmn1, Hmn_obj. simpl.
    rewrite list_insert_id by (by rewrite Hmn1).
    unfold is_MeasureNode, class_of, is_measurement, wires. rewrite Hmn1, Hmn_obj. simpl.
    by eexists. }
  (* the nodes after it *)
  destruct (lower_nodes_remap h
              (fun x => if bool_decide (x = w) then _find_new_wire wires0 else x)
              post t2 (all_wires [wires0; [_find_new_wire wires0]])
              (<[w := _find_new_wire wires0]> wm) h1)
    as (t3 & h3 & Hrun3 & Hframe3 & Hops3); [done| | |].
  { intros n Hn. apply Hframe1. intros Hc. apply (Hdisj n Hc). by right. }
  { apply Forall_forall. intros x Hx. rewrite Forall_forall in Hpost.
    split; [by apply Hpost|]. intros x0 Hx0. case_bool_decide as Hx0w.
    - subst x0. apply lookup_insert_eq.
    - rewrite lookup_insert_ne by done. apply identity_map_lookup.
      apply (Hwires0 x.2); [|done]. apply Hin, elem_of_app. right. right.
      change (map ?f) with (fmap (M := list) f). apply list_elem_of_fmap. by exists x. }
  exists t3, h3. split_and!.
  - unfold bind at 1. rewrite foldH_app, Hrun1. cbn [foldH].
    unfold bind at 1. rewrite Hrun2, Hrun3. done.
  - intros n c0 ws0 [Hn| ->] Hobj.
    + rewrite Hframe3.
      * rewrite <- (list_fmap_id ws0). change (id <$> ws0) with (map (fun x => x) ws0).
        by apply Hops1.
      * intros Hc. apply (Hdisj n Hn). by right.
    + rewrite Hframe3 by done. by rewrite Hmn1.
  - intros n c0 ws0 Hn Hobj. by apply Hops3.
  - intros n Hn Hc. apply (find_new_wire_fresh wires0). by apply (Hwires0 n).
Qed.

Lemma graph_to_tape_after_measure_node_witness :
  let new_wire :=
    _find_new_wire (all_wires (map (wires cnot_cut_heap) (node_list cnot_cut_fragment))) in
  exists tape h',
    graph_to_tape cnot_cut_fragment cnot_cut_heap = Ok (tape, h')
    /\ (forall n c ws, n ∈ map snd [(0%Q, 0%nat)] \/ n = 4%nat ->
          cnot_cut_heap !! n = Some (Operator c ws) -> h' !! n = Some (Operator c ws))
    /\ (forall n c ws, n ∈ map snd [(3 # 2, 5%nat); (2%Q, 2%nat); (3%Q, 3%nat)] ->
          cnot_cut_heap !! n = Some (Operator c ws) ->
          h' !! n = Some (Operator c
                            (map (fun x => if bool_decide (x = 0) then new_wire else x) ws)))
    /\ forall n, n ∈ node_list cnot_cut_fragment -> new_wire ∉ wires cnot_cut_heap n.
Proof.
  refine (graph_to_tape_after_measure_node cnot_cut_fragment cnot_cut_heap
            [(0%Q, 0%nat)] [(3 # 2, 5%nat); (2%Q, 2%nat); (3%Q, 3%nat)] 1%Q 4%nat 0
            _ _ _ _ _).
  - vm_compute. reflexivity.
  - apply (bool_decide_unpack _). vm_compute. exact I.
  - reflexivity.
  - reflexivity.
  - repeat constructor.
Defined.

(** ** tape_to_graph: the edges *)

Lemma latest_on_nil (h : list object) (w : wire) (u : oid) : ~ latest_on h [] w u.
Proof. intros (i & Hi & _). by rewrite lookup_nil in Hi. Qed.

Lemma latest_on_snoc (h : list object) (P : list oid) (op : oid) (w : wire) (u : oid) :
  latest_on h (P ++ [op]) w u
  <-> (u = op /\ w ∈ wires h op) \/ ((w ∉ wires h op) /\ latest_on h P w u).
Proof.
  split.
  - intros (i & Hi & Hw & Hlast).
    apply lookup_snoc_Some in Hi as [[Hlt Hi]|[-> <-]]; [|by left].
    right. split.
    + apply (Hlast (length P)); [done|]. by apply list_lookup_middle.
    + exists i. split_and!; [done|done|].
      intros k x Hk Hx. apply (Hlast k x Hk). by apply lookup_app_l_Some.
  - intros [[-> Hw]|[Hw (i & Hi & Hwu & Hlast)]].
    + exists (length P). split_and!; [by apply list_lookup_middle|done|].
      intros k x Hk Hx. apply lookup_lt_Some in Hx.
      rewrite length_app in Hx. simpl in Hx. lia.
    + exists i. split_and!; [by apply lookup_app_l_Some|done|].
      intros k x Hk Hx. apply lookup_snoc_Some in Hx as [[_ Hx]|[_ <-]]; [|done].
      by apply (Hlast k).
Qed.

(** [latest_on] reads the wires of the operations only *)
Lemma latest_on_ext (h h' : list object) (ops : list oid) (w : wire) (u : oid) :
  (forall n, n ∈ ops -> wires h' n = wires h n) ->
  latest_on h' ops w u <-> latest_on h ops w u.
Proof.
  intros Hsame. unfold latest_on. split; intros (i & Hi & Hw & Hlast); exists i.
  - split_and!; [done| |].
    + rewrite <- Hsame; [done|]. by eapply list_elem_of_lookup_2.
    + intros k x Hk Hx. rewrite <- Hsame; [by eapply Hlast|].
      by eapply list_elem_of_lookup_2.
  - split_and!; [done| |].
    + rewrite Hsame; [done|]. by eapply list_elem_of_lookup_2.
    + intros k x Hk Hx. rewrite Hsame; [by eapply Hlast|].
      by eapply list_elem_of_lookup_2.
Qed.

Lemma link_operations_edges (op : oid) (ws : list wire) (g : MultiDiGraph)
    (wl : gmap wire oid) :
  NoDup ws ->
  let r := fold_left (link_operation op) ws (g, wl) in
  (forall e, e ∈ edges r.1
     <-> e ∈ edges g \/ (e.1.2 = op /\ e.2 ∈ ws /\ wl !! e.2 = Some e.1.1))
  /\ (forall w, r.2 !! w = if bool_decide (w ∈ ws) then Some op else wl !! w).
Proof.
  intros Hnd. revert g wl. induction Hnd as [|w0 ws Hw0 Hnd IH]; intros g wl; cbv zeta.
  - simpl. split.
    + intros e. split; [by left|]. intros [?|(_ & ?%elem_of_nil & _)]; done.
    + done.
  - cbn [fold_left]. unfold link_operation at 2.
    specialize (IH (match wl !! w0 with
                    | Some parent_op => add_edge parent_op op w0 g
                    | None => g
                    end) (<[w0 := op]> wl)).
    cbv zeta in IH. destruct IH as [IHe IHw]. split.
    + intros e. rewrite IHe. rewrite elem_of_cons.
      assert (e ∈ edges (match wl !! w0 with
                         | Some parent_op => add_edge parent_op op w0 g
                         | None => g
                         end)
              <-> e ∈ edges g \/ (e.1.2 = op /\ e.2 = w0 /\ wl !! e.2 = Some e.1.1)) as ->.
      { destruct (wl !! w0) as [p|] eqn:Hp; simpl.
        - rewrite elem_of_app, list_elem_of_singleton. split.
          + intros [?| ->]; [by left|]. right. simpl. by rewrite Hp.
          + intros [?|(Hv & Hw & Hu)]; [by left|]. right.
            destruct e as [[u v] w]. simpl in *. subst. rewrite Hp in Hu. by injection Hu as ->.
        - split; [by left|]. intros [?|(_ & Hw & Hu)]; [done|]. rewrite Hw, Hp in Hu. done. }
      split.
      * intros [[?|?]|(Hv & Hw & Hu)]; [by left|right; tauto|].
        right. split_and!; [done|by right|].
        rewrite lookup_insert_ne in Hu; [done|]. intros ->. done.
      * intros [?|(Hv & [Hw|Hw] & Hu)]; [by left; left|left; right; tauto|].
        right. split_and!; [done|done|].
        rewrite lookup_insert_ne; [done|]. intros ->. done.
    + intros w. rewrite IHw. destruct (decide (w = w0)) as [->|Hne].
      * rewrite (bool_decide_eq_true_2 (w0 ∈ w0 :: ws)) by by left.
        case_bool_decide; [done|]. by rewrite lookup_insert_eq.
      * rewrite lookup_insert_ne by done.
        case_bool_decide as Hin.
        -- rewrite bool_decide_eq_true_2; [done|]. by right.
        -- rewrite bool_decide_eq_false_2; [done|].
           intros [?|?]%elem_of_cons; done.
Qed.

Lemma add_node_edges (n : oid) (q : Q) (g : MultiDiGraph) :
  edges (add_node n q g) = edges g.
Proof. unfold add_node. by destruct (has_node g n). Qed.

(** the loop over the operations: an edge labelled [w] enters an
    operation from the latest operation before it that acts on [w] *)
Lemma add_operations_edges (h : list object) (rest P : list oid) (k : nat)
    (g : MultiDiGraph) (wl : gmap wire oid) (o : option nat) :
  Forall (fun op => NoDup (wires h op)) rest ->
  (forall w u, wl !! w = Some u <-> latest_on h P w u) ->
  (forall e, e ∈ edges g <->
     exists j, P !! j = Some e.1.2 /\ e.2 ∈ wires h e.1.2
               /\ latest_on h (take j P) e.2 e.1.1) ->
  let r := fold_left (add_operation h) (zip (seq k (length rest)) rest) (g, wl, o) in
  (forall w u, r.1.2 !! w = Some u <-> latest_on h (P ++ rest) w u)
  /\ (forall e, e ∈ edges r.1.1 <->
        exists j, (P ++ rest) !! j = Some e.1.2 /\ e.2 ∈ wires h e.1.2
                  /\ latest_on h (take j (P ++ rest)) e.2 e.1.1).
Proof.
  intros Hnd. revert P k g wl o.
  induction Hnd as [|op rest Hop _ IH]; intros P k g wl o Hwl He; cbv zeta.
  - simpl. by rewrite app_nil_r.
  - cbn [length seq zip_with fold_left].
    pose proof (link_operations_edges op (wires h op) (add_node op (Qnat k) g) wl Hop)
      as Hlink. cbv zeta in Hlink.
    assert (add_operation h (g, wl, o) (k, op)
            = ((fold_left (link_operation op) (wires h op)
                          (add_node op (Qnat k) g, wl)).1,
               (fold_left (link_operation op) (wires h op)
                          (add_node op (Qnat k) g, wl)).2, Some k)) as ->
      by (unfold add_operation; by destruct (fold_left _ _ _)).
    destruct (fold_left (link_operation op) (wires h op) (add_node op (Qnat k) g, wl))
      as [g1 wl1]. simpl in Hlink. destruct Hlink as [Hedges1 Hwl1]. simpl.
    rewrite add_node_edges in Hedges1.
    replace (P ++ op :: rest) with ((P ++ [op]) ++ rest) by by rewrite <- app_assoc.
    apply IH.
    + intros w u. rewrite Hwl1, latest_on_snoc. case_bool_decide as Hw.
      * split; [intros [= <-]; by left|]. intros [[-> _]|[? _]]; done.
      * rewrite Hwl. split; [by right|]. intros [[_ ?]|[_ ?]]; done.
    + intros e. rewrite Hedges1, He. split.
      * intros [(j & Hj & Hw & Hlast)|(Hv & Hw & Hu)].
        -- exists j. split_and!; [by apply lookup_app_l_Some|done|].
           rewrite take_app_le; [done|]. apply lookup_lt_Some in Hj. lia.
        -- exists (length P). split_and!.
           ++ rewrite Hv. by apply list_lookup_middle.
           ++ by rewrite Hv.
           ++ rewrite take_app_length. by apply Hwl.
      * intros (j & Hj & Hw & Hlast).
        apply lookup_snoc_Some in Hj as [[Hlt Hj]|[-> Hv]].
        -- left. exists j. split_and!; [done|done|].
           rewrite take_app_le in Hlast by lia. done.
        -- right. rewrite take_app_length in Hlast. split_and!; [done|by rewrite Hv|].
           by apply Hwl.
Qed.

Lemma add_parent_edges_edges (wl : gmap wire oid) (m : oid) (ws : list wire)
    (g g' : MultiDiGraph) :
  add_parent_edges wl m ws g = Ok g' ->
  forall e, e ∈ edges g'
    <-> e ∈ edges g \/ (e.1.2 = m /\ e.2 ∈ ws /\ wl !! e.2 = Some e.1.1).
Proof.
  unfold add_parent_edges. revert g. induction ws as [|w ws IH]; intros g; simpl.
  - intros [= <-] e. split; [by left|]. intros [?|(_ & ?%elem_of_nil & _)]; done.
  - destruct (wl !! w) as [p|] eqn:Hp; [|discriminate]. simpl.
    intros Hrest e. rewrite (IH _ Hrest). simpl.
    rewrite elem_of_app, list_elem_of_singleton, elem_of_cons. split.
    + intros [[?| ->]|(Hv & Hw & Hu)]; [by left| |right; tauto].
      right. simpl. split_and!; [done|by left|done].
    + intros [?|(Hv & [Hw|Hw] & Hu)]; [by left; left| |right; tauto].
      left. right. destruct e as [[u v] w']. simpl in *. subst.
      rewrite Hp in Hu. by injection Hu as ->.
Qed.

Lemma wires_app_l (h new : list object) (n : oid) :
  (n < length h)%nat -> wires (h ++ new) n = wires h n.
Proof. intros Hn. unfold wires. by rewrite lookup_app_l. Qed.

(** the loop over the factors of a tensor product: every new
    measurement gets an edge from the latest operation on each of its
    wires *)
Lemma add_factor_measurements_edges (wl : gmap wire oid) (rt : return_type)
    (obs : list observable) (g g' : MultiDiGraph) (k k' : nat) (hk hk' : list object) :
  foldH (fun '(graph, order) o =>
    let* m_ := alloc (MeasurementProcess rt (Some (Single o)) []) in
    let graph := add_node m_ (Qnat order) graph in
    let order := (order + 1)%nat in
    let* graph := lift (add_parent_edges wl m_ (obs_wires o) graph) in
    ret (graph, order)) obs (g, k) hk = Ok ((g', k'), hk') ->
  hk' = hk ++ map (fun o => MeasurementProcess rt (Some (Single o)) []) obs
  /\ forall e, e ∈ edges g'
       <-> e ∈ edges g
           \/ (e.1.2 ∈ seq (length hk) (length obs)
               /\ e.2 ∈ wires hk' e.1.2 /\ wl !! e.2 = Some e.1.1).
Proof.
  revert g k hk. induction obs as [|o obs IH]; intros g k hk; cbn [foldH].
  - unfold ret. intros [= <- <- <-]. rewrite app_nil_r. split; [done|].
    intros e. split; [by left|]. intros [?|(?%elem_of_nil & _)]; done.
  - unfold bind at 1. unfold bind at 1. unfold alloc at 1. unfold bind at 1.
    unfold lift at 1.
    destruct (add_parent_edges wl (length hk) (obs_wires o) _) as [g1|e] eqn:Hedges;
      [|discriminate].
    unfold ret at 1. intros [-> Hrest]%IH.
    pose proof (add_parent_edges_edges _ _ _ _ _ Hedges) as Hstep.
    rewrite add_node_edges in Hstep.
    split; [by rewrite <- app_assoc|].
    intros e. rewrite Hrest, Hstep. clear Hrest Hstep IH.
    rewrite length_app. simpl. rewrite Nat.add_1_r.
    set (new := map (fun o => MeasurementProcess rt (Some (Single o)) []) obs).
    assert (wires ((hk ++ [MeasurementProcess rt (Some (Single o)) []]) ++ new) (length hk)
            = obs_wires o) as Hw0.
    { unfold wires. rewrite <- app_assoc. simpl. by rewrite list_lookup_middle. }
    split.
    + intros [[?|(Hv & Hw & Hu)]|(Hv & Hw & Hu)]; [by left| |].
      * right. split_and!; [rewrite Hv; by left| |done]. by rewrite Hv, Hw0.
      * right. split_and!; [by right|done|done].
    + intros [?|([Hv|Hv]%elem_of_cons & Hw & Hu)]; [by left; left| |].
      * left. right. split_and!; [done| |done]. by rewrite Hv, Hw0 in Hw.
      * right. done.
Qed.

(** one measurement *)
Lemma add_measurement_edges (wl : gmap wire oid) (m : oid)
    (g g' : MultiDiGraph) (k k' : nat) (hk hk' : list object) :
  add_measurement wl (g, k) m hk = Ok ((g', k'), hk') ->
  let mn := if is_tensor_measurement hk m
            then seq (length hk) (length (factor_measurements hk m)) else [m] in
  hk' = hk ++ factor_measurements hk m
  /\ forall e, e ∈ edges g'
       <-> e ∈ edges g
           \/ (e.1.2 ∈ mn /\ e.2 ∈ wires hk' e.1.2 /\ wl !! e.2 = Some e.1.1).
Proof.
  cbv zeta.
  assert (forall ws,
    (let graph := add_node m (Qnat k) g in
     let order := (k + 1)%nat in
     let* graph := lift (add_parent_edges wl m ws graph) in
     ret (graph, order)) hk = Ok ((g', k'), hk') ->
    hk' = hk ++ []
    /\ forall e, e ∈ edges g'
         <-> e ∈ edges g \/ (e.1.2 ∈ [m] /\ e.2 ∈ ws /\ wl !! e.2 = Some e.1.1))
    as Hplain.
  { intros ws. cbv zeta. unfold bind, lift.
    destruct (add_parent_edges wl m ws _) as [g1|e] eqn:Hedges; [|discriminate].
    unfold ret. intros [= <- <- <-]. rewrite app_nil_r. split; [done|].
    intros e. rewrite (add_parent_edges_edges _ _ _ _ _ Hedges e), add_node_edges.
    by rewrite list_elem_of_singleton. }
  assert (forall ws,
    (let graph := add_node m (Qnat k) g in
     let order := (k + 1)%nat in
     let* graph := lift (add_parent_edges wl m ws graph) in
     ret (graph, order)) hk = Ok ((g', k'), hk') ->
    ws = wires hk m ->
    hk' = hk ++ []
    /\ forall e, e ∈ edges g'
         <-> e ∈ edges g
             \/ (e.1.2 ∈ [m] /\ e.2 ∈ wires hk' e.1.2 /\ wl !! e.2 = Some e.1.1))
    as Hplain'.
  { intros ws Hrun ->. destruct (Hplain _ Hrun) as [-> He]. split; [done|].
    intros e. rewrite He, app_nil_r. split; (intros [?|(Hv & Hw & Hu)]; [by left|right]).
    - split_and!; [done| |done]. apply list_elem_of_singleton in Hv. by rewrite Hv.
    - split_and!; [done| |done]. apply list_elem_of_singleton in Hv. by rewrite Hv in Hw. }
  clear Hplain.
  unfold add_measurement, is_tensor_measurement, factor_measurements.
  unfold bind at 1. unfold get_heap at 1.
  destruct (hk !! m) as [[c ws|rt [[o|obs]|] ws]|] eqn:Hobj;
    try (intros Hrun; apply (Hplain' _ Hrun); unfold wires; rewrite Hobj; reflexivity).
  intros [-> He]%add_factor_measurements_edges. split; [done|].
  intros e. rewrite He. by rewrite length_map.
Qed.

Lemma add_measurements_edges (wl : gmap wire oid) (h : list object) (ms : list oid)
    (g g' : MultiDiGraph) (k k' : nat) (extra hk' : list object) :
  Forall (fun m => m < length h)%nat ms ->
  foldH (add_measurement wl) ms (g, k) (h ++ extra) = Ok ((g', k'), hk') ->
  (exists new, hk' = (h ++ extra) ++ new)
  /\ forall e, e ∈ edges g'
       <-> e ∈ edges g
           \/ (e.1.2 ∈ measurement_nodes h (length (h ++ extra)) ms
               /\ e.2 ∈ wires hk' e.1.2 /\ wl !! e.2 = Some e.1.1).
Proof.
  revert g k extra. induction ms as [|m ms IH]; intros g k extra Hlt; cbn [foldH].
  - unfold ret. intros [= <- <- <-]. split; [exists []; by rewrite app_nil_r|].
    intros e. split; [by left|]. intros [?|(?%elem_of_nil & _)]; done.
  - unfold bind at 1.
    destruct (add_measurement wl (g, k) m (h ++ extra)) as [[[g1 k1] h1]|e] eqn:Hstep;
      [|discriminate].
    apply Forall_cons in Hlt as [Hmlt Hlt].
    apply add_measurement_edges in Hstep as [-> Hstep].
    assert ((h ++ extra) !! m = h !! m) as Hlook by by apply lookup_app_l.
    assert (factor_measurements (h ++ extra) m = factor_measurements h m) as Hfac
      by (unfold factor_measurements; by rewrite Hlook).
    assert (is_tensor_measurement (h ++ extra) m = is_tensor_measurement h m) as Hten
      by (unfold is_tensor_measurement; by rewrite Hlook).
    rewrite Hfac, Hten in *. clear Hfac Hten Hlook.
    rewrite <- app_assoc. intros [(new & ->) Hrest]%IH; [|done].
    split; [exists (factor_measurements h m ++ new); by rewrite <- !app_assoc|].
    intros e. rewrite Hrest, Hstep. clear Hrest Hstep IH. cbn [measurement_nodes].
    replace (length (h ++ extra ++ factor_measurements h m))
      with (length (h ++ extra) + length (factor_measurements h m))%nat
      by (rewrite !length_app; lia).
    assert (forall v, (v < length ((h ++ extra) ++ factor_measurements h m))%nat ->
              wires ((h ++ extra ++ factor_measurements h m) ++ new) v
              = wires ((h ++ extra) ++ factor_measurements h m) v) as Hsame.
    { intros v Hv. rewrite <- app_assoc in Hv.
      rewrite <- (app_assoc h extra (factor_measurements h m)). by apply wires_app_l. }
    destruct (is_tensor_measurement h m) eqn:Hten.
    + rewrite elem_of_app.
      assert (forall v, v ∈ seq (length (h ++ extra)) (length (factor_measurements h m)) ->
                (v < length ((h ++ extra) ++ factor_measurements h m))%nat) as Hlt'.
      { intros v Hv%elem_of_seq. rewrite (length_app (h ++ extra)). lia. }
      split.
      * intros [[?|(Hv & Hw & Hu)]|(Hv & Hw & Hu)]; [by left| |].
        -- right. split_and!; [by left| |done]. rewrite Hsame; [done|by apply Hlt'].
        -- right. split_and!; [by right|done|done].
      * intros [?|([Hv|Hv] & Hw & Hu)]; [by left; left| |].
        -- left. right. split_and!; [done| |done].
           rewrite <- Hsame; [done|by apply Hlt'].
        -- right. done.
    + assert (factor_measurements h m = []) as Hnil.
      { unfold is_tensor_measurement in Hten. unfold factor_measurements.
        by destruct (h !! m) as [[?|? [[?|?]|] ?]|]. }
      rewrite Hnil in *. simpl. rewrite Nat.add_0_r.
      assert (m < length ((h ++ extra) ++ []))%nat as Hlt'
        by (rewrite !length_app; lia).
      split.
      * intros [[?|(Hv & Hw & Hu)]|(Hv & Hw & Hu)]; [by left| |].
        -- apply list_elem_of_singleton in Hv.
           right. rewrite Hv in *. split_and!; [by left| |done]. by rewrite Hsame.
        -- right. split_and!; [by right|done|done].
      * intros [?|([Hv|Hv]%elem_of_cons & Hw & Hu)]; [by left; left| |].
        -- left. right. rewrite Hv in *.
           split_and!; [by apply list_elem_of_singleton| |done].
           by rewrite <- Hsame.
        -- right. done.
Qed.

(** the edges of the graph of a tape *)
Lemma tape_graph_edges (h h' : list object) (tape : QuantumTape)
    (g : MultiDiGraph) (u v : oid) (w : wire) :
  NoDup (operations tape ++ measurements tape) ->
  Forall (fun n => n < length h)%nat (operations tape ++ measurements tape) ->
  Forall (fun op => NoDup (wires h op)) (operations tape) ->
  tape_to_graph tape h = Ok (g, h') ->
  (u, v, w) ∈ edges g
  <-> exists j, node_list g !! j = Some v /\ w ∈ wires h' v
                /\ latest_on h' (take j (operations tape)) w u.
Proof.
  destruct tape as [ops ms]. simpl.
  intros [Hops [Hdisj Hms]]%NoDup_app [Hops_lt Hms_lt]%Forall_app Hwires.
  unfold tape_to_graph. unfold bind at 1. unfold get_heap at 1. simpl.
  pose proof (add_operations_nodes h ops 0 empty_graph ∅ None Hops) as Hloop.
  pose proof (add_operations_edges h ops [] 0 empty_graph ∅ None Hwires) as Hloope.
  cbv zeta in Hloop, Hloope. unfold enumerate.
  destruct (fold_left (add_operation h) (zip (seq 0 (length ops)) ops)
                      (empty_graph, ∅, None)) as [[g1 wl] order].
  destruct Hloop as [Hnodes Horder]; [intros x _ Hx; by apply elem_of_nil in Hx|].
  destruct Hloope as [Hwl Hedges1].
  { intros w0 u0. rewrite lookup_empty. split; [done|]. by intros ?%latest_on_nil. }
  { intros e. simpl. split; [by intros ?%elem_of_nil|].
    intros (j & Hj & _). by rewrite lookup_nil in Hj. }
  simpl in Hnodes, Horder, Hwl, Hedges1. subst order.
  destruct ops as [|op ops']; [discriminate|]. set (ops := op :: ops') in *.
  unfold bind.
  destruct (foldH (add_measurement wl) ms (g1, _) h) as [[[g2 k2] h2]|e] eqn:Hmeas;
    [|discriminate].
  unfold ret. intros [= <- <-].
  assert (node_list g1 = ops) as Hlist.
  { unfold node_list. rewrite Hnodes.
    change (map fst) with (fmap (M := list) (@fst nat Q)).
    rewrite fst_zip; [done|]. by rewrite length_map, length_seq. }
  rewrite <- (app_nil_r h) in Hmeas.
  pose proof Hmeas as [(new & Hh2) Hedges2]%add_measurements_edges; [|done].
  apply add_measurements_nodes in Hmeas as (_ & Hnodes2); [|done|done|..]; cycle 1.
  { intros n Hn. rewrite Hlist in Hn. rewrite app_nil_r.
    rewrite Forall_forall in Hops_lt. by apply Hops_lt. }
  { intros m Hm Hin. rewrite Hlist in Hin. by apply (Hdisj m). }
  rewrite app_nil_r in Hh2, Hedges2, Hnodes2. subst h2.
  apply node_list_app_numbered in Hnodes2. rewrite Hlist in Hnodes2.
  assert (forall n, n ∈ ops -> wires (h ++ new) n = wires h n) as Hsame.
  { intros n Hn. apply wires_app_l. rewrite Forall_forall in Hops_lt. by apply Hops_lt. }
  rewrite (Hedges2 (u, v, w)), (Hedges1 (u, v, w)), Hnodes2. cbn [fst snd].
  clearbody ops.
  assert (forall l, (forall n, n ∈ l -> n ∈ ops) ->
            latest_on (h ++ new) l w u <-> latest_on h l w u) as Hext.
  { intros l Hl. apply latest_on_ext. intros n Hn. apply Hsame. by apply Hl. }
  assert (forall j n, n ∈ take j ops -> n ∈ ops) as Htake.
  { intros j n (i & Hi & _)%elem_of_take. by eapply list_elem_of_lookup_2. }
  split.
  - intros [(j & Hj & Hw & Hlast)|(Hv & Hw & Hu)].
    + exists j. split; [by apply lookup_app_l_Some|]. split.
      * rewrite Hsame; [done|]. by eapply list_elem_of_lookup_2.
      * apply Hext; [apply Htake|done].
    + apply list_elem_of_lookup_1 in Hv as [j Hj].
      exists (length ops + j)%nat. split; [|split].
      * rewrite lookup_app_r by lia. rewrite <- Hj. f_equal. lia.
      * done.
      * rewrite take_ge by lia. apply Hext; [done|]. by apply Hwl.
  - intros (j & Hj & Hw & Hlast).
    apply lookup_app_Some in Hj as [Hj|[Hge Hj]].
    + left. exists j. split; [done|]. split.
      * rewrite <- Hsame; [done|]. by eapply list_elem_of_lookup_2.
      * apply Hext in Hlast; [done|apply Htake].
    + right. split; [by eapply list_elem_of_lookup_2|]. split; [done|].
      rewrite take_ge in Hlast by lia. apply Hwl. by apply Hext in Hlast.
Qed.

(** X18: the edges of the graph of a tape.  An edge labelled [w] enters
    a node [v] from [u] exactly when [v] acts on wire [w] and [u] is
    the latest of the operations before [v] that acts on [w]. *)
Theorem tape_to_graph_edges (h h' : list object) (tape : QuantumTape)
    (g : MultiDiGraph) (u v : oid) (w : wire) :
  NoDup (operations tape ++ measurements tape) ->
  Forall (fun n => n < length h)%nat (operations tape ++ measurements tape) ->
  Forall (fun op => NoDup (wires h op)) (operations tape) ->
  tape_to_graph tape h = Ok (g, h') ->
  (u, v, w) ∈ edges g
  <-> exists j, node_list g !! j = Some v /\ w ∈ wires h' v
                /\ latest_on h' (take j (operations tape)) w u.
Proof. apply tape_graph_edges. Qed.

Lemma tape_to_graph_edges_witness :
  exists g h',
    tape_to_graph bell_tape bell_heap = Ok (g, h')
    /\ ((0%nat, 1%nat, 0) ∈ edges g
        <-> exists j, node_list g !! j = Some 1%nat /\ 0 ∈ wires h' 1%nat
                      /\ latest_on h' (take j (operations bell_tape)) 0 0%nat).
Proof.
  assert (exists r, tape_to_graph bell_tape bell_heap = Ok r)
    as [[g h'] Hrun] by (eexists; vm_compute; reflexivity).
  assert (NoDup (operations bell_tape ++ measurements bell_tape)) as Hnd
    by (apply (bool_decide_unpack _); vm_compute; exact I).
  assert (Forall (fun n => n < length bell_heap)%nat
                 (operations bell_tape ++ measurements bell_tape)) as Hlt
    by (apply (bool_decide_unpack _); vm_compute; exact I).
  assert (Forall (fun op => NoDup (wires bell_heap op)) (operations bell_tape)) as Hws
    by (apply (bool_decide_unpack _); vm_compute; exact I).
  exists g, h'. split; [exact Hrun|].
  exact (tape_to_graph_edges _ _ _ _ 0%nat 1%nat 0 Hnd Hlt Hws Hrun).
Defined.

(** ** remove_wire_cut_node: the nodes and edges put in place of a cut *)

Lemma cut_nodes_wires (base : nat) (ws : list wire) :
  map (fun x => x.1.1) (cut_nodes base ws) = ws.
Proof. revert base. induction ws as [|w ws IH]; intros base; simpl; [done|]. by rewrite IH. Qed.

Lemma cut_nodes_bounds (base : nat) (ws : list wire) (x : wire * oid * oid) :
  x ∈ cut_nodes base ws -> (base <= x.1.2)%nat /\ (base <= x.2)%nat.
Proof.
  revert base. induction ws as [|w ws IH]; intros base; simpl.
  - by intros ?%elem_of_nil.
  - intros [->|Hx%IH]%elem_of_cons; simpl; lia.
Qed.

(** the addresses of the new nodes are distinct *)
Lemma cut_nodes_NoDup (base : nat) (ws : list wire) :
  NoDup (flat_map (fun x => [x.1.2; x.2]) (cut_nodes base ws)).
Proof.
  revert base. induction ws as [|w ws IH]; intros base; simpl; [constructor|].
  assert (forall n, n ∈ flat_map (fun x => [x.1.2; x.2])
                        (cut_nodes (S (S base)) ws) -> (S (S base) <= n)%nat) as Hge.
  { intros n Hn%list_elem_of_In. apply in_flat_map in Hn as (x & Hx%list_elem_of_In & Hn).
    apply cut_nodes_bounds in Hx. simpl in Hn. destruct Hn as [<-|[<-|[]]]; lia. }
  constructor.
  - intros [Heq|Hin]%elem_of_cons; [lia|]. apply Hge in Hin. lia.
  - constructor; [|apply IH]. intros Hin%Hge. lia.
Qed.

Lemma expand_cut_loop_exact (mc pc : opclass) (ws : list wire) (ops : list oid)
    (hk : list object) :
  foldH (fun ops wire =>
    let* m := alloc (Operator mc [wire]) in
    let* p := alloc (Operator pc [wire]) in
    ret (ops ++ [m; p])) ws ops hk
  = Ok (ops ++ flat_map (fun x => [x.1.2; x.2]) (cut_nodes (length hk) ws),
        hk ++ flat_map (fun w => [Operator mc [w]; Operator pc [w]]) ws).
Proof.
  revert ops hk. induction ws as [|w ws IH]; intros ops hk; cbn [foldH].
  - simpl. by rewrite !app_nil_r.
  - unfold bind at 1. unfold bind at 1. unfold alloc at 1. unfold bind at 1.
    unfold alloc at 1. unfold ret at 1. rewrite IH.
    rewrite !length_app. simpl. rewrite <- !app_assoc. simpl.
    by replace (length hk + 1 + 1)%nat with (S (S (length hk))) by lia;
       replace (length hk + 1)%nat with (S (length hk)) by lia.
Qed.

(** [expand_cut]: the tape holds the new nodes, a measure and a prepare
    node for each wire in turn *)
Lemma expand_cut_exact (node : oid) (h : list object) :
  expand_cut node h
  = Ok (Tape (flat_map (fun x => [x.1.2; x.2]) (cut_nodes (length h) (wires h node))) [],
        h ++ flat_map (fun w => [Operator (cut_classes h node).1 [w];
                                 Operator (cut_classes h node).2 [w]]) (wires h node)).
Proof.
  unfold expand_cut, cut_classes. unfold bind at 1. unfold get_heap at 1.
  destruct (match class_of h node with
            | Some (WireCut (Some (mt, pt))) => (MeasureNode mt, PrepareNode pt)
            | _ => (SimpleMeasureNode, SimplePrepareNode)
            end) as [mc pc].
  unfold bind at 1. by rewrite expand_cut_loop_exact.
Qed.

(** the new nodes act on the wire they were made for *)
Lemma cut_nodes_wires_of (mc pc : opclass) (ws : list wire) (hk : list object)
    (x : wire * oid * oid) :
  x ∈ cut_nodes (length hk) ws ->
  wires (hk ++ flat_map (fun w => [Operator mc [w]; Operator pc [w]]) ws) x.1.2 = [x.1.1]
  /\ wires (hk ++ flat_map (fun w => [Operator mc [w]; Operator pc [w]]) ws) x.2 = [x.1.1].
Proof.
  revert hk. induction ws as [|w ws IH]; intros hk; simpl.
  - by intros ?%elem_of_nil.
  - intros [->|Hx]%elem_of_cons; simpl.
    + unfold wires. rewrite list_lookup_middle by done.
      change (hk ++ ?a :: ?b :: ?l) with (hk ++ [a] ++ b :: l).
      rewrite app_assoc. rewrite list_lookup_middle by (rewrite length_app; simpl; lia).
      done.
    + specialize (IH (hk ++ [Operator mc [w]; Operator pc [w]])).
      rewrite length_app in IH. simpl in IH.
      replace (length hk + 2)%nat with (S (S (length hk))) in IH by lia.
      rewrite <- app_assoc in IH. by apply IH.
Qed.

Lemma unique_doubled (seen ws : list wire) :
  NoDup ws -> (forall w, w ∈ ws -> w ∉ seen) ->
  unique seen (flat_map (fun w => [w; w]) ws) = ws.
Proof.
  intros Hnd. revert seen. induction Hnd as [|w ws Hw Hnd IH]; intros seen Hseen; simpl.
  - done.
  - rewrite bool_decide_eq_false_2 by (apply Hseen; by left).
    rewrite bool_decide_eq_true_2 by by left.
    rewrite IH; [done|]. intros w' Hw' [->|Hin]%elem_of_cons; [done|].
    apply (Hseen w'); [by right|done].
Qed.

Lemma index_grid {A} (F : wire -> A) (w : wire) (ws : list wire) :
  w ∈ ws -> index w ws ≫= (fun i => map F ws !! i) = Some (F w).
Proof.
  induction ws as [|w' ws IH]; [by intros ?%elem_of_nil|].
  intros Hin. simpl. case_bool_decide as Hw; [by subst|].
  apply elem_of_cons in Hin as [->|Hin]; [done|].
  specialize (IH Hin). destruct (index w ws) as [i|]; [|done]. done.
Qed.

Lemma filter_cut_nodes (wires_of_node : oid -> list wire) (w : wire)
    (cn : list (wire * oid * oid)) (m p : oid) :
  (forall x, x ∈ cn -> wires_of_node x.1.2 = [x.1.1] /\ wires_of_node x.2 = [x.1.1]) ->
  NoDup (map (fun x => x.1.1) cn) ->
  (w, m, p) ∈ cn ->
  filter (fun op => w ∈ wires_of_node op) (flat_map (fun x => [x.1.2; x.2]) cn) = [m; p].
Proof.
  intros Hw Hnd. induction cn as [|[[w0 m0] p0] cn IH]; [by intros ?%elem_of_nil|].
  simpl in Hnd. apply NoDup_cons in Hnd as [Hw0 Hnd].
  destruct (Hw (w0, m0, p0)) as [Hm0 Hp0]; [by left|]. simpl in Hm0, Hp0.
  assert (forall x, x ∈ cn -> wires_of_node x.1.2 = [x.1.1] /\ wires_of_node x.2 = [x.1.1])
    as Hw' by (intros x Hx; apply Hw; by right).
  intros Hin. simpl. destruct (decide (w0 = w)) as [->|Hne].
  - rewrite filter_cons_True by (rewrite Hm0; by left).
    rewrite filter_cons_True by (rewrite Hp0; by left).
    apply elem_of_cons in Hin as [[= <- <-]|Hin].
    + f_equal. f_equal. apply filter_none. intros op Hop%list_elem_of_In.
      apply in_flat_map in Hop as (x & Hx%list_elem_of_In & Hop).
      destruct (Hw' x Hx) as [Hxm Hxp].
      assert (x.1.1 ≠ w) as Hxw.
      { intros <-. apply Hw0. change (map ?f) with (fmap (M := list) f).
        apply list_elem_of_fmap. by exists x. }
      simpl in Hop. destruct Hop as [<-|[<-|[]]].
      * rewrite Hxm. by intros ->%list_elem_of_singleton.
      * rewrite Hxp. by intros ->%list_elem_of_singleton.
    + exfalso. apply Hw0. change (map ?f) with (fmap (M := list) f).
      apply list_elem_of_fmap. by exists (w, m, p).
  - rewrite filter_cons_False by (rewrite Hm0; by intros ->%list_elem_of_singleton).
    rewrite filter_cons_False by (rewrite Hp0; by intros ->%list_elem_of_singleton).
    apply elem_of_cons in Hin as [[= -> _ _]|Hin]; [done|]. by apply IH.
Qed.

(** [ops_on_wire[expanded_node.wires.index(wire)]] is the pair of nodes
    made for the wire *)
Lemma cut_grid_lookup (mc pc : opclass) (h : list object) (ws : list wire)
    (w : wire) (m p : oid) :
  NoDup ws ->
  (w, m, p) ∈ cut_nodes (length h) ws ->
  let h' := h ++ flat_map (fun w => [Operator mc [w]; Operator pc [w]]) ws in
  let t := Tape (flat_map (fun x => [x.1.2; x.2]) (cut_nodes (length h) ws)) [] in
  index w (tape_wires h' t) ≫= (fun i => _grid h' t !! i) = Some [m; p].
Proof.
  intros Hnd Hin. cbv zeta.
  set (h' := h ++ flat_map (fun w => [Operator mc [w]; Operator pc [w]]) ws).
  set (cn := cut_nodes (length h) ws) in *.
  assert (forall x, x ∈ cn -> wires h' x.1.2 = [x.1.1] /\ wires h' x.2 = [x.1.1]) as Hw
    by (intros x Hx; by apply cut_nodes_wires_of).
  assert (tape_wires h' (Tape (flat_map (fun x => [x.1.2; x.2]) cn) []) = ws) as Htw.
  { unfold tape_wires, all_wires. simpl. rewrite app_nil_r.
    assert (concat (map (wires h') (flat_map (fun x => [x.1.2; x.2]) cn))
            = flat_map (fun w => [w; w]) (map (fun x => x.1.1) cn)) as ->.
    { clear Hin. induction cn as [|x cn IH]; simpl; [done|].
      destruct (Hw x) as [-> ->]; [by left|]. simpl.
      rewrite IH; [done|]. intros y Hy. apply Hw. by right. }
    subst cn. rewrite cut_nodes_wires. apply unique_doubled; [done|].
    intros ? _ ?%elem_of_nil. done. }
  unfold _grid. rewrite Htw.
  rewrite (index_grid (fun w0 => filter (fun op => w0 ∈ wires h' op) _)).
  - f_equal. apply filter_cut_nodes; [done| |done].
    subst cn. by rewrite cut_nodes_wires.
  - rewrite <- (cut_nodes_wires (length h) ws). fold cn.
    change (map ?f) with (fmap (M := list) f). apply list_elem_of_fmap.
    by exists (w, m, p).
Qed.

(** the loop over the wires of the cut, when the table gives the pair
    of nodes of each wire and the nodes are new to the graph *)
Lemma remove_wire_cut_node_loop (pw sw : gmap wire oid) (tw : list wire)
    (grid : list (list oid)) (order : Q) (cn : list (wire * oid * oid))
    (gk : MultiDiGraph) (added : list oid) (hk : list object) :
  (forall x, x ∈ cn -> index x.1.1 tw ≫= (fun i => grid !! i) = Some [x.1.2; x.2]) ->
  NoDup (flat_map (fun x => [x.1.2; x.2]) cn) ->
  (forall n, n ∈ flat_map (fun x => [x.1.2; x.2]) cn ->
     (n ∉ added) /\ (n ∉ node_list gk)) ->
  exists added',
    foldH (fun '(graph, added_nodes) wire =>
      let predecessor := pw !! wire in
      let successor := sw !! wire in
      match index wire tw ≫= (fun i => grid !! i) with
      | Some [meas; prep] =>
          let '(graph, added_nodes) :=
            if bool_decide (meas ∈ added_nodes) then (graph, added_nodes)
            else (add_node meas order graph, meas :: added_nodes) in
          let '(graph, added_nodes) :=
            if bool_decide (prep ∈ added_nodes) then (graph, added_nodes)
            else (add_node prep (order + (1 # 2))%Q graph, prep :: added_nodes) in
          let graph := add_edge meas prep wire graph in
          let graph := match predecessor with
                       | Some p => add_edge p meas wire graph
                       | None => graph
                       end in
          let graph := match successor with
                       | Some s => add_edge prep s wire graph
                       | None => graph
                       end in
          ret (graph, added_nodes)
      | Some _ => raise (ValueError "unpack")
      | None => raise IndexError
      end) (map (fun x => x.1.1) cn) (gk, added) hk
    = Ok ((Graph (nodes gk ++ flat_map (fun x => [(x.1.2, order);
                                                   (x.2, (order + (1 # 2))%Q)]) cn)
                 (edges gk ++ flat_map (fun x =>
                    (x.1.2, x.2, x.1.1)
                    :: match pw !! x.1.1 with
                       | Some u => [(u, x.1.2, x.1.1)]
                       | None => []
                       end
                    ++ match sw !! x.1.1 with
                       | Some v => [(x.2, v, x.1.1)]
                       | None => []
                       end) cn),
           added'), hk).
Proof.
  match goal with |- context [foldH ?f _ _ _] => set (body := f) end.
  revert gk added. induction cn as [|[[w m] p] cn IH]; intros gk added Hgrid Hnd Hnew.
  - exists added. simpl. rewrite !app_nil_r. by destruct gk.
  - cbn [map foldH]. unfold bind at 1. unfold body at 1. cbv beta iota zeta. cbn [fst snd].
    pose proof (Hgrid (w, m, p) ltac:(by left)) as Hg. cbn [fst snd] in Hg.
    rewrite Hg. clear Hg.
    simpl in Hnd. apply NoDup_cons in Hnd as [Hm Hnd]. apply NoDup_cons in Hnd as [Hp Hnd].
    destruct (Hnew m) as [Hm_added Hm_node]; [simpl; by left|].
    destruct (Hnew p) as [Hp_added Hp_node]; [simpl; by right; left|].
    rewrite (bool_decide_eq_false_2 (m ∈ added)) by done.
    rewrite (bool_decide_eq_false_2 (p ∈ m :: added)).
    2:{ intros [->|?]%elem_of_cons; [|done]. apply Hm. by left. }
    unfold ret at 1.
    set (g1 := match sw !! w with
               | Some s => add_edge p s w _
               | None => _
               end).
    assert (p ≠ m) as Hpm by (intros ->; apply Hm; by left).
    assert (nodes g1 = nodes gk ++ [(m, order); (p, (order + (1 # 2))%Q)]) as Hn1.
    { assert (nodes g1 = nodes (add_node p (order + (1 # 2))%Q (add_node m order gk)))
        as -> by (subst g1; by destruct (pw !! w), (sw !! w)).
      rewrite add_node_new, add_node_new by (rewrite ?add_node_node_list; tauto).
      by rewrite <- app_assoc. }
    assert (edges g1 = edges gk ++ (m, p, w)
              :: match pw !! w with Some u => [(u, m, w)] | None => [] end
              ++ match sw !! w with Some v => [(p, v, w)] | None => [] end) as He1.
    { subst g1. destruct (pw !! w), (sw !! w); cbn [edges add_edge];
        rewrite !add_node_edges, <- ?app_assoc; reflexivity. }
    clearbody g1.
    destruct (IH g1 (p :: m :: added)) as [added' ->].
    + intros x Hx. apply Hgrid. by right.
    + done.
    + intros n Hn.
      assert (n ≠ m) as Hnm by (intros ->; apply Hm; by right).
      assert (n ≠ p) as Hnp by (intros ->; done).
      destruct (Hnew n) as [Hn_added Hn_node]; [simpl; by do 2 right|].
      split.
      * intros [?|[?|?]%elem_of_cons]%elem_of_cons; done.
      * unfold node_list. rewrite Hn1, map_app. simpl.
        intros [?|[?|[?|?%elem_of_nil]%elem_of_cons]%elem_of_cons]%elem_of_app; done.
    + exists added'. rewrite Hn1, He1. rewrite <- !app_assoc. simpl.
      by rewrite <- ?app_assoc.
Qed.

(** the graph and the heap that removing one cut leaves *)
Lemma remove_wire_cut_node_exact (node : oid) (g : MultiDiGraph) (h : list object)
    (order : Q) :
  NoDup (wires h node) ->
  order_of g node = Some order ->
  (forall n, n ∈ node_list g -> (n < length h)%nat) ->
  let new := cut_nodes (length h) (wires h node) in
  remove_wire_cut_node node g h
  = Ok (Graph (nodes (remove_node node g)
               ++ flat_map (fun x => [(x.1.2, order); (x.2, (order + (1 # 2))%Q)]) new)
              (edges (remove_node node g)
               ++ flat_map (fun x =>
                    (x.1.2, x.2, x.1.1)
                    :: match on_wire (pred g node) !! x.1.1 with
                       | Some u => [(u, x.1.2, x.1.1)]
                       | None => []
                       end
                    ++ match on_wire (succ g node) !! x.1.1 with
                       | Some v => [(x.2, v, x.1.1)]
                       | None => []
                       end) new),
        h ++ flat_map (fun w => [Operator (cut_classes h node).1 [w];
                                 Operator (cut_classes h node).2 [w]]) (wires h node)).
Proof.
  intros Hnd Horder Hnodes. cbv zeta.
  unfold remove_wire_cut_node.
  unfold bind at 1. unfold bind at 1. unfold get_heap at 1. unfold ret at 1.
  unfold bind at 1. rewrite expand_cut_exact.
  unfold bind at 1. unfold get_heap at 1. rewrite Horder.
  unfold bind at 1.
  set (cn := cut_nodes (length h) (wires h node)).
  set (h' := h ++ flat_map _ (wires h node)).
  match goal with
  | |- context [foldH ?f (wires h node) ?a ?hh] =>
      replace (foldH f (wires h node) a hh)
        with (foldH f (map (fun x => x.1.1) cn) a hh)
        by (subst cn; by rewrite cut_nodes_wires)
  end.
  destruct (remove_wire_cut_node_loop (on_wire (pred g node)) (on_wire (succ g node))
              (tape_wires h' (Tape (flat_map (fun x => [x.1.2; x.2]) cn) []))
              (_grid h' (Tape (flat_map (fun x => [x.1.2; x.2]) cn) []))
              order cn (remove_node node g) [] h') as [added' Hloop].
  - intros [[w m] p] Hx. by apply cut_grid_lookup.
  - apply cut_nodes_NoDup.
  - intros n Hn%list_elem_of_In. apply in_flat_map in Hn as (x & Hx%list_elem_of_In & Hn).
    apply cut_nodes_bounds in Hx. split; [by intros ?%elem_of_nil|].
    intros Hin.
    assert (n ∈ node_list g) as Hg.
    { unfold node_list, remove_node in Hin. simpl in Hin.
      change (map ?f) with (fmap (M := list) f) in Hin.
      apply list_elem_of_fmap in Hin as (y & -> & [_ Hy]%list_elem_of_filter).
      unfold node_list. change (map ?f) with (fmap (M := list) f).
      apply list_elem_of_fmap. by exists y. }
    apply Hnodes in Hg. simpl in Hn. destruct Hn as [<-|[<-|[]]]; lia.
  - match type of Hloop with
    | _ = ?r =>
        match goal with
        | |- match ?x with Ok _ => _ | Raise _ => _ end = _ =>
            replace x with r by (symmetry; exact Hloop)
        end
    end.
    done.
Qed.

(** X19: [remove_wire_cut_node] on a cut with distinct wires, in a graph
    whose nodes are objects of the heap.  The cut is removed with its
    edges; for each wire in turn the graph gets a measure node with the
    order of the cut, a prepare node half a step later, an edge from
    the measure to the prepare node, an edge from the predecessor of
    the cut on that wire and an edge to its successor, when there are
    such; the heap gets the two nodes of each wire. *)
Theorem remove_wire_cut_node_graph (node : oid) (g : MultiDiGraph) (h : list object)
    (order : Q) :
  NoDup (wires h node) ->
  order_of g node = Some order ->
  (forall n, n ∈ node_list g -> (n < length h)%nat) ->
  let new := cut_nodes (length h) (wires h node) in
  remove_wire_cut_node node g h
  = Ok (Graph (nodes (remove_node node g)
               ++ flat_map (fun x => [(x.1.2, order); (x.2, (order + (1 # 2))%Q)]) new)
              (edges (remove_node node g)
               ++ flat_map (fun x =>
                    (x.1.2, x.2, x.1.1)
                    :: match on_wire (pred g node) !! x.1.1 with
                       | Some u => [(u, x.1.2, x.1.1)]
                       | None => []
                       end
                    ++ match on_wire (succ g node) !! x.1.1 with
                       | Some v => [(x.2, v, x.1.1)]
                       | None => []
                       end) new),
        h ++ flat_map (fun w => [Operator (cut_classes h node).1 [w];
                                 Operator (cut_classes h node).2 [w]]) (wires h node)).
Proof. apply remove_wire_cut_node_exact. Qed.

Lemma remove_wire_cut_node_graph_witness :
  remove_wire_cut_node 1 cnot_cut_cnot_graph cnot_cut_cnot_heap
  = Ok (cnot_cut_graph, cnot_cut_heap).
Proof.
  assert (NoDup (wires cnot_cut_cnot_heap 1)) as Hnd
    by (apply (bool_decide_unpack _); vm_compute; exact I).
  assert (order_of cnot_cut_cnot_graph 1 = Some (Qnat 1)) as Horder by reflexivity.
  assert (forall n, n ∈ node_list cnot_cut_cnot_graph -> (n < length cnot_cut_cnot_heap)%nat)
    as Hnodes.
  { assert (Forall (fun n => n < length cnot_cut_cnot_heap)%nat
                   (node_list cnot_cut_cnot_graph)) as Hall
      by (apply (bool_decide_unpack _); vm_compute; exact I).
    intros n Hn. rewrite Forall_forall in Hall. by apply Hall. }
  exact (remove_wire_cut_node_graph 1%nat cnot_cut_cnot_graph cnot_cut_cnot_heap (Qnat 1)
           Hnd Horder Hnodes).
Defined.

(** ** From the tape to the fragments: the stages compose *)

Lemma class_of_app_l (h new : list object) (n : oid) :
  (n < length h)%nat -> class_of (h ++ new) n = class_of h n.
Proof. intros Hn. unfold class_of. by rewrite lookup_app_l. Qed.

Lemma order_of_Some (g : MultiDiGraph) (n : oid) :
  n ∈ node_list g -> exists q, order_of g n = Some q.
Proof.
  unfold node_list, order_of. change (map ?f) with (fmap (M := list) f).
  intros ([n' q] & -> & Hin)%list_elem_of_fmap. simpl.
  destruct (list_find_elem_of (fun p => p.1 = n') (nodes g) (n', q) Hin eq_refl)
    as [[i x] Hfind].
  rewrite Hfind. by eexists.
Qed.

Lemma cut_nodes_upper (base : nat) (ws : list wire) (x : wire * oid * oid) :
  x ∈ cut_nodes base ws ->
  (x.1.2 < base + 2 * length ws)%nat /\ x.2 = S x.1.2 /\ x.1.1 ∈ ws.
Proof.
  revert base. induction ws as [|w ws IH]; intros base; simpl.
  - by intros ?%elem_of_nil.
  - intros [->|Hx%IH]%elem_of_cons; simpl.
    + split_and!; [lia|done|by left].
    + destruct Hx as (? & ? & ?). split_and!; [lia|done|by right].
Qed.

(** the objects made for the wires of a cut *)
Lemma cut_nodes_lookup (mc pc : opclass) (ws : list wire) (hk : list object)
    (x : wire * oid * oid) :
  x ∈ cut_nodes (length hk) ws ->
  (hk ++ flat_map (fun w => [Operator mc [w]; Operator pc [w]]) ws) !! x.1.2
  = Some (Operator mc [x.1.1])
  /\ (hk ++ flat_map (fun w => [Operator mc [w]; Operator pc [w]]) ws) !! x.2
     = Some (Operator pc [x.1.1]).
Proof.
  revert hk. induction ws as [|w ws IH]; intros hk; simpl.
  - by intros ?%elem_of_nil.
  - intros [->|Hx]%elem_of_cons; simpl.
    + rewrite list_lookup_middle by done.
      change (hk ++ ?a :: ?b :: ?l) with (hk ++ [a] ++ b :: l).
      rewrite app_assoc. rewrite list_lookup_middle by (rewrite length_app; simpl; lia).
      done.
    + specialize (IH (hk ++ [Operator mc [w]; Operator pc [w]])).
      rewrite length_app in IH. simpl in IH.
      replace (length hk + 2)%nat with (S (S (length hk))) in IH by lia.
      rewrite <- app_assoc in IH. by apply IH.
Qed.

Lemma group_by_key_elem {A} (l : list (oid * A)) (k : oid) (vs : list A) (v : A) :
  (k, vs) ∈ group_by_key l -> v ∈ vs -> (k, v) ∈ l.
Proof.
  intros Hk Hv.
  assert (v ∈ concat (map snd (filter (fun p => fst p = k) (group_by_key l)))) as Hin.
  { apply elem_of_concat. exists vs. split; [|done].
    change (map ?f) with (fmap (M := list) f).
    apply list_elem_of_fmap. exists (k, vs). split; [done|].
    by apply list_elem_of_filter. }
  rewrite group_by_key_values in Hin.
  change (map ?f) with (fmap (M := list) f) in Hin.
  apply list_elem_of_fmap in Hin as ([k' v'] & -> & Hin).
  apply list_elem_of_filter in Hin as [Hk' Hin]. simpl in Hk'. by subst k'.
Qed.

(** an entry of [predecessor_on_wire] or [successor_on_wire] comes from
    an adjacency entry *)
Lemma on_wire_Some (adj : list (oid * list wire)) (w : wire) (u : oid) :
  on_wire adj !! w = Some u -> exists data, (u, data) ∈ adj /\ w ∈ data.
Proof.
  unfold on_wire.
  assert (forall (d : gmap wire oid),
    fold_left (fun d '(op, data) =>
      fold_left (fun d wire => <[wire := op]> d) data d) adj d !! w = Some u ->
    d !! w = Some u \/ exists data, (u, data) ∈ adj /\ w ∈ data) as Hgen.
  { induction adj as [|[op data] adj IH]; intros d; simpl; [by left|].
    intros [Hd|(data' & Hin & Hw)]%IH.
    - assert (forall (d0 : gmap wire oid),
        fold_left (fun d wire => <[wire := op]> d) data d0 !! w = Some u ->
        d0 !! w = Some u \/ (u = op /\ w ∈ data)) as Hinner.
      { clear. induction data as [|w0 data IH]; intros d0; simpl; [by left|].
        intros [Hd|[-> Hw]]%IH.
        - destruct (decide (w0 = w)) as [->|Hne].
          + rewrite lookup_insert_eq in Hd. injection Hd as ->. right. split; [done|by left].
          + rewrite lookup_insert_ne in Hd by done. by left.
        - right. split; [done|by right]. }
      apply Hinner in Hd as [Hd|[-> Hw]]; [by left|].
      right. exists data. split; [by left|done].
    - right. exists data'. split; [by right|done]. }
  intros [Hd|?]%Hgen; [|done]. by rewrite lookup_empty in Hd.
Qed.

Lemma on_wire_pred (g : MultiDiGraph) (node : oid) (w : wire) (u : oid) :
  on_wire (pred g node) !! w = Some u -> (u, node, w) ∈ edges g.
Proof.
  intros (data & Hin & Hw)%on_wire_Some. unfold pred in Hin.
  pose proof (group_by_key_elem _ _ _ _ Hin Hw) as Hl.
  change (map ?f) with (fmap (M := list) f) in Hl.
  apply list_elem_of_fmap in Hl as ([[a b] c] & [= -> ->] & He).
  apply list_elem_of_filter in He as [Hb He]. simpl in Hb. by subst b.
Qed.

Lemma on_wire_succ (g : MultiDiGraph) (node : oid) (w : wire) (v : oid) :
  on_wire (succ g node) !! w = Some v -> (node, v, w) ∈ edges g.
Proof.
  intros (data & Hin & Hw)%on_wire_Some. unfold succ in Hin.
  pose proof (group_by_key_elem _ _ _ _ Hin Hw) as Hl.
  change (map ?f) with (fmap (M := list) f) in Hl.
  apply list_elem_of_fmap in Hl as ([[a b] c] & [= -> ->] & He).
  apply list_elem_of_filter in He as [Ha He]. simpl in Ha. by subst a.
Qed.

Lemma elem_of_flat_map {A B} (f : A -> list B) (l : list A) (y : B) :
  y ∈ flat_map f l <-> exists x, x ∈ l /\ y ∈ f x.
Proof.
  rewrite list_elem_of_In, in_flat_map. split; intros (x & Hx & Hy); exists x.
  - by rewrite !list_elem_of_In.
  - by rewrite <- !list_elem_of_In.
Qed.

Lemma node_list_remove_node (node : oid) (g : MultiDiGraph) (n : oid) :
  n ∈ node_list (remove_node node g) <-> n ∈ node_list g /\ n ≠ node.
Proof.
  unfold node_list, remove_node. simpl.
  change (map ?f) with (fmap (M := list) f). rewrite !list_elem_of_fmap. split.
  - intros ([n' q] & -> & [Hne Hin]%list_elem_of_filter). split; [by exists (n', q)|done].
  - intros [([n' q] & -> & Hin) Hne]. exists (n', q). split; [done|].
    by apply list_elem_of_filter.
Qed.

(** removing a cut from a graph that is ready leaves a graph that is
    ready *)
Lemma remove_wire_cut_node_ready (node : oid) (g : MultiDiGraph) (h : list object) :
  cut_ready h g -> node ∈ node_list g -> is_WireCut h node = true ->
  exists g' new,
    remove_wire_cut_node node g h = Ok (g', h ++ new)
    /\ Forall cut_node_object new
    /\ cut_ready (h ++ new) g'
    /\ forall n, n ∈ node_list g -> n ≠ node -> n ∈ node_list g'.
Proof.
  intros [Hnd Hobj Hclosed Hloop Hcut Hwires] Hnode Hwc.
  destruct (order_of_Some g node Hnode) as [q Hq].
  pose proof (remove_wire_cut_node_exact node g h q (Hwires node Hnode Hwc) Hq Hobj) as Hrun.
  cbv zeta in Hrun.
  set (cn := cut_nodes (length h) (wires h node)) in *.
  set (mc := (cut_classes h node).1) in *. set (pc := (cut_classes h node).2) in *.
  set (new := flat_map (fun w => [Operator mc [w]; Operator pc [w]]) (wires h node)) in *.
  assert (exists mt pt, mc = MeasureNode mt /\ pc = PrepareNode pt) as (mt & pt & Hmc & Hpc).
  { subst mc pc. unfold cut_classes.
    destruct (class_of h node) as [[|[[mt pt]|]| |]|]; by eexists _, _. }
  assert (Forall cut_node_object new) as Hnew.
  { subst new. rewrite Hmc, Hpc. clear. induction (wires h node) as [|w ws IH]; simpl.
    - constructor.
    - by repeat constructor. }
  assert (forall x, x ∈ cn ->
            (length h <= x.1.2)%nat /\ x.2 = S x.1.2
            /\ (h ++ new) !! x.1.2 = Some (Operator mc [x.1.1])
            /\ (h ++ new) !! x.2 = Some (Operator pc [x.1.1])) as Hcn.
  { intros x Hx. pose proof (cut_nodes_bounds _ _ _ Hx) as [? ?].
    pose proof (cut_nodes_upper _ _ _ Hx) as (? & ? & ?).
    pose proof (cut_nodes_lookup mc pc _ _ _ Hx) as [? ?]. done. }
  eexists _, new. split; [exact Hrun|]. split; [done|].
  match type of Hrun with _ = Ok (?gg, _) => set (g' := gg) in * end.
  assert (forall n, n ∈ node_list g'
            <-> (n ∈ node_list g /\ n ≠ node)
                \/ exists x, x ∈ cn /\ (n = x.1.2 \/ n = x.2)) as Hnodes'.
  { intros n. subst g'. unfold node_list at 1. cbn [nodes]. rewrite map_app, elem_of_app.
    change (map fst (nodes (remove_node node g))) with (node_list (remove_node node g)).
    rewrite node_list_remove_node.
    assert (n ∈ map fst (flat_map (fun x => [(x.1.2, q); (x.2, (q + (1 # 2))%Q)]) cn)
            <-> exists x, x ∈ cn /\ (n = x.1.2 \/ n = x.2)) as ->; [|done].
    change (map ?f) with (fmap (M := list) f). rewrite list_elem_of_fmap. split.
    - intros (y & -> & (x & Hx & Hy)%elem_of_flat_map). exists x. split; [done|].
      apply elem_of_cons in Hy as [->|Hy]; [by left|].
      apply list_elem_of_singleton in Hy as ->. by right.
    - intros (x & Hx & [->| ->]).
      + exists (x.1.2, q). split; [done|]. apply elem_of_flat_map. exists x.
        split; [done|by left].
      + exists (x.2, (q + (1 # 2))%Q). split; [done|]. apply elem_of_flat_map. exists x.
        split; [done|by right; left]. }
  assert (forall e, e ∈ edges g'
            <-> (e ∈ edges g /\ e.1.1 ≠ node /\ e.1.2 ≠ node)
                \/ exists x, x ∈ cn
                     /\ (e = (x.1.2, x.2, x.1.1)
                         \/ (exists u, on_wire (pred g node) !! x.1.1 = Some u
                                       /\ e = (u, x.1.2, x.1.1))
                         \/ (exists v, on_wire (succ g node) !! x.1.1 = Some v
                                       /\ e = (x.2, v, x.1.1)))) as Hedges'.
  { intros e. subst g'. cbn [edges]. unfold remove_node at 1. cbn [edges].
    rewrite elem_of_app, list_elem_of_filter.
    rewrite elem_of_flat_map.
    assert (forall x, e ∈ (x.1.2, x.2, x.1.1)
                          :: match on_wire (pred g node) !! x.1.1 with
                             | Some u => [(u, x.1.2, x.1.1)]
                             | None => []
                             end
                          ++ match on_wire (succ g node) !! x.1.1 with
                             | Some v => [(x.2, v, x.1.1)]
                             | None => []
                             end
              <-> (e = (x.1.2, x.2, x.1.1)
                   \/ (exists u, on_wire (pred g node) !! x.1.1 = Some u
                                 /\ e = (u, x.1.2, x.1.1))
                   \/ (exists v, on_wire (succ g node) !! x.1.1 = Some v
                                 /\ e = (x.2, v, x.1.1)))) as Hx.
    { intros x. rewrite elem_of_cons, elem_of_app.
      destruct (on_wire (pred g node) !! x.1.1) as [u|],
               (on_wire (succ g node) !! x.1.1) as [v|];
        rewrite ?list_elem_of_singleton, ?elem_of_nil; split;
        intros; destruct_or?; destruct_and?; simplify_eq; eauto;
        repeat match goal with H : exists _, _ |- _ => destruct H as (? & ? & ?) end;
        simplify_eq; eauto. }
    split.
    - intros [[? ?]|(x & ? & ?%Hx)]; [left; tauto|right; by exists x].
    - intros [?|(x & ? & ?%Hx)]; [left; tauto|right; by exists x]. }
  assert (node_list g' = filter (fun n => n ≠ node) (node_list g)
                         ++ flat_map (fun x => [x.1.2; x.2]) cn) as Hlist.
  { subst g'. unfold node_list. cbn [nodes]. rewrite map_app. f_equal.
    - unfold remove_node. cbn [nodes]. by rewrite filter_map_comp.
    - clear. induction cn as [|x cn IH]; simpl; [done|]. by rewrite IH. }
  clearbody g'.
  assert (forall n, (n < length h)%nat -> n ∈ node_list g' -> n ∈ node_list g /\ n ≠ node)
    as Hold.
  { intros n Hn [?|(x & Hx & Hor)]%Hnodes'; [done|].
    destruct (Hcn x Hx) as (? & ? & _). destruct Hor; lia. }
  split; [|intros n Hn Hne; apply Hnodes'; by left].
  split.
  - (* distinct nodes *)
    rewrite Hlist. apply NoDup_app. split_and!.
    + by apply NoDup_filter.
    + intros n [_ Hn]%list_elem_of_filter (x & Hx & Hor)%elem_of_flat_map.
      apply Hobj in Hn. destruct (Hcn x Hx) as (? & ? & _).
      apply elem_of_cons in Hor as [->|Hor]; [lia|].
      apply list_elem_of_singleton in Hor as ->. lia.
    + apply cut_nodes_NoDup.
  - intros n [[Hn _]|(x & Hx & Hor)]%Hnodes'.
    + rewrite length_app. apply Hobj in Hn. lia.
    + destruct (Hcn x Hx) as (_ & Hs & Hm & Hp).
      destruct Hor as [-> | ->]; by eapply lookup_lt_Some.
  - intros e [(He & Hs & Ht)|(x & Hx & Hor)]%Hedges'.
    + destruct (Hclosed e He). split; apply Hnodes'; left; done.
    + destruct Hor as [->|[(u & Hu & ->)|(v & Hv & ->)]]; simpl.
      * split; apply Hnodes'; right; exists x; tauto.
      * apply on_wire_pred in Hu. split.
        -- apply Hnodes'. left. destruct (Hclosed _ Hu) as [? _]. split; [done|].
           by apply (Hloop _ Hu).
        -- apply Hnodes'; right; exists x; tauto.
      * apply on_wire_succ in Hv. split.
        -- apply Hnodes'; right; exists x; tauto.
        -- apply Hnodes'. left. destruct (Hclosed _ Hv) as [_ ?]. split; [done|].
           intros Heq. by apply (Hloop _ Hv).
  - intros e [(He & Hs & Ht)|(x & Hx & Hor)]%Hedges'; [by apply Hloop|].
    destruct (Hcn x Hx) as (Hge & Hs & _).
    destruct Hor as [->|[(u & Hu & ->)|(v & Hv & ->)]]; simpl.
    + lia.
    + apply on_wire_pred in Hu. destruct (Hclosed _ Hu) as [Hu' _]. apply Hobj in Hu'.
      simpl in Hu'. lia.
    + apply on_wire_succ in Hv. destruct (Hclosed _ Hv) as [_ Hv']. apply Hobj in Hv'.
      simpl in Hv'. lia.
  - intros e [(He & Hs & Ht)|(x & Hx & Hor)]%Hedges'.
    + destruct (Hclosed e He) as [H1%Hobj H2%Hobj].
      unfold is_MeasureNode, is_PrepareNode. rewrite !class_of_app_l by done.
      by apply Hcut.
    + destruct (Hcn x Hx) as (Hge & Hs & Hm & Hp).
      destruct Hor as [->|[(u & Hu & ->)|(v & Hv & ->)]]; simpl.
      * intros _. unfold is_PrepareNode, class_of. by rewrite Hp, Hpc.
      * apply on_wire_pred in Hu. destruct (Hclosed _ Hu) as [Hu' _]. apply Hobj in Hu'.
        simpl in Hu'. unfold is_MeasureNode. rewrite class_of_app_l by done.
        intros Hum. pose proof (Hcut _ Hu Hum) as Hprep. simpl in Hprep.
        unfold is_WireCut in Hwc. unfold is_PrepareNode in Hprep.
        by destruct (class_of h node) as [[]|].
      * unfold is_MeasureNode, class_of. by rewrite Hp, Hpc.
  - intros n [[Hn Hne]|(x & Hx & Hor)]%Hnodes'.
    + pose proof (Hobj n Hn) as Hlt. unfold is_WireCut. rewrite class_of_app_l by done.
      intros Hc. rewrite wires_app_l by done. by apply Hwires.
    + destruct (Hcn x Hx) as (Hge & Hs & Hm & Hp).
      unfold is_WireCut, class_of.
      destruct Hor as [-> | ->]; [rewrite Hm, Hmc|rewrite Hp, Hpc]; done.
Qed.

Lemma remove_wire_cut_nodes_ready_loop (l : list oid) (gk : MultiDiGraph)
    (hk : list object) :
  cut_ready hk gk -> NoDup l ->
  (forall op, op ∈ l -> is_WireCut hk op = true -> op ∈ node_list gk) ->
  exists g' new,
    foldH (fun graph op =>
      let* h := get_heap in
      if is_WireCut h op then remove_wire_cut_node op graph else ret graph) l gk hk
    = Ok (g', hk ++ new)
    /\ Forall cut_node_object new
    /\ cut_ready (hk ++ new) g'.
Proof.
  revert gk hk. induction l as [|op l IH]; intros gk hk Hready Hnd Hin; cbn [foldH].
  - exists gk, []. unfold ret. by rewrite app_nil_r.
  - apply NoDup_cons in Hnd as [Hop Hnd].
    unfold bind at 1. unfold bind at 1. unfold get_heap at 1.
    destruct (is_WireCut hk op) eqn:Hwc.
    + destruct (remove_wire_cut_node_ready op gk hk Hready)
        as (g1 & new1 & -> & Hnew1 & Hready1 & Hkeep);
        [apply Hin; [by left|done]|done|].
      destruct (IH g1 (hk ++ new1) Hready1 Hnd) as (g' & new & -> & Hnew & Hready').
      { intros op' Hop'. rewrite is_WireCut_extend by done. intros Hwc'.
        apply Hkeep; [apply Hin; [by right|done]|]. intros ->. done. }
      exists g', (new1 ++ new). rewrite app_assoc. split; [done|].
      split; [by apply Forall_app|done].
    + unfold ret at 1. apply IH; [done|done|].
      intros op' Hop'. apply Hin. by right.
Qed.

Lemma node_list_numbered (k : nat) (l : list oid) (g : MultiDiGraph) :
  nodes g = numbered k l -> node_list g = l.
Proof.
  intros Hg. unfold node_list, numbered in *. rewrite Hg.
  change (map fst) with (fmap (M := list) (@fst nat Q)).
  rewrite fst_zip; [done|]. by rewrite length_map, length_seq.
Qed.

Lemma factor_measurements_objects (h : list object) (ms : list oid) (o : object) :
  o ∈ concat (map (factor_measurements h) ms) ->
  exists rt e, o = MeasurementProcess rt e [].
Proof.
  intros (l & Hl & Ho)%elem_of_concat.
  change (map ?f) with (fmap (M := list) f) in Hl.
  apply list_elem_of_fmap in Hl as (m & -> & _). unfold factor_measurements in Ho.
  destruct (h !! m) as [[?|rt [[?|obs]|] ?]|]; try by apply elem_of_nil in Ho.
  change (map ?f) with (fmap (M := list) f) in Ho.
  apply list_elem_of_fmap in Ho as (x & -> & _). by eexists _, _.
Qed.

(** a measurement node is a measurement of the tape whose observable is
    no tensor product, or one of the new measurements *)
Lemma measurement_nodes_elem (h : list object) (next : nat) (ms : list oid) (v : oid) :
  v ∈ measurement_nodes h next ms ->
  (v ∈ ms \/ (next <= v < next + length (concat (map (factor_measurements h) ms)))%nat).
Proof.
  revert next. induction ms as [|m ms IH]; intros next; simpl; [by intros ?%elem_of_nil|].
  rewrite length_app. destruct (is_tensor_measurement h m).
  - intros [Hv%elem_of_seq|Hv%IH]%elem_of_app; [right; lia|].
    destruct Hv as [?|?]; [left; by right|right; lia].
  - intros [->|Hv%IH]%elem_of_cons; [left; by left|].
    destruct Hv as [?|?]; [left; by right|right; lia].
Qed.

Lemma measurement_nodes_NoDup (h : list object) (next : nat) (ms : list oid) :
  NoDup ms -> Forall (fun m => m < next)%nat ms ->
  NoDup (measurement_nodes h next ms).
Proof.
  intros Hnd. revert next. induction Hnd as [|m ms Hm Hnd IH]; intros next Hlt; simpl.
  - constructor.
  - apply Forall_cons in Hlt as [Hmlt Hlt]. destruct (is_tensor_measurement h m).
    + apply NoDup_app. split_and!.
      * apply NoDup_seq.
      * intros v Hv%elem_of_seq [Hin|Hin]%measurement_nodes_elem.
        -- rewrite Forall_forall in Hlt. apply Hlt in Hin. lia.
        -- lia.
      * apply IH. eapply Forall_impl; [exact Hlt|]. simpl. intros; lia.
    + constructor; [|by apply IH].
      intros [Hin|Hin]%measurement_nodes_elem; [done|lia].
Qed.

(** the graph of a tape of distinct objects, whose operations act on
    distinct wires and are no measure nodes, is ready *)
Lemma tape_graph_ready (h h1 : list object) (tape : QuantumTape) (g : MultiDiGraph) :
  NoDup (operations tape ++ measurements tape) ->
  Forall (fun n => n < length h)%nat (operations tape ++ measurements tape) ->
  Forall (fun op => NoDup (wires h op)) (operations tape) ->
  Forall (fun op => is_MeasureNode h op = false) (operations tape) ->
  Forall (fun m => is_measurement h m = true) (measurements tape) ->
  tape_to_graph tape h = Ok (g, h1) ->
  cut_ready h1 g.
Proof.
  intros Hnd Hlt Hwires Hnomeas Hmeas Hrun.
  pose proof (tape_graph_nodes h h1 tape g Hnd Hlt Hrun) as [Hh1 Hnodes].
  pose proof (fun u v w => tape_graph_edges h h1 tape g u v w Hnd Hlt Hwires Hrun) as Hedges.
  apply node_list_numbered in Hnodes.
  destruct tape as [ops ms]. simpl in *.
  apply NoDup_app in Hnd as (Hnd_ops & Hdisj & Hnd_ms).
  apply Forall_app in Hlt as [Hlt_ops Hlt_ms].
  rewrite Forall_forall in Hlt_ops, Hlt_ms, Hwires, Hnomeas, Hmeas.
  set (new := concat (map (factor_measurements h) ms)) in *.
  set (mnodes := measurement_nodes h (length h) ms) in *.
  assert (forall v, v ∈ mnodes ->
            v ∈ ms \/ (length h <= v < length h + length new)%nat) as Hmn
    by (intros v Hv; by apply measurement_nodes_elem).
  assert (forall u v w, (u, v, w) ∈ edges g ->
            exists i j, (i < j)%nat /\ ops !! i = Some u /\ node_list g !! j = Some v) as Hsrc.
  { intros u v w (j & Hj & _ & (i & Hi & _))%Hedges.
    apply lookup_take_Some in Hi as [Hi Hij]. by exists i, j. }
  assert (NoDup (node_list g)) as Hnd_g.
  { rewrite Hnodes. apply NoDup_app. split_and!; [done| |].
    - intros v Hv [Hin|Hin]%Hmn; [by apply (Hdisj v)|].
      apply Hlt_ops in Hv. lia.
    - apply measurement_nodes_NoDup; [done|]. by apply Forall_forall. }
  split.
  - done.
  - intros n. rewrite Hnodes, Hh1, length_app.
    intros [Hn%Hlt_ops|[Hn%Hlt_ms|Hn]%Hmn]%elem_of_app; lia.
  - intros [[u v] w] He. simpl. destruct (Hsrc u v w He) as (i & j & _ & Hi & Hj). split.
    + rewrite Hnodes. apply elem_of_app. left. by eapply list_elem_of_lookup_2.
    + by eapply list_elem_of_lookup_2.
  - intros [[u v] w] He. simpl. destruct (Hsrc u v w He) as (i & j & Hij & Hi & Hj).
    intros ->. assert (node_list g !! i = Some v) as Hi'
      by (rewrite Hnodes; by apply lookup_app_l_Some).
    pose proof (NoDup_lookup _ _ _ _ Hnd_g Hi' Hj). lia.
  - intros [[u v] w] He. simpl. destruct (Hsrc u v w He) as (i & j & _ & Hi & _).
    apply list_elem_of_lookup_2 in Hi.
    unfold is_MeasureNode. rewrite Hh1, class_of_app_l by by apply Hlt_ops.
    pose proof (Hnomeas u Hi) as Hu. unfold is_MeasureNode in Hu. by rewrite Hu.
  - intros n. rewrite Hnodes, Hh1.
    intros [Hn|[Hn|Hn]%Hmn]%elem_of_app.
    + intros _. rewrite wires_app_l by by apply Hlt_ops. by apply Hwires.
    + unfold is_WireCut. rewrite class_of_app_l by by apply Hlt_ms.
      pose proof (Hmeas n Hn) as Hm. unfold is_measurement in Hm. unfold class_of.
      by destruct (h !! n) as [[]|].
    + unfold is_WireCut, class_of. rewrite lookup_app_r by lia.
      destruct (new !! (n - length h)%nat) as [o|] eqn:Ho; [|done].
      apply list_elem_of_lookup_2, factor_measurements_objects in Ho as (rt & e & ->).
      done.
Qed.

(** X20: the first stages of [cut_circuit] compose.  For a tape of
    distinct objects, whose operations act on distinct wires and are no
    measure nodes placed by hand, and whose measurements are measurement
    processes: when [tape_to_graph] returns, [remove_wire_cut_nodes]
    returns on its graph and [fragment_graph] returns on the graph that
    is left; its assertion cannot fail. *)
Theorem cut_graph_fragments (h h1 : list object) (tape : QuantumTape)
    (g : MultiDiGraph) :
  NoDup (operations tape ++ measurements tape) ->
  Forall (fun n => n < length h)%nat (operations tape ++ measurements tape) ->
  Forall (fun op => NoDup (wires h op)) (operations tape) ->
  Forall (fun op => is_MeasureNode h op = false) (operations tape) ->
  Forall (fun m => is_measurement h m = true) (measurements tape) ->
  tape_to_graph tape h = Ok (g, h1) ->
  exists g2 h2 subgraphs communication_graph,
    remove_wire_cut_nodes g h1 = Ok (g2, h2)
    /\ fragment_graph h2 g2 = Ok (subgraphs, communication_graph).
Proof.
  intros Hnd Hlt Hwires Hnomeas Hmeas Hrun.
  pose proof (tape_graph_ready h h1 tape g Hnd Hlt Hwires Hnomeas Hmeas Hrun) as Hready.
  destruct (remove_wire_cut_nodes_ready_loop (node_list g) g h1 Hready)
    as (g2 & new & Hcut & Hnew & Hready2); [by destruct Hready|done|].
  destruct (fragment_graph_total (h1 ++ new) g2) as (subs & cg & Hfrag).
  - by destruct Hready2.
  - by destruct Hready2.
  - apply Forall_forall. intros e He. by apply (ready_cut_edges _ _ Hready2).
  - by exists g2, (h1 ++ new), subs, cg.
Qed.

Lemma cut_graph_fragments_witness :
  exists g h1 g2 h2 subgraphs communication_graph,
    tape_to_graph three_cut_recorded three_cut_tape_heap = Ok (g, h1)
    /\ remove_wire_cut_nodes g h1 = Ok (g2, h2)
    /\ fragment_graph h2 g2 = Ok (subgraphs, communication_graph).
Proof.
  assert (exists r, tape_to_graph three_cut_recorded three_cut_tape_heap = Ok r)
    as [[g h1] Hrun] by (eexists; vm_compute; reflexivity).
  assert (NoDup (operations three_cut_recorded ++ measurements three_cut_recorded)) as Hnd
    by (apply (bool_decide_unpack _); vm_compute; exact I).
  assert (Forall (fun n => n < length three_cut_tape_heap)%nat
                 (operations three_cut_recorded ++ measurements three_cut_recorded)) as Hlt
    by (apply (bool_decide_unpack _); vm_compute; exact I).
  assert (Forall (fun op => NoDup (wires three_cut_tape_heap op))
                 (operations three_cut_recorded)) as Hws
    by (apply (bool_decide_unpack _); vm_compute; exact I).
  assert (Forall (fun op => is_MeasureNode three_cut_tape_heap op = false)
                 (operations three_cut_recorded)) as Hnm
    by (apply (bool_decide_unpack _); vm_compute; exact I).
  assert (Forall (fun m => is_measurement three_cut_tape_heap m = true)
                 (measurements three_cut_recorded)) as Hms
    by (apply (bool_decide_unpack _); vm_compute; exact I).
  destruct (cut_graph_fragments _ _ _ _ Hnd Hlt Hws Hnm Hms Hrun)
    as (g2 & h2 & subgraphs & communication_graph & Hcut & Hfrag).
  exists g, h1, g2, h2, subgraphs, communication_graph. by split.
Defined.

(** ** Contractor: when the index strings are built *)

(** a loop whose steps only add keys to a dictionary, the keys that a
    step adds being those of its element *)
Lemma fold_left_keys {S B} (key : S -> gmap oid nat) (D : B -> oid -> Prop)
    (f : S -> B -> S) (l : list B) (st : S) (m : oid) :
  (forall st b, b ∈ l ->
     is_Some (key (f st b) !! m) <-> is_Some (key st !! m) \/ D b m) ->
  is_Some (key (fold_left f l st) !! m)
  <-> is_Some (key st !! m) \/ exists b, b ∈ l /\ D b m.
Proof.
  revert st. induction l as [|b l IH]; intros st Hstep; simpl.
  - split; [by left|]. intros [?|(b & ?%elem_of_nil & _)]; done.
  - rewrite IH by (intros st' b' Hb'; apply Hstep; by right).
    rewrite Hstep by by left. split.
    + intros [[?|?]|(b' & Hb' & ?)]; [by left| |].
      * right. exists b. split; [by left|done].
      * right. exists b'. split; [by right|done].
    + intros [?|(b' & [->|Hb']%elem_of_cons & ?)]; [by left; left|by left; right|].
      right. by exists b'.
Qed.

Lemma group_by_key_elem_complete {A} (l : list (oid * A)) (k : oid) (v : A) :
  (k, v) ∈ l -> exists vs, (k, vs) ∈ group_by_key l /\ v ∈ vs.
Proof.
  intros Hin.
  assert (v ∈ map snd (filter (fun p => fst p = k) l)) as Hv.
  { change (map ?f) with (fmap (M := list) f). apply list_elem_of_fmap.
    exists (k, v). split; [done|]. by apply list_elem_of_filter. }
  rewrite <- group_by_key_values in Hv.
  apply elem_of_concat in Hv as (vs & Hvs & Hv).
  change (map ?f) with (fmap (M := list) f) in Hvs.
  apply list_elem_of_fmap in Hvs as ([k' vs'] & -> & [Hk Hin']%list_elem_of_filter).
  simpl in Hk. subst k'. by exists vs'.
Qed.

Lemma comm_pred_elem (cg : CommunicationGraph) (node s : nat) (pes : list (oid * oid))
    (x : oid * oid) :
  (s, pes) ∈ comm_pred cg node -> x ∈ pes -> (s, node, x) ∈ comm_edges cg.
Proof.
  intros Hin Hx. unfold comm_pred in Hin.
  pose proof (group_by_key_elem _ _ _ _ Hin Hx) as Hl.
  change (map ?f) with (fmap (M := list) f) in Hl.
  apply list_elem_of_fmap in Hl as ([[a b] c] & [= -> ->] & He).
  apply list_elem_of_filter in He as [Hb He]. simpl in Hb. by subst b.
Qed.

Lemma comm_pred_complete (cg : CommunicationGraph) (node s : nat) (x : oid * oid) :
  (s, node, x) ∈ comm_edges cg -> exists pes, (s, pes) ∈ comm_pred cg node /\ x ∈ pes.
Proof.
  intros He. apply group_by_key_elem_complete.
  change (map ?f) with (fmap (M := list) f). apply list_elem_of_fmap.
  exists (s, node, x). split; [done|]. by apply list_elem_of_filter.
Qed.

Lemma comm_succ_elem (cg : CommunicationGraph) (node e : nat) (ses : list (oid * oid))
    (x : oid * oid) :
  (e, ses) ∈ comm_succ cg node -> x ∈ ses -> (node, e, x) ∈ comm_edges cg.
Proof.
  intros Hin Hx. unfold comm_succ in Hin.
  pose proof (group_by_key_elem _ _ _ _ Hin Hx) as Hl.
  change (map ?f) with (fmap (M := list) f) in Hl.
  apply list_elem_of_fmap in Hl as ([[a b] c] & [= -> ->] & He).
  apply list_elem_of_filter in He as [Ha He]. simpl in Ha. by subst a.
Qed.

Lemma comm_succ_complete (cg : CommunicationGraph) (node e : nat) (x : oid * oid) :
  (node, e, x) ∈ comm_edges cg -> exists ses, (e, ses) ∈ comm_succ cg node /\ x ∈ ses.
Proof.
  intros He. apply group_by_key_elem_complete.
  change (map ?f) with (fmap (M := list) f). apply list_elem_of_fmap.
  exists (node, e, x). split; [done|]. by apply list_elem_of_filter.
Qed.

(** the first loop of [_contract_tensors]: the measure nodes that have a
    symbol at its end, and the number of index strings *)
Lemma symbols_loop (cg : CommunicationGraph) (prepare_nodes : list (list oid))
    (st0 : nat * list (list nat) * gmap oid nat) :
  let st :=
    fold_left (fun st '(i, (node, prep)) =>
      let predecessors := comm_pred cg node in
      fold_left (fun st '(pred_node, pred_edges) =>
        fold_left (fun st '(meas_op, prep_op) =>
          fold_left (fun '(ctr, tensor_indxs, meas_map) p =>
            if bool_decide (p = prep_op) then
              let symb := get_symbol ctr in
              (Datatypes.S ctr,
               alter (fun s => s ++ [symb]) i tensor_indxs,
               <[meas_op := symb]> meas_map)
            else (ctr, tensor_indxs, meas_map)) prep st)
          pred_edges st)
        predecessors st)
      (enumerate (zip (comm_nodes cg) prepare_nodes)) st0 in
  length st.1.2 = length st0.1.2
  /\ forall m, is_Some (st.2 !! m)
       <-> is_Some (st0.2 !! m) \/ gets_symbol cg prepare_nodes m.
Proof.
  cbv zeta. split.
  - generalize (enumerate (zip (comm_nodes cg) prepare_nodes)). intros l.
    revert st0. induction l as [|[i [node prep]] l IH]; intros st0; simpl; [done|].
    rewrite IH. clear IH. generalize (comm_pred cg node). intros groups.
    revert st0. induction groups as [|[pn pes] groups IH]; intros st0; simpl; [done|].
    rewrite IH. clear IH.
    revert st0. induction pes as [|[m0 p0] pes IH]; intros st0; simpl; [done|].
    rewrite IH. clear IH.
    revert st0. induction prep as [|p' prep IH]; intros st0; simpl; [done|].
    rewrite IH. clear IH. destruct st0 as [[ctr strs] mm].
    case_bool_decide; simpl; [|done]. by rewrite length_alter.
  - intros m.
    rewrite (fold_left_keys snd
      (fun '(i, (node, prep)) m =>
         exists s pes p, (s, pes) ∈ comm_pred cg node /\ (m, p) ∈ pes /\ p ∈ prep)).
    + split; (intros [?|Hsym]; [by left|right]).
      * destruct Hsym as ([i [e prep]] & Hin & s & pes & p & Hpes & Hmp & Hp).
        exists i, s, e, prep, p. split_and!; [done| |done].
        by eapply comm_pred_elem.
      * destruct Hsym as (i & s & e & prep & p & Hin & He & Hp).
        exists (i, (e, prep)). split; [done|].
        destruct (comm_pred_complete cg e s (m, p) He) as (pes & Hpes & Hmp).
        by exists s, pes, p.
    + intros st [i [node prep]] _.
      rewrite (fold_left_keys snd
        (fun '(s, pes) m => exists p, (m, p) ∈ pes /\ p ∈ prep)).
      * split; (intros [?|Hsym]; [by left|right]).
        -- destruct Hsym as ([s pes] & Hin & p & Hmp & Hp). by exists s, pes, p.
        -- destruct Hsym as (s & pes & p & Hin & Hmp & Hp).
           exists (s, pes). split; [done|]. by exists p.
      * intros st1 [s pes] _.
        rewrite (fold_left_keys snd (fun '(m0, p0) m => m = m0 /\ p0 ∈ prep)).
        -- split; (intros [?|Hsym]; [by left|right]).
           ++ destruct Hsym as ([m0 p0] & Hin & -> & Hp). by exists p0.
           ++ destruct Hsym as (p & Hin & Hp). exists (m, p). by split.
        -- intros st2 [m0 p0] _.
           rewrite (fold_left_keys snd (fun p' m => m = m0 /\ p' = p0)).
           ++ split; (intros [?|Hsym]; [by left|right]).
              ** destruct Hsym as (p' & Hin & -> & ->). by split.
              ** destruct Hsym as [-> Hin]. by exists p0.
           ++ intros [[ctr strs] mm] p' _. case_bool_decide as Hp; simpl.
              ** rewrite lookup_insert_is_Some. split.
                 --- intros [->|[_ ?]]; [by right|by left].
                 --- intros [?|[-> _]]; [|by left].
                     destruct (decide (m0 = m)); [by left|by right].
              ** split; [by left|]. intros [?|[_ ?]]; done.
Qed.

Lemma foldR_keeps {A B} (I : A -> Prop) (f : A -> B -> result A) (l : list B) (a : A) :
  (forall a b, b ∈ l -> I a -> exists a', f a b = Ok a' /\ I a') ->
  I a -> exists a', foldR f l a = Ok a' /\ I a'.
Proof.
  revert a. induction l as [|b l IH]; intros a Hstep Ha; simpl; [by exists a|].
  destruct (Hstep a b) as (a1 & -> & Ha1); [by left|done|]. simpl.
  apply IH; [|done]. intros a' b' Hb'. apply Hstep. by right.
Qed.

Lemma foldR_ok_or {A B} (e : exn) (f : A -> B -> result A) (l : list B) (a : A) :
  (forall a b, b ∈ l -> (exists a', f a b = Ok a') \/ f a b = Raise e) ->
  (exists a', foldR f l a = Ok a') \/ foldR f l a = Raise e.
Proof.
  revert a. induction l as [|b l IH]; intros a Hstep; simpl; [left; by exists a|].
  destruct (Hstep a b) as [[a1 ->]| ->]; [by left| |by right]. simpl.
  apply IH. intros a' b' Hb'. apply Hstep. by right.
Qed.

Lemma foldR_raises {A B} (e : exn) (f : A -> B -> result A) (l : list B) (a : A) :
  (forall a b, b ∈ l -> (exists a', f a b = Ok a') \/ f a b = Raise e) ->
  (exists b, b ∈ l /\ forall a, f a b = Raise e) ->
  foldR f l a = Raise e.
Proof.
  revert a. induction l as [|b l IH]; intros a Hstep (b0 & Hb0 & Hraise).
  - by apply elem_of_nil in Hb0.
  - simpl. apply elem_of_cons in Hb0 as [->|Hb0]; [by rewrite Hraise|].
    destruct (Hstep a b) as [[a1 ->]| ->]; [by left| |done]. simpl.
    apply IH; [|by exists b0]. intros a' b' Hb'. apply Hstep. by right.
Qed.

(** the second loop: it raises [KeyError] at the first measure node
    that it meets and that has no symbol, and returns when there is
    none *)
Lemma indices_loop (cg : CommunicationGraph) (measure_nodes : list (list oid))
    (meas_map : gmap oid nat) (strs0 : list (list nat)) :
  let run :=
    foldR (fun tensor_indxs '(i, (node, meas)) =>
      let successors := comm_succ cg node in
      foldR (fun tensor_indxs '(succ_node, succ_edges) =>
        foldR (fun tensor_indxs '(meas_op, prep_op) =>
          foldR (fun tensor_indxs m =>
            if bool_decide (m = meas_op) then
              match meas_map !! meas_op with
              | Some symb => Ok (alter (fun s => s ++ [symb]) i tensor_indxs)
              | None => Raise KeyError
              end
            else Ok tensor_indxs) meas tensor_indxs)
          succ_edges tensor_indxs)
        successors tensor_indxs)
      (enumerate (zip (comm_nodes cg) measure_nodes)) strs0 in
  ((forall m, needs_symbol cg measure_nodes m -> is_Some (meas_map !! m)) ->
     exists strs, run = Ok strs /\ length strs = length strs0)
  /\ ((exists m, needs_symbol cg measure_nodes m /\ meas_map !! m = None) ->
        run = Raise KeyError).
Proof.
  cbv zeta.
  set (step4 := fun (i : nat) (meas_op : oid) (tensor_indxs : list (list nat)) (m : oid) =>
    if bool_decide (m = meas_op) then
      match meas_map !! meas_op with
      | Some symb => Ok (alter (fun s => s ++ [symb]) i tensor_indxs)
      | None => Raise KeyError
      end
    else Ok tensor_indxs).
  assert (forall i m0 strs m, (exists strs', step4 i m0 strs m = Ok strs')
                              \/ step4 i m0 strs m = Raise KeyError) as H4.
  { intros i m0 strs m. unfold step4. case_bool_decide; [|left; by eexists].
    destruct (meas_map !! m0); [left; by eexists|by right]. }
  split.
  - intros Hneeds.
    apply (foldR_keeps (fun strs => length strs = length strs0)); [|done].
    intros strs1 [i [node meas]] Hin Hlen1.
    apply (foldR_keeps (fun strs => length strs = length strs0)); [|done].
    intros strs2 [e ses] Hses Hlen2.
    apply (foldR_keeps (fun strs => length strs = length strs0)); [|done].
    intros strs3 [m0 p0] Hmp Hlen3.
    apply (foldR_keeps (fun strs => length strs = length strs0)); [|done].
    intros strs4 m Hm Hlen4. case_bool_decide as Heq; [|by exists strs4].
    subst m. destruct (Hneeds m0) as [symb ->].
    { exists i, node, e, meas, p0. split_and!; [done| |done].
      by eapply comm_succ_elem. }
    eexists. split; [done|]. by rewrite length_alter.
  - intros (m & (i & s & e & meas & p & Hin & He & Hm) & Hnone).
    destruct (comm_succ_complete cg s e (m, p) He) as (ses & Hses & Hmp).
    apply foldR_raises.
    { intros strs1 [i1 [node1 meas1]] _. apply foldR_ok_or.
      intros strs2 [e2 ses2] _. apply foldR_ok_or.
      intros strs3 [m3 p3] _. apply foldR_ok_or.
      intros strs4 m4 _. apply (H4 i1 m3). }
    exists (i, (s, meas)). split; [done|]. intros strs1.
    apply foldR_raises.
    { intros strs2 [e2 ses2] _. apply foldR_ok_or.
      intros strs3 [m3 p3] _. apply foldR_ok_or.
      intros strs4 m4 _. apply (H4 i m3). }
    exists (e, ses). split; [done|]. intros strs2.
    apply foldR_raises.
    { intros strs3 [m3 p3] _. apply foldR_ok_or.
      intros strs4 m4 _. apply (H4 i m3). }
    exists (m, p). split; [done|]. intros strs3.
    apply foldR_raises.
    { intros strs4 m4 _. apply (H4 i m). }
    exists m. split; [done|]. intros strs4.
    rewrite bool_decide_eq_true_2 by done. by rewrite Hnone.
Qed.

Lemma tensor_indxs_of_loops (cg : CommunicationGraph)
    (prepare_nodes measure_nodes : list (list oid)) :
  ((forall m, needs_symbol cg measure_nodes m -> gets_symbol cg prepare_nodes m) ->
     exists strs, tensor_indxs_of cg prepare_nodes measure_nodes = Ok strs
                  /\ length strs = length (comm_nodes cg))
  /\ ((exists m, needs_symbol cg measure_nodes m /\ ~ gets_symbol cg prepare_nodes m) ->
        tensor_indxs_of cg prepare_nodes measure_nodes = Raise KeyError).
Proof.
  unfold tensor_indxs_of.
  pose proof (symbols_loop cg prepare_nodes
                (0%nat, replicate (length (comm_nodes cg)) [], ∅)) as Hfirst.
  cbv zeta in Hfirst.
  destruct (fold_left _ (enumerate (zip (comm_nodes cg) prepare_nodes)) _)
    as [[ctr strs0] meas_map].
  simpl in Hfirst. destruct Hfirst as [Hlen Hmap]. rewrite length_replicate in Hlen.
  assert (forall m, is_Some (meas_map !! m) <-> gets_symbol cg prepare_nodes m) as Hmap'.
  { intros m. rewrite Hmap, lookup_empty. split; [|by right].
    intros [[? ?]|?]; done. }
  pose proof (indices_loop cg measure_nodes meas_map strs0) as [Hok Hraise].
  cbv zeta in Hok, Hraise. split.
  - intros Hneeds. destruct Hok as (strs & -> & Hlen').
    + intros m Hm. by apply Hmap', Hneeds.
    + exists strs. split; [done|]. by rewrite Hlen'.
  - intros (m & Hneeds & Hgets). apply Hraise. exists m. split; [done|].
    apply eq_None_not_Some. by rewrite Hmap'.
Qed.

(** X21: [_contract_tensors] builds its index strings, one for each
    node of the communication graph, when every measure node that it
    meets as the measure node of a cut has been given a symbol, that is,
    when the prepare node of the cut is among the prepare nodes of the
    fragment that the cut enters. *)
Theorem tensor_indxs_of_returns (cg : CommunicationGraph)
    (prepare_nodes measure_nodes : list (list oid)) :
  (forall m, needs_symbol cg measure_nodes m -> gets_symbol cg prepare_nodes m) ->
  exists strs, tensor_indxs_of cg prepare_nodes measure_nodes = Ok strs
               /\ length strs = length (comm_nodes cg).
Proof. apply tensor_indxs_of_loops. Qed.

Lemma tensor_indxs_of_returns_witness :
  (forall m, needs_symbol three_cut_communication
               [[7%nat; 11%nat]; [9%nat]; []] m ->
             gets_symbol three_cut_communication
               [[]; []; [8%nat; 10%nat; 12%nat]] m)
  /\ exists strs,
       tensor_indxs_of three_cut_communication
         [[]; []; [8%nat; 10%nat; 12%nat]] [[7%nat; 11%nat]; [9%nat]; []] = Ok strs
       /\ length strs = length (comm_nodes three_cut_communication).
Proof.
  assert (forall m, needs_symbol three_cut_communication
                      [[7%nat; 11%nat]; [9%nat]; []] m ->
                    gets_symbol three_cut_communication
                      [[]; []; [8%nat; 10%nat; 12%nat]] m) as Hneeds.
  { intros m (i & s & e & meas & p & _ & He & _).
    exists 2%nat, s, e, [8%nat; 10%nat; 12%nat], p.
    unfold three_cut_communication in *. cbn [comm_edges comm_nodes] in *.
    repeat (apply elem_of_cons in He as [He|He]);
      [| | |by apply elem_of_nil in He];
      injection He as -> -> -> ->;
      (split_and!; (apply (bool_decide_unpack _); vm_compute; exact I)). }
  split; [exact Hneeds|].
  apply (tensor_indxs_of_returns three_cut_communication), Hneeds.
Defined.

(** X22: and [_contract_tensors] raises [KeyError] when some measure
    node that it meets has not been given a symbol. *)
Theorem contract_tensors_KeyError {R : Type} `{Scalar R} (tensors : list (ndarray R))
    (cg : CommunicationGraph) (prepare_nodes measure_nodes : list (list oid)) (m : oid) :
  needs_symbol cg measure_nodes m ->
  ~ gets_symbol cg prepare_nodes m ->
  _contract_tensors tensors cg prepare_nodes measure_nodes = Raise KeyError.
Proof.
  intros Hneeds Hgets. unfold _contract_tensors.
  destruct (tensor_indxs_of_loops cg prepare_nodes measure_nodes) as [_ Hraise].
  rewrite Hraise; [done|]. by exists m.
Qed.

Lemma contract_tensors_KeyError_witness :
  needs_symbol one_cut_graph [[0%nat]; []] 0%nat
  /\ ~ gets_symbol one_cut_graph [[]; []] 0%nat
  /\ _contract_tensors (R := QSqrt2) [] one_cut_graph [[]; []] [[0%nat]; []]
     = Raise KeyError.
Proof.
  assert (needs_symbol one_cut_graph [[0%nat]; []] 0%nat) as Hneeds.
  { exists 0%nat, 0%nat, 1%nat, [0%nat], 1%nat.
    split_and!; (apply (bool_decide_unpack _); vm_compute; exact I). }
  assert (~ gets_symbol one_cut_graph [[]; []] 0%nat) as Hgets.
  { intros (i & s & e & prep & p & Hin & _ & Hp).
    unfold one_cut_graph, enumerate in Hin. cbn in Hin.
    repeat (apply elem_of_cons in Hin as [Hin|Hin]);
      [| |by apply elem_of_nil in Hin];
      injection Hin as -> -> ->; by apply elem_of_nil in Hp. }
  split; [exact Hneeds|]. split; [exact Hgets|].
  exact (contract_tensors_KeyError [] one_cut_graph [[]; []] [[0%nat]; []] 0%nat
           Hneeds Hgets).
Defined.
